(** * sb63: OpenStreetMap harvest and CSV conversion

    A shallow embedding of [query_osm.py] (the Overpass retriever) and
    [convert_to_csv.py] (the tabulator), followed by the properties the
    specification states about them.

    Conventions of the embedding:
    - a Python [dict] is an insertion-ordered association list with unique
      keys: [d[k] = v] overwrites in place or appends at the end;
    - an Overpass element is a record of optional fields, one per JSON key
      the scripts read ([None] = key absent);
    - an exception is a [Raise] in the [result] type; a loop over a state
      that an exception cuts short leaves the state as it was then;
    - the file system is what the scripts see of it: the listing of
      [data/], the JSON files already retrieved, and its answer to each
      write of a CSV file;
    - a pandas [DataFrame] is its column index plus one dict per row, every
      row carrying exactly the frame's columns. *)

From Stdlib Require Import List String Ascii ZArith QArith Bool Lia.
From Stdlib Require Import Permutation Sorted.
From Stdlib Require OrderedTypeEx.
Import ListNotations.
Close Scope Q_scope.
Open Scope string_scope.
Open Scope list_scope.

(** ** Python runtime: exceptions, dicts, [sorted] *)

Module Py.

(** The exceptions the scripts can meet: a missing dict key or DataFrame
    label (the payload lists the missing labels), a method or a length
    asked of a value that has none, a plain file where a directory is to
    be made, a file that cannot be written. *)
Inductive exn : Type :=
| KeyError (labels : list string)
| AttributeError (name : string)
| TypeError (operation : string)
| FileExistsError (path : string)
| OSError (reason : string).

Inductive result (A : Type) : Type :=
| Ok (a : A)
| Raise (e : exn).
Arguments Ok {A} a.
Arguments Raise {A} e.

Definition bind {A B} (m : result A) (k : A -> result B) : result B :=
  match m with
  | Ok a => k a
  | Raise e => Raise e
  end.

(** [for x in xs: ys.append(f(x))] where [f] may raise. *)
Fixpoint for_each {A B} (f : A -> result B) (xs : list A) : result (list B) :=
  match xs with
  | [] => Ok []
  | x :: rest =>
      bind (f x) (fun y => bind (for_each f rest) (fun ys => Ok (y :: ys)))
  end.

(** [for x in xs: body] over a state [s], where the body may raise: the
    exception ends the loop and leaves the state as the body left it. *)
Fixpoint for_state {S A} (body : S -> A -> S * result unit) (xs : list A) (s : S)
  : S * result unit :=
  match xs with
  | [] => (s, Ok tt)
  | x :: rest =>
      match body s x with
      | (s', Ok _) => for_state body rest s'
      | (s', Raise e) => (s', Raise e)
      end
  end.

(** Keys of a dict are compared with [==]. *)
Class Hashable (K : Type) := key_eqb : K -> K -> bool.
#[export] Instance string_hashable : Hashable string := String.eqb.
#[export] Instance Z_hashable : Hashable Z := Z.eqb.

(** Tuples compare componentwise. *)
#[export] Instance pair_hashable {A B : Type} `{Hashable A} `{Hashable B}
  : Hashable (A * B) :=
  fun x y => key_eqb (fst x) (fst y) && key_eqb (snd x) (snd y).

Section Dict.
Context {K V : Type} `{Hashable K}.

(** [k in xs] for a list or set literal. *)
Definition contains (k : K) (xs : list K) : bool :=
  existsb (key_eqb k) xs.

(** [d.get(k)] *)
Fixpoint dget (k : K) (d : list (K * V)) : option V :=
  match d with
  | [] => None
  | (k', v) :: rest => if key_eqb k k' then Some v else dget k rest
  end.

(** [d[k] = v]: an existing key keeps its position, a new one goes last. *)
Fixpoint dset (k : K) (v : V) (d : list (K * V)) : list (K * V) :=
  match d with
  | [] => [(k, v)]
  | (k', v') :: rest =>
      if key_eqb k k' then (k', v) :: rest else (k', v') :: dset k v rest
  end.

(** [d.keys()] *)
Definition dkeys (d : list (K * V)) : list K := map fst d.

(** [k in d] *)
Definition has_key (k : K) (d : list (K * V)) : bool := contains k (dkeys d).

End Dict.

Abbreviation dict K V := (list (K * V)).

(** [sorted(xs, key=...)]: a stable sort; [leb a b] is [key(a) <= key(b)]. *)
Section Sorted.
Context {A : Type} (leb : A -> A -> bool).

Fixpoint insert_sorted (x : A) (l : list A) : list A :=
  match l with
  | [] => [x]
  | y :: rest => if leb x y then x :: y :: rest else y :: insert_sorted x rest
  end.

Fixpoint sorted (l : list A) : list A :=
  match l with
  | [] => []
  | x :: rest => insert_sorted x (sorted rest)
  end.

End Sorted.

(** [s.startswith((p1, p2, ...))] *)
Definition startswith (s : string) (prefixes : list string) : bool :=
  existsb (fun p => String.prefix p s) prefixes.

(** A parsed JSON value, as [json.loads] and [response.json()] return it. *)
#[warnings="-register-all"] Inductive json_value : Type :=
| JNull
| JBool (b : bool)
| JNumber (q : Q)
| JString (s : string)
| JArray (items : list json_value)
| JObject (members : list (string * json_value)).

(** [bool(v)] *)
Definition truth (v : json_value) : bool :=
  match v with
  | JNull => false
  | JBool b => b
  | JNumber q => negb (Qeq_bool q 0%Q)
  | JString s => negb (s =? "")
  | JArray items => match items with [] => false | _ => true end
  | JObject members => match members with [] => false | _ => true end
  end.

(** [len(v)]; a string counts its characters. *)
Definition len (v : json_value) : result nat :=
  match v with
  | JString s => Ok (String.length s)
  | JArray items => Ok (List.length items)
  | JObject members => Ok (List.length members)
  | JNull | JBool _ | JNumber _ => Raise (TypeError "len")
  end.

(** [v.get(key, default)] *)
Definition get (v : json_value) (key : string) (default : json_value)
  : result json_value :=
  match v with
  | JObject members =>
      Ok (match dget key members with Some x => x | None => default end)
  | _ => Raise (AttributeError "get")
  end.

End Py.
Import Py.

Notation "x <- m ;; k" := (bind m (fun x => k))
  (at level 61, m at next level, right associativity).

(** ** query_osm.py *)

Module query_osm.

(** County OSM relation IDs. *)
Definition COUNTIES : dict string string :=
  [ ("alameda", "3600396499");
    ("contra_costa", "3600396462");
    ("san_francisco", "3600111968");
    ("san_mateo", "3600396498");
    ("santa_clara", "3600396501") ].

(** Query tags by category. *)
Definition QUERIES : dict string (list string) :=
  [ ("religion",
      [ "amenity=place_of_worship"; "building=temple"; "building=synagogue";
        "building=mosque"; "building=church"; "building=cathedral";
        "building=chapel"; "building=gurdwara"; "religion"; "denomination" ]);
    ("social_community",
      [ "amenity=social_facility"; "amenity=arts_centre";
        "amenity=community_centre" ]);
    ("events",
      [ "amenity=theatre"; "amenity=nightclub"; "amenity=events_venue";
        "amenity=conference_centre"; "leisure=stadium"; "amenity=marketplace";
        "amenity=exhibition_centre"; "amenity=festival_grounds";
        "leisure=festival_grounds" ]);
    ("bikeshops", [ "shop=bicycle" ]);
    ("bookstores", [ "shop=books" ]) ].

(** What one [httpx.post] can do: raise (connection error, timeout), or
    return a response.  [json = None] stands for a body on which
    [response.json()] raises. *)
Record response (J : Type) : Type := {
  status_code : Z;
  json : option J
}.
Arguments status_code {J} r.
Arguments json {J} r.

Inductive outcome (J : Type) : Type :=
| Responds (r : response J)
| Fails.
Arguments Responds {J} r.
Arguments Fails {J}.

(** The observable effects of a call: the requests made and the delays
    slept, oldest first. *)
Record trace : Type := {
  requests : nat;
  sleeps : list Z
}.

Definition request (t : trace) : trace :=
  {| requests := S (requests t); sleeps := sleeps t |}.

Definition sleep (delay : Z) (t : trace) : trace :=
  {| requests := requests t; sleeps := sleeps t ++ [delay] |}.

Section Retriever.
Context {J : Type}.
(** The service: what the [n]-th request of this call meets. *)
Variable server : nat -> outcome J.
Variable max_retries : nat.

(** The body of [for attempt in range(max_retries)], over the attempts
    still to run.  Returns the function's result and the trace. *)
Fixpoint attempts (todo : list nat) (t : trace) : option J * trace :=
  match todo with
  | [] => (None, t)                       (* "Max retries exceeded" *)
  | attempt :: rest =>
      let t := request t in
      let on_exception :=
        (* except Exception (the post, or response.json(), raised) *)
        let delay :=
          if (attempt <? max_retries - 1)%nat then 2 ^ Z.of_nat attempt else 0 in
        if 0 <? delay then attempts rest (sleep delay t) else (None, t) in
      match server attempt with
      | Fails => on_exception
      | Responds r =>
          if status_code r =? 200 then
            match json r with
            | Some body => (Some body, t)
            | None => on_exception
            end
          else if (500 <=? status_code r) || (status_code r =? 429) then
            let delay := 2 ^ Z.of_nat attempt in
            attempts rest (sleep delay t)
          else (None, t)                  (* other client error: no retry *)
      end
  end%Z.

Definition query_overpass_with : option J * trace :=
  attempts (seq 0 max_retries) {| requests := 0; sleeps := [] |}.

End Retriever.

(** [query_overpass(query_str)] with the default [max_retries=5]. *)
Definition query_overpass {J} (server : nat -> outcome J) : option J * trace :=
  query_overpass_with server 5.

(** The line feed of the f-strings. *)
Definition LF : string := String "010" "".

Definition build_overpass_query (relation_id : string) (tags : list string)
  : string :=
  let area_part := ("area(" ++ relation_id ++ ")->.searchArea;")%string in
  let tag_parts :=
    String.concat (LF ++ "  ")%string
      (map (fun tag => ("nwr[" ++ tag ++ "](area.searchArea);")%string) tags) in
  ("[out:json];" ++ LF ++ area_part ++ LF ++ "(" ++ LF ++ "  " ++ tag_parts
   ++ LF ++ ");" ++ LF ++ "out meta;")%string.

(** [len(result.get('elements', []))] on a parsed body. *)
Definition count_elements (result : json_value) : Py.result nat :=
  elements <- get result "elements" (JArray []) ;;
  len elements.

(** [main()] of the retriever.  The state is the JSON files under [data/],
    keyed by county and category, and the requests and sleeps so far. *)
Section Main.
Context {J : Type}.
(** [bool(result)] of a parsed body: an empty JSON value is falsy. *)
Variable truthy : J -> bool.
(** [len(result.get('elements', []))] of a parsed body, for the message
    that follows the save: it raises on a body that is not a JSON object,
    and on one whose [elements] have no length. *)
Variable elements_count : J -> result nat.
(** What the [n]-th request of the run meets, given its query string. *)
Variable server : nat -> string -> outcome J.

Record world : Type := {
  files : dict (string * string) J;
  effort : trace
}.

(** The body of the inner loop, for one county and one category. *)
Definition query_category (county relation_id : string) (w : world)
  (query : string * list string) : world * result unit :=
  let category := fst query in
  let tags := snd query in
  let query_str := build_overpass_query relation_id tags in
  if has_key (county, category) (files w)
  then (w, Ok tt)                         (* already exists, skipping *)
  else
    let answer :=
      query_overpass
        (fun attempt => server (requests (effort w) + attempt) query_str) in
    let result := fst answer in
    let effort' :=
      {| requests := requests (effort w) + requests (snd answer);
         sleeps := sleeps (effort w) ++ sleeps (snd answer) |} in
    match result with
    | Some body =>
        if truthy body
        then
          (* the file is written, then its elements are counted *)
          ({| files := dset (county, category) body (files w);
              effort := effort' |},
           elements_count <- elements_count body ;; Ok tt)
        else ({| files := files w; effort := effort' |}, Ok tt)
    | None => ({| files := files w; effort := effort' |}, Ok tt)
    end.

Definition query_all_categories (w : world) (county : string * string)
  : world * result unit :=
  for_state (query_category (fst county) (snd county)) QUERIES w.

Definition main (w : world) : world * result unit :=
  for_state query_all_categories COUNTIES w.

End Main.

End query_osm.

(** ** convert_to_csv.py *)

Module convert_to_csv.
Import query_osm.

(** A scalar held by a row: [None]/NaN, an integer (an OSM id), a JSON
    number (a coordinate) or a string (file-derived names, tag values). *)
Inductive value : Type :=
| VNone
| VInt (z : Z)
| VFloat (q : Q)
| VStr (s : string).

Definition of_int (o : option Z) : value :=
  match o with Some z => VInt z | None => VNone end.
Definition of_float (o : option Q) : value :=
  match o with Some q => VFloat q | None => VNone end.
Definition of_str (o : option string) : value :=
  match o with Some s => VStr s | None => VNone end.

(** One entry of a document's [elements] array, as the Overpass service
    emits it: each field is [element.get(<key>)]. *)
Record element : Type := {
  e_type : option string;
  e_id : option Z;
  e_lat : option Q;
  e_lon : option Q;
  e_nodes : option (list Z);
  e_tags : option (dict string string)
}.

Definition row : Type := dict string value.
Definition node_index : Type := dict Z (Q * Q).

(** [element.get('type') == name] *)
Definition type_is (element : element) (name : string) : bool :=
  match e_type element with Some ty => ty =? name | None => false end.

(** The loop of [create_node_lookup]; [element['id']] raises on an element
    without an id. *)
Fixpoint create_node_lookup_from (lookup : node_index) (elements : list element)
  : result node_index :=
  match elements with
  | [] => Ok lookup
  | element :: rest =>
      match type_is element "node", e_lat element, e_lon element with
      | true, Some lat, Some lon =>
          match e_id element with
          | Some id => create_node_lookup_from (dset id (lat, lon) lookup) rest
          | None => Raise (KeyError ["id"])
          end
      | _, _, _ => create_node_lookup_from lookup rest
      end
  end.

Definition create_node_lookup (elements : list element) : result node_index :=
  create_node_lookup_from [] elements.

Definition meaningful_keys : list string :=
  [ "name"; "amenity"; "shop"; "building"; "leisure"; "religion";
    "phone"; "website"; "addr:housenumber"; "addr:street";
    "addr:city"; "email"; "opening_hours" ].

Definition noise_prefixes : list string :=
  [ "source"; "gnis"; "wikidata"; "wikipedia"; "note"; "fixme" ].

(** [element.get('tags', {})] *)
Definition tags_of (element : element) : dict string string :=
  match e_tags element with Some tags => tags | None => [] end.

(** The [for key in tags.keys()] loop of [should_include_element]. *)
Fixpoint any_meaningful (keys : list string) : bool :=
  match keys with
  | [] => false
  | key :: rest =>
      if contains key meaningful_keys || negb (startswith key noise_prefixes)
      then true
      else any_meaningful rest
  end.

Definition should_include_element (element : element) (node_lookup : node_index)
  : bool :=
  let tags := tags_of element in
  match tags with
  | [] => false                               (* if not tags *)
  | _ => any_meaningful (dkeys tags)
  end.

Definition get_element_coordinates (element : element) (node_lookup : node_index)
  : option Q * option Q :=
  if type_is element "node" then (e_lat element, e_lon element)
  else if type_is element "way" then
    match e_nodes element with
    | Some (first :: _) =>
        match dget first node_lookup with
        | Some lat_lon => (Some (fst lat_lon), Some (snd lat_lon))
        | None => (None, None)
        end
    | _ => (None, None)
    end
  else (None, None).

(** [data_row[key] = value], the body of the loop over [tags.items()]. *)
Definition write_tag (data_row : row) (kv : string * string) : row :=
  dset (fst kv) (VStr (snd kv)) data_row.

Definition extract_element_data (element : element) (node_lookup : node_index)
  (query_purpose query_county : string) : row :=
  let '(lat, lon) := get_element_coordinates element node_lookup in
  let data_row : row :=
    [ ("latitude", of_float lat);
      ("longitude", of_float lon);
      ("query_purpose", VStr query_purpose);
      ("query_county", VStr query_county);
      ("osm_id", of_int (e_id element));
      ("osm_type", of_str (e_type element)) ] in
  fold_left write_tag (tags_of element) data_row.

(** [process_json_file]: [None] is a file that cannot be read or parsed.
    Any exception ends in the [except] branch, which returns no rows. *)
Definition process_json_file (document : option (list element))
  (query_purpose query_county : string) : list row :=
  match document with
  | None => []
  | Some elements =>
      match create_node_lookup elements with
      | Raise _ => []
      | Ok node_lookup =>
          map (fun element =>
                 extract_element_data element node_lookup query_purpose query_county)
              (filter (fun element => should_include_element element node_lookup)
                      elements)
      end
  end.

(** *** The pandas operations [main] uses *)

Record DataFrame : Type := {
  columns : list string;
  rows : list row
}.

(** The cell of a row under a column; a missing key reads as NaN. *)
Definition cell (r : row) (col : string) : value :=
  match dget col r with Some v => v | None => VNone end.

(** A row laid out on a column index. *)
Definition reindex (cols : list string) (r : row) : row :=
  map (fun col => (col, cell r col)) cols.

(** [pd.DataFrame(list_of_dicts)]: the columns are the keys of the dicts in
    order of first appearance; a row lacking a key holds NaN there. *)
Definition add_keys (seen : list string) (r : row) : list string :=
  fold_left (fun seen key => if contains key seen then seen else seen ++ [key])
            (dkeys r) seen.

Definition pd_DataFrame (data : list row) : DataFrame :=
  let cols := fold_left add_keys data [] in
  {| columns := cols; rows := map (reindex cols) data |}.

(** [df[col]]: one column as a series; a missing label raises. *)
Definition getitem (df : DataFrame) (col : string) : result (list value) :=
  if contains col (columns df)
  then Ok (map (fun r => cell r col) (rows df))
  else Raise (KeyError [col]).

(** [series.isin(strings)] *)
Definition isin (series : list value) (strings : list string) : list bool :=
  map (fun v => match v with VStr s => contains s strings | _ => false end)
      series.

(** [~mask] *)
Definition invert (mask : list bool) : list bool := map negb mask.

(** [df[mask]]: the rows whose mask entry is true. *)
Fixpoint mask_rows (mask : list bool) (rs : list row) : list row :=
  match mask, rs with
  | keep :: mask', r :: rs' =>
      if keep then r :: mask_rows mask' rs' else mask_rows mask' rs'
  | _, _ => []
  end.

Definition getitem_mask (df : DataFrame) (mask : list bool) : DataFrame :=
  {| columns := columns df; rows := mask_rows mask (rows df) |}.

(** [df[col] = scalar]: overwrites the column, or appends it as the last. *)
Definition setitem (df : DataFrame) (col : string) (v : value) : DataFrame :=
  {| columns :=
       if contains col (columns df) then columns df else columns df ++ [col];
     rows := map (dset col v) (rows df) |}.

(** [df[cols]]: the listed columns in the listed order; every label must
    exist, otherwise the missing ones are reported in a KeyError. *)
Definition getitem_cols (df : DataFrame) (cols : list string) : result DataFrame :=
  match filter (fun col => negb (contains col (columns df))) cols with
  | [] => Ok {| columns := cols; rows := map (reindex cols) (rows df) |}
  | missing => Raise (KeyError missing)
  end.

(** [df.drop(columns=cols)] for labels that exist. *)
Definition drop (df : DataFrame) (cols : list string) : DataFrame :=
  let kept := filter (fun col => negb (contains col cols)) (columns df) in
  {| columns := kept; rows := map (reindex kept) (rows df) |}.

(** Order of the values of a sort or group key: numbers by value, then
    strings by code point, then missing values ([na_position='last']). *)
Definition rank (v : value) : nat :=
  match v with
  | VInt _ | VFloat _ => 0
  | VStr _ => 1
  | VNone => 2
  end.

Definition number (v : value) : Q :=
  match v with
  | VInt z => inject_Z z
  | VFloat q => q
  | _ => 0%Q
  end.

Definition value_leb (a b : value) : bool :=
  match a, b with
  | VStr s, VStr t => String.leb s t
  | (VInt _ | VFloat _), (VInt _ | VFloat _) => Qle_bool (number a) (number b)
  | _, _ => Nat.leb (rank a) (rank b)
  end.

Definition value_eqb (a b : value) : bool :=
  match a, b with
  | VNone, _ | _, VNone => false                  (* NaN equals nothing *)
  | _, _ => value_leb a b && value_leb b a
  end.

Fixpoint keys_leb (ka kb : list value) : bool :=
  match ka, kb with
  | a :: ka', b :: kb' =>
      if value_leb a b then (if value_leb b a then keys_leb ka' kb' else true)
      else false
  | _, _ => true
  end.

(** [df.sort_values(by)]: stable, ascending, lexicographic on the columns
    of [by]. *)
Definition sort_values (df : DataFrame) (by_ : list string) : result DataFrame :=
  match filter (fun col => negb (contains col (columns df))) by_ with
  | [] =>
      Ok {| columns := columns df;
            rows := sorted (fun r1 r2 => keys_leb (map (cell r1) by_)
                                                  (map (cell r2) by_))
                           (rows df) |}
  | col :: _ => Raise (KeyError [col])
  end.

Fixpoint unique (vs : list value) : list value :=
  match vs with
  | [] => []
  | v :: rest => v :: filter (fun w => negb (value_eqb v w)) (unique rest)
  end.

Definition notna (v : value) : bool :=
  match v with VNone => false | _ => true end.

(** [df.groupby(col)]: one frame per distinct non-missing key, in key
    order, each keeping its rows in frame order. *)
Definition groupby (df : DataFrame) (col : string)
  : result (list (value * DataFrame)) :=
  key_column <- getitem df col ;;
  let keys := sorted value_leb (unique (filter notna key_column)) in
  Ok (map (fun key =>
             (key, {| columns := columns df;
                      rows := filter (fun r => value_eqb (cell r col) key)
                                     (rows df) |}))
          keys).

(** [series.isna() | (series == '')], per cell. *)
Definition is_empty (v : value) : bool :=
  match v with
  | VNone => true
  | VStr s => s =? ""
  | _ => false
  end.

(** *** [main] *)

(** What [data_dir.iterdir()] finds: plain files, and directories with the
    files [glob("*.json")] matches in them, as stem and parsed content. *)
Inductive entry : Type :=
| File (name : string)
| Dir (name : string) (json_files : dict string (option (list element))).

Definition entry_name (e : entry) : string :=
  match e with File name | Dir name _ => name end.

Definition priority_cols : list string :=
  [ "name"; "Collaborated"; "query_county"; "city"; "query_purpose";
    "person_with_relationship"; "org_contact"; "org_contact_title";
    "phone"; "email"; "contact:email"; "website" ].

Definition remaining_base_cols : list string :=
  [ "latitude"; "longitude"; "osm_id"; "osm_type" ].

Definition blank_cols : list string :=
  [ "Collaborated"; "city"; "person_with_relationship"; "org_contact";
    "org_contact_title" ].

(** The loops over county directories and their JSON files: the documents
    that are processed, in processing order. *)
Definition known_documents (data_dir : list entry)
  : list (string * string * option (list element)) :=
  flat_map
    (fun county_dir =>
       match county_dir with
       | File _ => []                                  (* not county_dir.is_dir() *)
       | Dir query_county json_files =>
           if has_key query_county COUNTIES then
             flat_map
               (fun json_file =>
                  let query_purpose := fst json_file in
                  if has_key query_purpose QUERIES
                  then [(query_county, query_purpose, snd json_file)]
                  else [])
               (sorted (fun f1 f2 => fst f1 ++ ".json" <=? fst f2 ++ ".json")
                       json_files)
           else []
       end)
    (sorted (fun e1 e2 => entry_name e1 <=? entry_name e2) data_dir).

Definition collect (data_dir : list entry) : list row :=
  flat_map (fun doc =>
              let '(query_county, query_purpose, document) := doc in
              process_json_file document query_purpose query_county)
           (known_documents data_dir).

(** The sort key [(x.startswith('addr:'), x)], compared as a tuple. *)
Definition col_key_leb (x y : string) : bool :=
  match String.prefix "addr:" x, String.prefix "addr:" y with
  | false, true => true
  | true, false => false
  | _, _ => x <=? y
  end.

Definition other_cols_of (df : DataFrame) : list string :=
  filter (fun col => negb (contains col (priority_cols ++ remaining_base_cols)))
         (columns df).

Definition col_order_of (df : DataFrame) : list string :=
  priority_cols ++ remaining_base_cols ++ sorted col_key_leb (other_cols_of df).

(** [csv_dir.mkdir(exist_ok=True)], seen from the listing of [data/]: it
    raises when the name is taken by something that is not a directory. *)
Definition mkdir_exist_ok (name : string) (data_dir : list entry) : result unit :=
  if existsb (fun e => match e with
                       | File file => file =? name
                       | Dir _ _ => false
                       end) data_dir
  then Raise (FileExistsError name)
  else Ok tt.

(** The file system under [data/csv/], as the writes of [main] meet it:
    whether it refuses the table written under a file stem, and why (a
    stem that names a directory which does not exist, a name or a text it
    cannot take, a full disk). *)
Class FileSystem : Type := {
  refuses : value -> DataFrame -> option string
}.

Section Main.
Context {fs : FileSystem}.

(** [df.to_csv(csv_dir / f"{purpose}.csv", index=False)]: the file is
    written, or the error of the file system is raised; [main] does not
    catch it. *)
Definition to_csv (purpose : value) (df : DataFrame) : result unit :=
  match refuses purpose df with
  | None => Ok tt
  | Some reason => Raise (OSError reason)
  end.

(** The body of the per-category loop; the table goes to
    [csv_dir / f"{purpose}.csv"]. *)
Definition write_group (col_order tag_columns : list string)
  (group : value * DataFrame) : result (value * DataFrame) :=
  let '(purpose, group_df) := group in
  group_df <- getitem_cols group_df col_order ;;
  group_df <- sort_values group_df ["query_county"; "osm_id"] ;;
  let columns_to_drop :=
    filter (fun col => contains col (columns group_df)
                       && forallb (fun r => is_empty (cell r col)) (rows group_df))
           tag_columns in
  let group_df :=
    match columns_to_drop with
    | [] => group_df
    | _ => drop group_df columns_to_drop
    end in
  written <- to_csv purpose group_df ;;
  Ok (purpose, group_df).

(** [main()], from the content of [data/] ([None]: no such directory) to
    the CSV tables written, each under the stem of its file name. *)
Definition main_with (CREATE_SEPARATE_CSV_FILES : bool)
  (data : option (list entry)) : result (list (value * DataFrame)) :=
  match data with
  | None => Ok []                         (* "data/ directory not found" *)
  | Some data_dir =>
      made <- mkdir_exist_ok "csv" data_dir ;;
      match collect data_dir with
      | [] => Ok []                       (* "No data to convert!" *)
      | all_data =>
          let df_all := pd_DataFrame all_data in
          religion <- getitem df_all "religion" ;;
          let religion_mask := invert (isin religion ["no"; "none"]) in
          let df_all := getitem_mask df_all religion_mask in
          let df_all := setitem df_all "Collaborated" (VStr "") in
          let df_all := setitem df_all "city" (VStr "") in
          let df_all := setitem df_all "person_with_relationship" (VStr "") in
          let df_all := setitem df_all "org_contact" (VStr "") in
          let df_all := setitem df_all "org_contact_title" (VStr "") in
          let other_cols := other_cols_of df_all in
          let col_order := col_order_of df_all in
          let tag_columns := other_cols in
          if CREATE_SEPARATE_CSV_FILES then
            purpose_groups <- groupby df_all "query_purpose" ;;
            for_each (write_group col_order tag_columns) purpose_groups
          else
            df_all <- getitem_cols df_all col_order ;;
            df_all <- sort_values df_all
                        ["query_county"; "query_purpose"; "osm_id"] ;;
            written <- to_csv (VStr "combined_data") df_all ;;
            Ok [(VStr "combined_data", df_all)]
      end
  end.

Definition main : option (list entry) -> result (list (value * DataFrame)) :=
  main_with true.

End Main.

End convert_to_csv.
Import query_osm convert_to_csv.

(** * Vocabulary of the specification *)

(** A key type whose [==] decides equality. *)
Class HashableSpec (K : Type) `{Hashable K} : Prop :=
  key_eqb_eq : forall a b : K, key_eqb a b = true <-> a = b.

(** The six fields [extract_element_data] writes before the tags. *)
Definition row_fields : list string :=
  [ "latitude"; "longitude"; "query_purpose"; "query_county";
    "osm_id"; "osm_type" ].

(** A tag key that starts with one of the noise prefixes. *)
Definition noise_key (key : string) : Prop :=
  exists p, In p noise_prefixes /\ String.prefix p key = true.

(** The test of one key in the loop of [should_include_element]. *)
Definition meaningful_test (key : string) : bool :=
  contains key meaningful_keys || negb (startswith key noise_prefixes).

(** What [extract_element_data] resolves for a fixed field before it
    writes the tags: the coordinates, where the record comes from, and
    what identifies it. *)
Definition resolved_value (element : convert_to_csv.element)
  (node_lookup : node_index)
  (query_purpose query_county key : string) : value :=
  if key =? "latitude"
  then of_float (fst (get_element_coordinates element node_lookup))
  else if key =? "longitude"
  then of_float (snd (get_element_coordinates element node_lookup))
  else if key =? "query_purpose" then VStr query_purpose
  else if key =? "query_county" then VStr query_county
  else if key =? "osm_id" then of_int (e_id element)
  else if key =? "osm_type" then of_str (e_type element)
  else VNone.

(** The record without its tags of this key. *)
Definition without_tag (key : string) (element : element)
  : convert_to_csv.element :=
  {| e_type := e_type element;
     e_id := e_id element;
     e_lat := e_lat element;
     e_lon := e_lon element;
     e_nodes := e_nodes element;
     e_tags := option_map (filter (fun kv => negb (fst kv =? key)))
                          (e_tags element) |}.

Definition mk_element ty id lat lon nodes tags : element :=
  {| e_type := ty; e_id := id; e_lat := lat; e_lon := lon;
     e_nodes := nodes; e_tags := tags |}.

(** ** Scenario records *)

(** A point at (1, 2) tagged [amenity=theatre]. *)
Definition theatre : element :=
  mk_element (Some "node") (Some 1%Z) (Some (1#1)%Q) (Some (2#1)%Q) None
             (Some [("amenity", "theatre")]).

(** A geometry-only neighbour at (3, 4), tagged only [source=survey]. *)
Definition survey_point : element :=
  mk_element (Some "node") (Some 2%Z) (Some (3#1)%Q) (Some (4#1)%Q) None
             (Some [("source", "survey")]).

(** An untagged way whose first node is [survey_point]. *)
Definition bare_way : element :=
  mk_element (Some "way") (Some 3%Z) None None (Some [2%Z]) None.

(** A point whose tags reuse two of the fixed row field names. *)
Definition shadowing_point : element :=
  mk_element (Some "node") (Some 9%Z) (Some (5#1)%Q) (Some (6#1)%Q) None
             (Some [("name", "Depot"); ("osm_id", "legacy-17");
                    ("latitude", "north")]).

(** The scenario document: the tagged point, the way and its neighbour. *)
Definition scenario_document : list element :=
  [ theatre; bare_way; survey_point ].

Definition scenario_row : row :=
  [ ("latitude", VFloat (1#1)); ("longitude", VFloat (2#1));
    ("query_purpose", VStr "parks"); ("query_county", VStr "A");
    ("osm_id", VInt 1); ("osm_type", VStr "node");
    ("amenity", VStr "theatre") ].

(** ** Retriever vocabulary *)

(** The [n]-th request is answered with this status. *)
Definition answered {J} (server : nat -> outcome J) (n : nat) (status : Z) : Prop :=
  exists r, server n = Responds r /\ status_code r = status.

(** A server error or a rate limit, as [query_overpass] tests it. *)
Definition retry_status (status : Z) : Prop :=
  (500 <= status \/ status = 429)%Z.

(** The status codes HTTP defines: three digits, classes 1xx to 5xx. *)
Definition http_status (status : Z) : Prop := (100 <= status <= 599)%Z.

(** The delays slept before attempt [k]: 1s, 2s, 4s, ... *)
Definition backoff (k : nat) : list Z :=
  map (fun attempt => (2 ^ Z.of_nat attempt)%Z) (seq 0 k).

(** Three 503 responses, then a 200 carrying [body]. *)
Definition flaky_server {J} (body : J) (n : nat) : outcome J :=
  if (n <? 3)%nat
  then Responds {| status_code := 503; json := None |}
  else Responds {| status_code := 200; json := Some body |}.

(** ** Tabulator vocabulary *)

(** The columns [main] never prunes. *)
Definition fixed_cols : list string := priority_cols ++ remaining_base_cols.

(** The religion filter, per row: not [isin(['no', 'none'])]. *)
Definition religion_ok (r : row) : bool :=
  negb (match cell r "religion" with
        | VStr s => contains s ["no"; "none"]
        | _ => false
        end).

(** The row belongs to the group of this key. *)
Definition in_category (key : value) (r : row) : bool :=
  value_eqb (cell r "query_purpose") key.

(** The rows of the corpus that reach the table of a category. *)
Definition members (key : value) (all_data : list row) : list row :=
  filter (fun r => religion_ok r && in_category key r) all_data.

(** What a table shows for a corpus row under a column: the five blank
    columns are empty, every other column shows the row's own cell. *)
Definition final_cell (r : row) (col : string) : value :=
  if contains col blank_cols then VStr "" else cell r col.

Definition table_row (cols : list string) (r : row) : row :=
  map (fun col => (col, final_cell r col)) cols.

(** The five assignments [df_all[col] = ''], on one row. *)
Definition blank (r : row) : row :=
  fold_left (fun r col => dset col (VStr "") r) blank_cols r.

(** The five assignments on the column index. *)
Definition blank_columns (cols : list string) : list string :=
  fold_left (fun cols col => if contains col cols then cols else cols ++ [col])
            blank_cols cols.

(** [main] up to the blank columns, on the collected rows. *)
Definition prepare (all_data : list row) : result DataFrame :=
  let df_all := pd_DataFrame all_data in
  religion <- getitem df_all "religion" ;;
  let religion_mask := invert (isin religion ["no"; "none"]) in
  let df_all := getitem_mask df_all religion_mask in
  let df_all := setitem df_all "Collaborated" (VStr "") in
  let df_all := setitem df_all "city" (VStr "") in
  let df_all := setitem df_all "person_with_relationship" (VStr "") in
  let df_all := setitem df_all "org_contact" (VStr "") in
  let df_all := setitem df_all "org_contact_title" (VStr "") in
  Ok df_all.

(** The table of one category, before it is written: the body of the
    per-category loop up to [to_csv]. *)
Definition group_table (col_order tag_columns : list string)
  (group : value * DataFrame) : result (value * DataFrame) :=
  let '(purpose, group_df) := group in
  group_df <- getitem_cols group_df col_order ;;
  group_df <- sort_values group_df ["query_county"; "osm_id"] ;;
  let columns_to_drop :=
    filter (fun col => contains col (columns group_df)
                       && forallb (fun r => is_empty (cell r col)) (rows group_df))
           tag_columns in
  let group_df :=
    match columns_to_drop with
    | [] => group_df
    | _ => drop group_df columns_to_drop
    end in
  Ok (purpose, group_df).

(** A file system that takes every write. *)
Definition writable : FileSystem := {| refuses := fun _ _ => None |}.

(** [data/csv] is a plain file, so the output directory cannot be made. *)
Definition csv_is_file (data_dir : list entry) : Prop := In (File "csv") data_dir.

(** The per-category branch of [main]. *)
Definition per_category {fs : FileSystem} (df_all : DataFrame)
  : result (list (value * DataFrame)) :=
  purpose_groups <- groupby df_all "query_purpose" ;;
  for_each (write_group (col_order_of df_all) (other_cols_of df_all))
           purpose_groups.

(** The tag columns of a corpus: the keys met in its rows, fixed columns
    apart; and the column order [main] computes from them. *)
Definition tag_cols (all_data : list row) : list string :=
  filter (fun col => negb (contains col fixed_cols))
         (columns (pd_DataFrame all_data)).

Definition corpus_col_order (all_data : list row) : list string :=
  fixed_cols ++ sorted col_key_leb (tag_cols all_data).

(** Some row of the corpus carries this key. *)
Definition corpus_has (all_data : list row) (col : string) : Prop :=
  exists r, In r all_data /\ In col (dkeys r).

(** The tag keys [main] reads or selects by name. *)
Definition required_tags : list string :=
  [ "religion"; "name"; "phone"; "email"; "contact:email"; "website" ].

(** The table of a category, as [main] lays it out from the collected
    rows: the column order without the tag columns that are empty in every
    row of the category, and the rows of the category on these columns. *)
Definition category_table (all_data : list row) (key : value) (t : DataFrame)
  : Prop :=
  columns t
  = filter (fun col =>
              negb (contains col (tag_cols all_data)
                    && forallb (fun r => is_empty (cell r col))
                               (members key all_data)))
           (corpus_col_order all_data) /\
  Permutation (rows t) (map (table_row (columns t)) (members key all_data)).

(** ** Scenario corpora *)

(** A temple carrying every tag the priority columns draw on, and a
    [denomination]. *)
Definition temple : element :=
  mk_element (Some "node") (Some 10%Z) (Some (37#1)%Q) (Some (-122#1)%Q) None
             (Some [ ("name", "Zen Center"); ("religion", "buddhist");
                     ("denomination", "zen"); ("phone", "555-0100");
                     ("email", "info@zen.example");
                     ("contact:email", "office@zen.example");
                     ("website", "https://zen.example") ]).

Definition bookshop : element :=
  mk_element (Some "node") (Some 20%Z) (Some (38#1)%Q) (Some (-121#1)%Q) None
             (Some [ ("name", "Pages"); ("shop", "books") ]).

(** One county with a religion document and a bookstores document. *)
Definition two_categories : list entry :=
  [ Dir "alameda" [ ("religion", Some [temple]);
                    ("bookstores", Some [bookshop]) ] ].

Definition bookstores_table : DataFrame :=
  {| columns := priority_cols ++ remaining_base_cols ++ ["shop"];
     rows := [ [ ("name", VStr "Pages"); ("Collaborated", VStr "");
                 ("query_county", VStr "alameda"); ("city", VStr "");
                 ("query_purpose", VStr "bookstores");
                 ("person_with_relationship", VStr "");
                 ("org_contact", VStr ""); ("org_contact_title", VStr "");
                 ("phone", VNone); ("email", VNone); ("contact:email", VNone);
                 ("website", VNone);
                 ("latitude", VFloat (38#1)); ("longitude", VFloat (-121#1));
                 ("osm_id", VInt 20); ("osm_type", VStr "node");
                 ("shop", VStr "books") ] ] |}.

Definition religion_table : DataFrame :=
  {| columns := priority_cols ++ remaining_base_cols
                ++ ["denomination"; "religion"];
     rows := [ [ ("name", VStr "Zen Center"); ("Collaborated", VStr "");
                 ("query_county", VStr "alameda"); ("city", VStr "");
                 ("query_purpose", VStr "religion");
                 ("person_with_relationship", VStr "");
                 ("org_contact", VStr ""); ("org_contact_title", VStr "");
                 ("phone", VStr "555-0100"); ("email", VStr "info@zen.example");
                 ("contact:email", VStr "office@zen.example");
                 ("website", VStr "https://zen.example");
                 ("latitude", VFloat (37#1)); ("longitude", VFloat (-122#1));
                 ("osm_id", VInt 10); ("osm_type", VStr "node");
                 ("denomination", VStr "zen");
                 ("religion", VStr "buddhist") ] ] |}.

(** A temple that also carries a [city] tag, alone in its corpus. *)
Definition city_temple : element :=
  mk_element (Some "node") (Some 10%Z) (Some (37#1)%Q) (Some (-122#1)%Q) None
             (Some [ ("name", "Zen Center"); ("religion", "buddhist");
                     ("city", "Oakland"); ("phone", "555-0100");
                     ("email", "info@zen.example");
                     ("contact:email", "office@zen.example");
                     ("website", "https://zen.example") ]).

Definition city_corpus : list entry :=
  [ Dir "alameda" [ ("religion", Some [city_temple]) ] ].

Definition city_table : DataFrame :=
  {| columns := priority_cols ++ remaining_base_cols ++ ["religion"];
     rows := [ [ ("name", VStr "Zen Center"); ("Collaborated", VStr "");
                 ("query_county", VStr "alameda"); ("city", VStr "");
                 ("query_purpose", VStr "religion");
                 ("person_with_relationship", VStr "");
                 ("org_contact", VStr ""); ("org_contact_title", VStr "");
                 ("phone", VStr "555-0100"); ("email", VStr "info@zen.example");
                 ("contact:email", VStr "office@zen.example");
                 ("website", VStr "https://zen.example");
                 ("latitude", VFloat (37#1)); ("longitude", VFloat (-122#1));
                 ("osm_id", VInt 10); ("osm_type", VStr "node");
                 ("religion", VStr "buddhist") ] ] |}.

(** The round trip as the specification words it: whenever tables are
    written, every tag of every included record (whose row passes the
    religion filter) is found, under its own key and with its own value,
    in some row of some table. *)
Definition tags_round_trip (data_dir : list entry) : Prop :=
  forall (fs : FileSystem) tables, main (Some data_dir) = Ok tables ->
  forall query_county query_purpose elements node_lookup e key v,
    In (query_county, query_purpose, Some elements) (known_documents data_dir) ->
    create_node_lookup elements = Ok node_lookup ->
    In e elements ->
    should_include_element e node_lookup = true ->
    religion_ok (extract_element_data e node_lookup query_purpose query_county)
    = true ->
    In (key, v) (tags_of e) ->
    exists p t r',
      In (p, t) tables /\ In key (columns t) /\ In r' (rows t) /\
      dget key r' = Some (VStr v).

(** A corpus in which no record has a [religion] tag. *)
Definition events_corpus : list entry :=
  [ Dir "alameda" [ ("events", Some [theatre]) ] ].

(** A temple like [temple], without the [contact:email] tag. *)
Definition plain_temple : element :=
  mk_element (Some "node") (Some 11%Z) (Some (37#1)%Q) (Some (-122#1)%Q) None
             (Some [ ("name", "Grace Chapel"); ("religion", "christian");
                     ("phone", "555-0101"); ("email", "hello@grace.example");
                     ("website", "https://grace.example") ]).

Definition plain_corpus : list entry :=
  [ Dir "alameda" [ ("religion", Some [plain_temple]) ] ].

(** ** More retriever vocabulary *)

(** The request ends in the [except] branch: [httpx.post] raised, or the
    answer was a 200 whose body [response.json()] could not parse. *)
Definition failed {J} (server : nat -> outcome J) (n : nat) : Prop :=
  server n = Fails \/
  exists r, server n = Responds r /\ status_code r = 200%Z /\ json r = None.

(** An outcome after which [query_overpass] would try again. *)
Definition retried {J} (server : nat -> outcome J) (n : nat) : Prop :=
  failed server n \/
  exists status, answered server n status /\ retry_status status.

(** Seconds slept in total. *)
Definition total_sleep (t : trace) : Z := fold_right Z.add 0%Z (sleeps t).

(** Two timeouts, a 502, a 200 with a truncated body, then a good 200. *)
Definition shaky_server {J} (body : J) (n : nat) : outcome J :=
  match n with
  | 0%nat | 1%nat => Fails
  | 2%nat => Responds {| status_code := 502; json := None |}
  | 3%nat => Responds {| status_code := 200; json := None |}
  | _ => Responds {| status_code := 200; json := Some body |}
  end.

(** ** Vocabulary for the retriever's [main] *)

(** One iteration of the nested loops: a county with its relation id, and
    a category with its tag expressions. *)
Definition task : Type := (string * string) * (string * list string).

Definition tasks : list task :=
  flat_map (fun county => map (fun query => (county, query)) QUERIES) COUNTIES.

(** The file of a task: [data/<county>/<category>.json]. *)
Definition task_file (t : task) : string * string := (fst (fst t), fst (snd t)).

Definition task_query (t : task) : string :=
  build_overpass_query (snd (fst t)) (snd (snd t)).

Definition run_task {J} (truthy : J -> bool) (elements_count : J -> result nat)
  (server : nat -> string -> outcome J) (w : world) (t : task)
  : world * result unit :=
  query_category truthy elements_count server (fst (fst t)) (snd (fst t)) w (snd t).

(** The tasks whose file does not exist yet. *)
Definition missing {J} (w : @world J) (ts : list task) : list task :=
  filter (fun t => negb (has_key (task_file t) (files w))) ts.

(** An nwr clause of a query. *)
Definition clause (tag : string) : string := "nwr[" ++ tag ++ "](area.searchArea);".

(** A service that answers every request with a 200 and the same body. *)
Definition steady_server {J} (body : J) (n : nat) (query : string) : outcome J :=
  Responds {| status_code := 200; json := Some body |}.

(** A service that is down. *)
Definition dead_server {J} (n : nat) (query : string) : outcome J := Fails.

Definition fresh_world {J} : @world J :=
  {| files := []; effort := {| requests := 0; sleeps := [] |} |}.

(** No pair occurs twice. *)
Fixpoint distinctb (l : list (string * string)) : bool :=
  match l with
  | [] => true
  | x :: rest => negb (contains x rest) && distinctb rest
  end.

(** The service answers every request with a 200 and a truthy body whose
    elements can be counted. *)
Definition healthy {J} (truthy : J -> bool) (elements_count : J -> result nat)
  (server : nat -> string -> outcome J) : Prop :=
  forall n query, exists body count,
    server n query = Responds {| status_code := 200; json := Some body |} /\
    truthy body = true /\
    elements_count body = Ok count.

(** An Overpass answer with these elements; the one without any. *)
Definition overpass_body (elements : list json_value) : json_value :=
  JObject [ ("version", JNumber (6#10)); ("elements", JArray elements) ].

Definition new_body : json_value := overpass_body [ JObject [("id", JNumber (1#1))] ].
Definition kept_body : json_value := overpass_body [].

(** The first iteration of the loops: the religion category of Alameda. *)
Definition first_task : task := List.hd (("", ""), ("", [])) tasks.

(** A state in which the bookstores of Alameda are already on disk. *)
Definition resumed_world : @world json_value :=
  {| files := [ (("alameda", "bookstores"), kept_body) ];
     effort := {| requests := 0; sleeps := [] |} |}.

(** ** More tabulator vocabulary *)

(** A node that carries both coordinates: what [create_node_lookup] indexes. *)
Definition coordinate_node (e : element) : Prop :=
  type_is e "node" = true /\ e_lat e <> None /\ e_lon e <> None.

(** The six fields as [extract_element_data] first writes them. *)
Definition base_row (element : element) (node_lookup : node_index)
  (query_purpose query_county : string) : row :=
  [ ("latitude", of_float (fst (get_element_coordinates element node_lookup)));
    ("longitude", of_float (snd (get_element_coordinates element node_lookup)));
    ("query_purpose", VStr query_purpose);
    ("query_county", VStr query_county);
    ("osm_id", of_int (e_id element));
    ("osm_type", of_str (e_type element)) ].

(** A church drawn as a way around two corner nodes, the second corner
    listed twice with different coordinates. *)
Definition corner_a : element :=
  mk_element (Some "node") (Some 101%Z) (Some (37#1)%Q) (Some (-122#1)%Q) None None.
Definition corner_b : element :=
  mk_element (Some "node") (Some 102%Z) (Some (38#1)%Q) (Some (-121#1)%Q) None None.
Definition corner_b_moved : element :=
  mk_element (Some "node") (Some 102%Z) (Some (39#1)%Q) (Some (-120#1)%Q) None None.
Definition church_way : element :=
  mk_element (Some "way") (Some 500%Z) None None (Some [101%Z; 102%Z])
             (Some [("building", "church"); ("name", "St. Mary")]).

(** A node with coordinates but no id. *)
Definition nameless_node : element :=
  mk_element (Some "node") None (Some (1#1)%Q) (Some (1#1)%Q) None None.

(** A way tagged with a noise key and with [amenity]. *)
Definition surveyed_cafe : element :=
  mk_element (Some "way") (Some 77%Z) None None (Some [2%Z])
             (Some [("source", "survey"); ("amenity", "cafe")]).

(** The priority columns that come from tags. *)
Definition tag_priority : list string :=
  [ "name"; "phone"; "email"; "contact:email"; "website" ].

(** The tag-derived priority columns no row of the corpus carries. *)
Definition absent_tags (all_data : list row) : list string :=
  filter (fun col => negb (contains col (columns (pd_DataFrame all_data))))
         tag_priority.

(** A corpus cluttered with a plain file, the output directory, an
    unknown county and an unknown category. *)
Definition cluttered : list entry :=
  [ File "README.md";
    Dir "csv" [ ("religion", Some [temple]) ];
    Dir "marin" [ ("religion", Some [temple]) ];
    Dir "alameda" [ ("parks", Some [theatre]); ("religion", Some [temple]) ] ].

(** A corpus whose only record is tagged [religion=no]. *)
Definition irreligious : element :=
  mk_element (Some "node") (Some 30%Z) (Some (37#1)%Q) (Some (-122#1)%Q) None
             (Some [ ("amenity", "place_of_worship"); ("religion", "no") ]).

Definition irreligious_corpus : list entry :=
  [ Dir "alameda" [ ("religion", Some [irreligious]) ] ].

(** A file system whose [data/csv/] takes no stem with a [/] in it. *)
Definition has_slash (s : string) : bool :=
  existsb (Ascii.eqb "/") (list_ascii_of_string s).

Definition flat_csv_dir : FileSystem :=
  {| refuses := fun purpose _ =>
                  match purpose with
                  | VStr stem => if has_slash stem then Some stem else None
                  | _ => None
                  end |}.

(** A temple like [temple], with a tag that reuses the field name
    [query_purpose] and holds a path. *)
Definition slash_temple : element :=
  mk_element (Some "node") (Some 12%Z) (Some (37#1)%Q) (Some (-122#1)%Q) None
             (Some [ ("name", "Zen Center"); ("religion", "buddhist");
                     ("phone", "555-0100"); ("email", "info@zen.example");
                     ("contact:email", "office@zen.example");
                     ("website", "https://zen.example");
                     ("query_purpose", "a/b") ]).

Definition slash_corpus : list entry :=
  [ Dir "alameda" [ ("religion", Some [slash_temple]) ] ].

(** The order [sort_values(by_)] sorts rows in. *)
Definition row_leb (by_ : list string) (r1 r2 : row) : bool :=
  keys_leb (map (cell r1) by_) (map (cell r2) by_).

(** The combined-file branch of [main]. *)
Definition combined {fs : FileSystem} (df_all : DataFrame)
  : result (list (value * DataFrame)) :=
  df_all <- getitem_cols df_all (col_order_of df_all) ;;
  df_all <- sort_values df_all ["query_county"; "query_purpose"; "osm_id"] ;;
  written <- to_csv (VStr "combined_data") df_all ;;
  Ok [(VStr "combined_data", df_all)].

(** * Properties *)

(** ** Facts about dicts *)

#[export] Instance string_hashable_spec : HashableSpec string.
Proof. exact String.eqb_eq. Qed.

#[export] Instance Z_hashable_spec : HashableSpec Z.
Proof. exact Z.eqb_eq. Qed.

Section DictFacts.
Context {K V : Type} `{HashableSpec K}.
Implicit Types (k : K) (v : V) (d : list (K * V)).

Lemma key_eqb_refl k : key_eqb k k = true.
Proof. now apply key_eqb_eq. Qed.

Lemma key_eqb_neq k k' : k <> k' -> key_eqb k k' = false.
Proof.
  intros Hne. destruct (key_eqb k k') eqn:E; [|reflexivity].
  apply key_eqb_eq in E. contradiction.
Qed.

Lemma key_eq_dec k k' : {k = k'} + {k <> k'}.
Proof.
  destruct (key_eqb k k') eqn:E.
  - left. now apply key_eqb_eq.
  - right. intros ->. rewrite key_eqb_refl in E. discriminate.
Qed.

Lemma contains_In k (xs : list K) : contains k xs = true <-> In k xs.
Proof.
  unfold contains. rewrite existsb_exists. split.
  - intros (x & Hx & E). apply key_eqb_eq in E. now subst.
  - intros Hk. exists k. split; [assumption | apply key_eqb_refl].
Qed.

Lemma contains_false k (xs : list K) : contains k xs = false <-> ~ In k xs.
Proof.
  rewrite <- contains_In. destruct (contains k xs); split; congruence.
Qed.

Lemma dget_dset_same k v d : dget k (dset k v d) = Some v.
Proof.
  induction d as [|[k' v'] d IH]; simpl.
  - now rewrite key_eqb_refl.
  - destruct (key_eqb k k') eqn:E; simpl; rewrite E; auto.
Qed.

Lemma dget_dset_other k k' v d : k <> k' -> dget k' (dset k v d) = dget k' d.
Proof.
  intros Hne. induction d as [|[k0 v0] d IH]; simpl.
  - rewrite key_eqb_neq; auto.
  - destruct (key_eqb k k0) eqn:E; simpl.
    + apply key_eqb_eq in E. subst k0.
      rewrite key_eqb_neq; auto.
    + now rewrite IH.
Qed.

Lemma dget_In k v d : dget k d = Some v -> In (k, v) d.
Proof.
  induction d as [|[k' v'] d IH]; simpl; [discriminate|].
  destruct (key_eqb k k') eqn:E.
  - apply key_eqb_eq in E. intros [= ->]. subst. now left.
  - intros Hd. right. auto.
Qed.

Lemma dget_None k d : dget k d = None <-> ~ In k (dkeys d).
Proof.
  induction d as [|[k' v'] d IH]; simpl.
  - tauto.
  - destruct (key_eqb k k') eqn:E.
    + apply key_eqb_eq in E. subst. split; [discriminate | tauto].
    + rewrite IH. split.
      * intros Hn [Heq | Hin]; [subst; rewrite key_eqb_refl in E; discriminate | tauto].
      * tauto.
Qed.

Lemma dget_Some_key k v d : dget k d = Some v -> In k (dkeys d).
Proof.
  intros Hd. destruct (in_dec key_eq_dec k (dkeys d)) as [|Hn]; [assumption|].
  apply dget_None in Hn. congruence.
Qed.

Lemma In_dget k v d : NoDup (dkeys d) -> In (k, v) d -> dget k d = Some v.
Proof.
  induction d as [|[k' v'] d IH]; simpl; [tauto|].
  intros Hnd [Heq | Hin].
  - injection Heq as -> ->. now rewrite key_eqb_refl.
  - inversion Hnd as [|? ? Hk Hd]; subst.
    rewrite key_eqb_neq; [auto|].
    intros ->. apply Hk. change (In k' (map fst d)).
    apply in_map_iff. now exists (k', v).
Qed.

Lemma dkeys_dset k v d :
  dkeys (dset k v d) = if contains k (dkeys d) then dkeys d else dkeys d ++ [k].
Proof.
  unfold contains, dkeys. induction d as [|[k' v'] d IH]; simpl; [reflexivity|].
  destruct (key_eqb k k'); simpl; [reflexivity|].
  rewrite IH. now destruct (existsb (key_eqb k) (map fst d)).
Qed.

Lemma NoDup_dset k v d : NoDup (dkeys d) -> NoDup (dkeys (dset k v d)).
Proof.
  intros Hnd. rewrite dkeys_dset.
  destruct (contains k (dkeys d)) eqn:E; [assumption|].
  apply contains_false in E.
  apply NoDup_app; [assumption | repeat constructor; simpl; tauto |].
  intros x Hx [<- | []]. contradiction.
Qed.

End DictFacts.

(** Membership in, and distinctness of, a list literal. *)
Ltac in_literal := simpl; tauto.
Ltac nodup_literal := simpl; repeat constructor; simpl; intuition discriminate.

Lemma blank_cols_fixed col : In col blank_cols -> In col fixed_cols.
Proof.
  intros Hb. unfold fixed_cols. apply in_or_app. left.
  simpl in Hb. simpl. intuition (subst; auto 20).
Qed.

(** ** The inclusion filter *)

Lemma any_meaningful_existsb keys :
  any_meaningful keys = existsb meaningful_test keys.
Proof.
  induction keys as [|key rest IH]; [reflexivity|].
  change (any_meaningful (key :: rest))
    with (if meaningful_test key then true else any_meaningful rest).
  change (existsb meaningful_test (key :: rest))
    with (meaningful_test key || existsb meaningful_test rest).
  rewrite IH. now destruct (meaningful_test key).
Qed.

Lemma should_include_element_existsb element node_lookup :
  should_include_element element node_lookup
  = existsb meaningful_test (dkeys (tags_of element)).
Proof.
  unfold should_include_element.
  destruct (tags_of element) as [|kv tags]; [reflexivity|].
  apply any_meaningful_existsb.
Qed.

Lemma startswith_noise key :
  startswith key noise_prefixes = true <-> noise_key key.
Proof.
  unfold startswith, noise_key. rewrite existsb_exists. reflexivity.
Qed.

Lemma meaningful_test_true key :
  meaningful_test key = true <-> In key meaningful_keys \/ ~ noise_key key.
Proof.
  unfold meaningful_test. rewrite orb_true_iff, contains_In, negb_true_iff.
  rewrite <- startswith_noise.
  destruct (startswith key noise_prefixes); intuition congruence.
Qed.

Lemma meaningful_test_false key :
  meaningful_test key = false <-> ~ In key meaningful_keys /\ noise_key key.
Proof.
  unfold meaningful_test. rewrite orb_false_iff, contains_false, negb_false_iff.
  now rewrite startswith_noise.
Qed.


(** C10. The decision of [should_include_element] ignores the node index,
    and two records with the same set of tag keys receive the same
    decision whatever their values, coordinates, ids or kinds. *)
Theorem should_include_element_keys_only :
  (forall element lookup1 lookup2,
      should_include_element element lookup1
      = should_include_element element lookup2) /\
  (forall element1 element2 lookup1 lookup2,
      (forall key, In key (dkeys (tags_of element1))
                   <-> In key (dkeys (tags_of element2))) ->
      should_include_element element1 lookup1
      = should_include_element element2 lookup2).
Proof.
  split.
  - intros. now rewrite !should_include_element_existsb.
  - intros e1 e2 l1 l2 Hkeys. rewrite !should_include_element_existsb.
    apply eq_true_iff_eq. rewrite !existsb_exists.
    split; intros (key & Hin & Ht); exists key; split; auto; now apply Hkeys.
Qed.


Lemma should_include_element_keys_only_witness :
  should_include_element theatre []
  = should_include_element
      (mk_element (Some "way") None None None None (Some [("amenity", "cafe")]))
      [(2%Z, ((3#1)%Q, (4#1)%Q))].
Proof.
  apply (proj2 should_include_element_keys_only).
  intros key. reflexivity.
Defined.

(** ** Coordinate resolution *)

(** C2. [get_element_coordinates]: a node yields its own lat and lon, each
    null when absent; a way yields the node-index entry of the first
    identifier of its node sequence, and null/null when the sequence is
    missing or empty or the lookup misses; any other kind yields
    null/null. *)
Theorem get_element_coordinates_spec element node_lookup :
  (e_type element = Some "node" ->
   get_element_coordinates element node_lookup
   = (e_lat element, e_lon element)) /\
  (e_type element = Some "way" ->
   (forall first others lat lon,
       e_nodes element = Some (first :: others) ->
       dget first node_lookup = Some (lat, lon) ->
       get_element_coordinates element node_lookup = (Some lat, Some lon)) /\
   (forall first others,
       e_nodes element = Some (first :: others) ->
       dget first node_lookup = None ->
       get_element_coordinates element node_lookup = (None, None)) /\
   (e_nodes element = Some [] \/ e_nodes element = None ->
    get_element_coordinates element node_lookup = (None, None))) /\
  (e_type element <> Some "node" -> e_type element <> Some "way" ->
   get_element_coordinates element node_lookup = (None, None)).
Proof.
  unfold get_element_coordinates, type_is. split; [|split].
  - intros ->. reflexivity.
  - intros ->. cbn. split; [|split].
    + intros first others lat lon -> Hget. now rewrite Hget.
    + intros first others -> Hget. now rewrite Hget.
    + intros [-> | ->]; reflexivity.
  - intros Hnode Hway. destruct (e_type element) as [ty|]; [|reflexivity].
    destruct (String.eqb_spec ty "node") as [-> | _]; [congruence|].
    destruct (String.eqb_spec ty "way") as [-> | _]; [congruence|].
    reflexivity.
Qed.

Lemma get_element_coordinates_spec_witness :
  get_element_coordinates bare_way [(2%Z, ((3#1)%Q, (4#1)%Q))]
  = (Some (3#1)%Q, Some (4#1)%Q).
Proof.
  apply (proj1 (proj1 (proj2 (get_element_coordinates_spec bare_way _))
                      eq_refl) 2%Z []); reflexivity.
Defined.

(** ** Row extraction *)

Lemma write_tags_other key (tags : dict string string) (data_row : row) :
  ~ In key (dkeys tags) ->
  dget key (fold_left write_tag tags data_row) = dget key data_row.
Proof.
  revert data_row. induction tags as [|[k v] tags IH]; intros data_row Hn.
  - reflexivity.
  - simpl in *. rewrite IH by tauto. unfold write_tag. simpl.
    apply dget_dset_other. intros ->. tauto.
Qed.

Lemma write_tags_tag key v (tags : dict string string) (data_row : row) :
  NoDup (dkeys tags) -> In (key, v) tags ->
  dget key (fold_left write_tag tags data_row) = Some (VStr v).
Proof.
  revert data_row. induction tags as [|[k0 v0] tags IH]; intros data_row Hnd Hin.
  - destruct Hin.
  - simpl in *. inversion Hnd as [|? ? Hk Hd]; subst.
    destruct Hin as [[= -> ->] | Hin].
    + rewrite write_tags_other by assumption. apply dget_dset_same.
    + now apply IH.
Qed.

Lemma write_tags_NoDup (tags : dict string string) (data_row : row) :
  NoDup (dkeys data_row) -> NoDup (dkeys (fold_left write_tag tags data_row)).
Proof.
  revert data_row. induction tags as [|[k v] tags IH]; intros data_row Hnd.
  - assumption.
  - simpl. apply IH. unfold write_tag. now apply NoDup_dset.
Qed.

Lemma extract_element_data_unfold element node_lookup query_purpose query_county :
  extract_element_data element node_lookup query_purpose query_county
  = fold_left write_tag (tags_of element)
      [ ("latitude", of_float (fst (get_element_coordinates element node_lookup)));
        ("longitude", of_float (snd (get_element_coordinates element node_lookup)));
        ("query_purpose", VStr query_purpose);
        ("query_county", VStr query_county);
        ("osm_id", of_int (e_id element));
        ("osm_type", of_str (e_type element)) ].
Proof.
  unfold extract_element_data.
  now destruct (get_element_coordinates element node_lookup).
Qed.

Lemma extract_element_data_NoDup element node_lookup query_purpose query_county :
  NoDup (dkeys (extract_element_data element node_lookup query_purpose query_county)).
Proof.
  rewrite extract_element_data_unfold. apply write_tags_NoDup.
  nodup_literal.
Qed.

Lemma write_tags_keys (tags : dict string string) : forall data_row : row,
  NoDup (dkeys tags) ->
  dkeys (fold_left write_tag tags data_row)
  = dkeys data_row
    ++ filter (fun key => negb (contains key (dkeys data_row))) (dkeys tags).
Proof.
  induction tags as [|[k v] tags IH]; intros data_row Hnd.
  - simpl. now rewrite app_nil_r.
  - inversion Hnd as [|? ? Hk Hnd']; subst.
    cbn [fold_left]. rewrite IH by assumption.
    unfold write_tag. cbn [fst snd]. rewrite dkeys_dset.
    cbn [dkeys map fst filter]. fold (dkeys tags).
    destruct (contains k (dkeys data_row)) eqn:E; cbn [negb].
    + reflexivity.
    + rewrite <- app_assoc. cbn [app]. do 2 f_equal.
      apply filter_ext_in. intros key Hkey. f_equal.
      apply eq_true_iff_eq. rewrite !contains_In, in_app_iff. simpl.
      split; [|tauto]. intros [? | [<- | []]]; [assumption | contradiction].
Qed.

Lemma tags_of_without_tag key element :
  tags_of (without_tag key element)
  = filter (fun kv => negb (fst kv =? key)) (tags_of element).
Proof.
  unfold tags_of, without_tag. cbn [e_tags].
  destruct (e_tags element); reflexivity.
Qed.

(** Tags of other keys write the same cell whether or not the tags of
    [key] are written. *)
Lemma write_tags_without key other (tags : dict string string) :
  other <> key ->
  forall plain_row data_row : row,
    dget other plain_row = dget other data_row ->
    dget other (fold_left write_tag
                  (filter (fun kv => negb (fst kv =? key)) tags) plain_row)
    = dget other (fold_left write_tag tags data_row).
Proof.
  intros Hne. induction tags as [|[k v] tags IH]; intros plain_row data_row Hsame.
  - exact Hsame.
  - cbn [filter fold_left fst]. destruct (String.eqb_spec k key) as [-> | Hk];
      cbn [negb fold_left].
    + apply IH. unfold write_tag. cbn [fst snd].
      rewrite dget_dset_other by congruence. exact Hsame.
    + apply IH. unfold write_tag. cbn [fst snd].
      destruct (String.eqb_spec k other) as [-> | Hother].
      * now rewrite !dget_dset_same.
      * now rewrite !dget_dset_other by assumption.
Qed.

(** C9. A tag whose key is one of the six fixed row fields takes the
    field over.  Without that tag the row of [extract_element_data] holds
    the resolved value under the key: the coordinate, the provenance or
    the identifier.  With it, the row holds the tag's value there, and
    nothing else: the tags are written after the fixed fields.  The tag
    overwrites in place: the six fields still head the row, and every
    other cell is as it is without the tag. *)
Theorem extract_element_data_tag_shadows_field
  element node_lookup query_purpose query_county key v :
  In key row_fields ->
  NoDup (dkeys (tags_of element)) ->
  In (key, v) (tags_of element) ->
  let data_row :=
    extract_element_data element node_lookup query_purpose query_county in
  let plain_row :=
    extract_element_data (without_tag key element) node_lookup
                         query_purpose query_county in
  dget key plain_row
  = Some (resolved_value element node_lookup query_purpose query_county key) /\
  dget key data_row = Some (VStr v) /\
  (forall x, In (key, x) data_row -> x = VStr v) /\
  firstn 6 (dkeys data_row) = row_fields /\
  (forall other, other <> key -> dget other data_row = dget other plain_row).
Proof.
  intros Hfield Hnd Hin data_row plain_row.
  assert (Hget : dget key data_row = Some (VStr v)).
  { subst data_row. rewrite extract_element_data_unfold.
    now apply write_tags_tag. }
  split; [|split; [assumption|split; [|split]]].
  - subst plain_row. rewrite extract_element_data_unfold.
    rewrite write_tags_other.
    2:{ rewrite tags_of_without_tag. unfold dkeys. intros Hk.
        apply in_map_iff in Hk. destruct Hk as ([k x] & Hk & Hkx).
        apply filter_In in Hkx. destruct Hkx as [_ Hkx].
        cbn [fst] in Hk, Hkx. subst k. now rewrite String.eqb_refl in Hkx. }
    change (get_element_coordinates (without_tag key element) node_lookup)
      with (get_element_coordinates element node_lookup).
    cbn [e_id e_type without_tag].
    unfold row_fields in Hfield. cbn [In] in Hfield.
    destruct Hfield as [<- | [<- | [<- | [<- | [<- | [<- | []]]]]]]; reflexivity.
  - intros x Hx. apply In_dget in Hx.
    + congruence.
    + apply extract_element_data_NoDup.
  - subst data_row. rewrite extract_element_data_unfold.
    rewrite write_tags_keys by assumption. reflexivity.
  - intros other Hother. subst data_row plain_row.
    rewrite !extract_element_data_unfold, tags_of_without_tag.
    change (get_element_coordinates (without_tag key element) node_lookup)
      with (get_element_coordinates element node_lookup).
    cbn [e_id e_type without_tag].
    symmetry. now apply write_tags_without.
Qed.

Lemma extract_element_data_tag_shadows_field_witness :
  dget "osm_id"
       (extract_element_data (without_tag "osm_id" shadowing_point) []
                             "events" "alameda")
  = Some (VInt 9) /\
  dget "osm_id" (extract_element_data shadowing_point [] "events" "alameda")
  = Some (VStr "legacy-17").
Proof.
  destruct (extract_element_data_tag_shadows_field
              shadowing_point [] "events" "alameda" "osm_id" "legacy-17")
    as (Hplain & Htagged & _).
  - in_literal.
  - nodup_literal.
  - in_literal.
  - split; [exact Hplain | exact Htagged].
Defined.

(** ** The node index and the rows of one document *)

Lemma create_node_lookup_from_sound elements : forall lookup lookup',
  create_node_lookup_from lookup elements = Ok lookup' ->
  forall id c, dget id lookup' = Some c ->
    dget id lookup = Some c \/
    exists e, In e elements /\ type_is e "node" = true /\ e_id e = Some id /\
              e_lat e = Some (fst c) /\ e_lon e = Some (snd c).
Proof.
  induction elements as [|e rest IH]; intros lookup lookup' Hrun id c Hget.
  - injection Hrun as <-. now left.
  - simpl in Hrun.
    destruct (type_is e "node") eqn:Hty;
      [destruct (e_lat e) as [lat|] eqn:Hlat;
       [destruct (e_lon e) as [lon|] eqn:Hlon;
        [destruct (e_id e) as [i|] eqn:Hid; [|discriminate]|]|]|].
    2-4: destruct (IH _ _ Hrun _ _ Hget) as [? | (e' & ? & ?)];
         [now left | right; exists e'; simpl; tauto].
    destruct (IH _ _ Hrun _ _ Hget) as [Hold | (e' & ? & ?)];
      [|right; exists e'; simpl; tauto].
    destruct (Z.eq_dec i id) as [-> | Hne].
    + rewrite dget_dset_same in Hold. injection Hold as <-.
      right. exists e. simpl. tauto.
    + rewrite dget_dset_other in Hold by assumption. now left.
Qed.

Lemma create_node_lookup_from_keeps elements : forall lookup lookup',
  create_node_lookup_from lookup elements = Ok lookup' ->
  forall id, dget id lookup <> None -> dget id lookup' <> None.
Proof.
  induction elements as [|e rest IH]; intros lookup lookup' Hrun id Hget.
  - now injection Hrun as <-.
  - simpl in Hrun.
    destruct (type_is e "node"), (e_lat e), (e_lon e); eauto.
    destruct (e_id e) as [i|]; [|discriminate].
    apply (IH _ _ Hrun). destruct (Z.eq_dec i id) as [-> | Hne].
    + now rewrite dget_dset_same.
    + now rewrite dget_dset_other.
Qed.

Lemma create_node_lookup_from_complete elements : forall lookup lookup',
  create_node_lookup_from lookup elements = Ok lookup' ->
  forall e, In e elements -> type_is e "node" = true ->
            e_lat e <> None -> e_lon e <> None ->
    exists id, e_id e = Some id /\ dget id lookup' <> None.
Proof.
  induction elements as [|e0 rest IH]; intros lookup lookup' Hrun e Hin Hty Hlat Hlon.
  - destruct Hin.
  - simpl in Hrun. destruct Hin as [-> | Hin].
    + rewrite Hty in Hrun.
      destruct (e_lat e) as [lat|]; [|congruence].
      destruct (e_lon e) as [lon|]; [|congruence].
      destruct (e_id e) as [i|]; [|discriminate].
      exists i. split; [reflexivity|].
      apply (create_node_lookup_from_keeps _ _ _ Hrun).
      now rewrite dget_dset_same.
    + destruct (type_is e0 "node"), (e_lat e0), (e_lon e0); eauto.
      destruct (e_id e0); [eauto | discriminate].
Qed.

Lemma create_node_lookup_from_total elements : forall lookup,
  (forall e, In e elements -> e_id e <> None) ->
  exists lookup', create_node_lookup_from lookup elements = Ok lookup'.
Proof.
  induction elements as [|e rest IH]; intros lookup Hids; simpl.
  - eauto.
  - assert (Hrest : forall e', In e' rest -> e_id e' <> None)
      by (intros; apply Hids; now right).
    destruct (type_is e "node"), (e_lat e), (e_lon e); auto.
    destruct (e_id e) eqn:Hid; [auto|].
    exfalso. apply (Hids e); [now left | assumption].
Qed.

Lemma process_json_file_rows document query_purpose query_county r :
  In r (process_json_file document query_purpose query_county) <->
  exists elements node_lookup e,
    document = Some elements /\
    create_node_lookup elements = Ok node_lookup /\
    In e elements /\
    should_include_element e node_lookup = true /\
    r = extract_element_data e node_lookup query_purpose query_county.
Proof.
  unfold process_json_file. split.
  - destruct document as [elements|]; [|intros []].
    destruct (create_node_lookup elements) as [node_lookup|] eqn:Hrun;
      [|intros []].
    rewrite in_map_iff. intros (e & <- & Hin). apply filter_In in Hin.
    exists elements, node_lookup, e. destruct Hin. repeat split; auto.
  - intros (elements & node_lookup & e & -> & -> & Hin & Hinc & ->).
    apply in_map_iff. exists e. split; [reflexivity|].
    apply filter_In. tauto.
Qed.

(** C8. A row is emitted only for a record [should_include_element]
    accepts (so never for a record without tags), while the node index
    holds every node that carries coordinates, whatever its tags.  In the
    scenario only the tagged point yields a row, with latitude 1,
    longitude 2 and type node, and the geometry-only neighbour is in the
    index at (3, 4). *)
Theorem process_json_file_only_meaningful :
  (forall document query_purpose query_county r,
      In r (process_json_file document query_purpose query_county) ->
      exists elements node_lookup e,
        document = Some elements /\
        create_node_lookup elements = Ok node_lookup /\
        In e elements /\
        should_include_element e node_lookup = true /\
        tags_of e <> [] /\
        r = extract_element_data e node_lookup query_purpose query_county) /\
  (forall elements,
      (forall e, In e elements -> e_id e <> None) ->
      exists node_lookup, create_node_lookup elements = Ok node_lookup) /\
  (forall elements node_lookup e lat lon,
      create_node_lookup elements = Ok node_lookup ->
      In e elements ->
      type_is e "node" = true -> e_lat e = Some lat -> e_lon e = Some lon ->
      exists id,
        e_id e = Some id /\
        In id (dkeys node_lookup) /\
        ((forall e', In e' elements -> e_id e' = Some id -> e' = e) ->
         dget id node_lookup = Some (lat, lon))) /\
  process_json_file (Some scenario_document) "parks" "A" = [scenario_row] /\
  process_json_file (Some [theatre]) "parks" "A"
    ++ process_json_file (Some [bare_way; survey_point]) "parks" "A"
  = [scenario_row] /\
  (exists node_lookup,
      create_node_lookup scenario_document = Ok node_lookup /\
      should_include_element survey_point node_lookup = false /\
      dget 2%Z node_lookup = Some ((3#1)%Q, (4#1)%Q)).
Proof.
  split; [|split; [|split; [|split; [|split]]]].
  - intros document query_purpose query_county r Hr.
    apply process_json_file_rows in Hr.
    destruct Hr as (elements & node_lookup & e & ? & ? & ? & Hinc & ?).
    exists elements, node_lookup, e. repeat (split; [assumption|]).
    split; [|assumption].
    intros Hempty. unfold should_include_element in Hinc.
    rewrite Hempty in Hinc. discriminate.
  - intros elements Hids. now apply create_node_lookup_from_total.
  - intros elements node_lookup e lat lon Hrun Hin Hty Hlat Hlon.
    destruct (create_node_lookup_from_complete _ _ _ Hrun e Hin Hty)
      as (id & Hid & Hbound); [congruence | congruence |].
    exists id. split; [assumption|]. split.
    + destruct (dget id node_lookup) as [c|] eqn:Hget; [|congruence].
      now apply dget_Some_key in Hget.
    + intros Huniq.
      destruct (dget id node_lookup) as [c|] eqn:Hget; [|congruence].
      destruct (create_node_lookup_from_sound _ _ _ Hrun _ _ Hget)
        as [Hnil | (e' & Hin' & _ & Hid' & Hlat' & Hlon')]; [discriminate|].
      apply Huniq in Hid'; [|assumption]. subst e'.
      destruct c as [clat clon]. simpl in *. congruence.
  - reflexivity.
  - reflexivity.
  - eexists. split; [reflexivity|]. split; reflexivity.
Qed.

Lemma process_json_file_only_meaningful_witness :
  exists id,
    e_id survey_point = Some id /\
    In id (dkeys [(1%Z, ((1#1)%Q, (2#1)%Q)); (2%Z, ((3#1)%Q, (4#1)%Q))]) /\
    ((forall e', In e' scenario_document -> e_id e' = Some id -> e' = survey_point) ->
     dget id [(1%Z, ((1#1)%Q, (2#1)%Q)); (2%Z, ((3#1)%Q, (4#1)%Q))]
     = Some ((3#1)%Q, (4#1)%Q)).
Proof.
  apply (proj1 (proj2 (proj2 process_json_file_only_meaningful))
           scenario_document _ survey_point (3#1)%Q (4#1)%Q);
    try reflexivity.
  simpl. tauto.
Defined.

(** ** The retriever *)

Section RetrieverFacts.
Context {J : Type} (server : nat -> outcome J) (max_retries : nat).

Lemma attempts_retry attempt rest t status :
  answered server attempt status -> retry_status status ->
  attempts server max_retries (attempt :: rest) t
  = attempts server max_retries rest
      (sleep (2 ^ Z.of_nat attempt) (request t)).
Proof.
  intros (r & Hr & <-) Hretry. simpl. rewrite Hr.
  destruct (Z.eqb_spec (status_code r) 200) as [E | _].
  - unfold retry_status in Hretry. lia.
  - replace ((500 <=? status_code r)%Z || (status_code r =? 429)%Z) with true;
      [reflexivity|].
    symmetry. apply orb_true_iff. unfold retry_status in Hretry.
    rewrite Z.leb_le, Z.eqb_eq. lia.
Qed.

(** Running through [k] retryable answers costs [k] requests and the
    sleeps 2^first, 2^(first+1), ... *)
Lemma attempts_retry_prefix k : forall first n t,
  (forall i, (first <= i < first + k)%nat ->
             exists status, answered server i status /\ retry_status status) ->
  attempts server max_retries (seq first (k + n)) t
  = attempts server max_retries (seq (first + k) n)
      {| requests := requests t + k;
         sleeps := sleeps t
                   ++ map (fun attempt => (2 ^ Z.of_nat attempt)%Z) (seq first k) |}.
Proof.
  induction k as [|k IH]; intros first n t Hpre.
  - simpl. rewrite !Nat.add_0_r, app_nil_r. now destruct t.
  - destruct (Hpre first) as (status & Hans & Hretry); [lia|].
    change (seq first (S k + n)) with (first :: seq (S first) (k + n)).
    rewrite (attempts_retry _ _ _ _ Hans Hretry).
    rewrite IH by (intros i Hi; apply Hpre; lia).
    f_equal; [f_equal; lia|].
    unfold sleep, request. simpl. f_equal; [lia|].
    now rewrite <- app_assoc.
Qed.

Lemma attempts_requests_bound todo : forall t,
  (requests (snd (attempts server max_retries todo t))
   <= requests t + List.length todo)%nat.
Proof.
  induction todo as [|attempt rest IH]; intros t; simpl; [lia|].
  assert (Hstep : forall delay,
             (requests (snd (attempts server max_retries rest
                                      (sleep delay (request t))))
              <= requests t + S (List.length rest))%nat).
  { intros delay. etransitivity; [apply IH|]. simpl. lia. }
  destruct (server attempt) as [r|].
  - destruct (status_code r =? 200)%Z.
    + destruct (json r); simpl; [lia|].
      destruct (0 <? _)%Z; [apply Hstep | simpl; lia].
    + destruct (_ || _); [apply Hstep | simpl; lia].
  - destruct (0 <? _)%Z; [apply Hstep | simpl; lia].
Qed.

End RetrieverFacts.

(** C7. [query_overpass] retries a 5xx or 429 answer after sleeping
    2^attempt seconds (its test is [status >= 500 or status == 429], which
    on HTTP status codes is 5xx or 429), makes at most 5 attempts, gives up
    at once on any other non-200 status, returns [None] when the retries
    are exhausted or the error is not retryable, and after three 503
    answers and a 200 returns the 200 body having slept exactly 1s, 2s
    and 4s. *)
Theorem query_overpass_retry_policy {J} (server : nat -> outcome J) :
  (* among HTTP status codes, the retried ones are 5xx and 429 *)
  (forall status, http_status status ->
      (retry_status status <-> (500 <= status <= 599)%Z \/ status = 429%Z)) /\
  (* a 200 after k retryable answers *)
  (forall k body,
      (k < 5)%nat ->
      (forall i, (i < k)%nat ->
                 exists status, answered server i status /\ retry_status status) ->
      server k = Responds {| status_code := 200; json := Some body |} ->
      query_overpass server
      = (Some body, {| requests := S k; sleeps := backoff k |})) /\
  (* any other status after k retryable answers *)
  (forall k status,
      (k < 5)%nat ->
      (forall i, (i < k)%nat ->
                 exists status, answered server i status /\ retry_status status) ->
      answered server k status ->
      status <> 200%Z -> ~ retry_status status ->
      query_overpass server
      = (None, {| requests := S k; sleeps := backoff k |})) /\
  (* retries exhausted *)
  ((forall i, (i < 5)%nat ->
              exists status, answered server i status /\ retry_status status) ->
   query_overpass server
   = (None, {| requests := 5; sleeps := [1; 2; 4; 8; 16]%Z |})) /\
  (* never more than five requests *)
  (requests (snd (query_overpass server)) <= 5)%nat /\
  (* the scenario *)
  (forall body,
      answered server 0 503 -> answered server 1 503 -> answered server 2 503 ->
      server 3%nat = Responds {| status_code := 200; json := Some body |} ->
      query_overpass server
      = (Some body, {| requests := 4; sleeps := [1; 2; 4]%Z |})).
Proof.
  assert (Hprefix : forall k, (k < 5)%nat ->
            (forall i, (i < k)%nat ->
                       exists status, answered server i status /\ retry_status status) ->
            query_overpass server
            = attempts server 5 (seq k (5 - k))
                {| requests := k; sleeps := backoff k |}).
  { intros k Hk Hpre. unfold query_overpass, query_overpass_with.
    replace 5%nat with (k + (5 - k))%nat at 2 by lia.
    rewrite attempts_retry_prefix by (intros i Hi; apply Hpre; lia).
    reflexivity. }
  assert (Hsuccess : forall k body,
      (k < 5)%nat ->
      (forall i, (i < k)%nat ->
                 exists status, answered server i status /\ retry_status status) ->
      server k = Responds {| status_code := 200; json := Some body |} ->
      query_overpass server
      = (Some body, {| requests := S k; sleeps := backoff k |})).
  { intros k body Hk Hpre Hk200. rewrite (Hprefix k Hk Hpre).
    replace (5 - k)%nat with (S (4 - k)) by lia.
    simpl. rewrite Hk200. reflexivity. }
  split; [unfold http_status, retry_status; intros; lia|].
  split; [exact Hsuccess|]. split; [|split; [|split]].
  - intros k status Hk Hpre (r & Hr & <-) Hne Hnot.
    rewrite (Hprefix k Hk Hpre).
    replace (5 - k)%nat with (S (4 - k)) by lia.
    simpl. rewrite Hr.
    destruct (Z.eqb_spec (status_code r) 200) as [E | _]; [contradiction|].
    replace ((500 <=? status_code r)%Z || (status_code r =? 429)%Z) with false;
      [reflexivity|].
    symmetry. apply orb_false_iff. rewrite Z.leb_gt, Z.eqb_neq.
    unfold retry_status in Hnot. lia.
  - intros Hall. unfold query_overpass, query_overpass_with.
    rewrite (attempts_retry_prefix server 5 5 0 0) by (intros i Hi; apply Hall; lia).
    reflexivity.
  - unfold query_overpass, query_overpass_with.
    etransitivity; [apply attempts_requests_bound|]. simpl. lia.
  - intros body H0 H1 H2 H3. apply (Hsuccess 3%nat body); [lia| |assumption].
    intros i Hi. exists 503%Z. split; [|unfold retry_status; lia].
    destruct i as [|[|[|i]]]; [assumption..|lia].
Qed.

Lemma query_overpass_retry_policy_witness :
  query_overpass (flaky_server "ok")
  = (Some "ok", {| requests := 4; sleeps := [1; 2; 4]%Z |}).
Proof.
  apply (proj2 (proj2 (proj2 (proj2 (proj2
           (query_overpass_retry_policy (flaky_server "ok")))))) "ok").
  - exists {| status_code := 503; json := None |}. split; reflexivity.
  - exists {| status_code := 503; json := None |}. split; reflexivity.
  - exists {| status_code := 503; json := None |}. split; reflexivity.
  - reflexivity.
Defined.

(** ** Facts about [sorted] *)

Section SortedFacts.
Context {A : Type} (leb : A -> A -> bool).

Lemma insert_sorted_perm x l : Permutation (insert_sorted leb x l) (x :: l).
Proof.
  induction l as [|y l IH]; simpl; [reflexivity|].
  destruct (leb x y); [reflexivity|].
  rewrite IH. apply perm_swap.
Qed.

Lemma sorted_perm l : Permutation (sorted leb l) l.
Proof.
  induction l as [|x l IH]; simpl; [reflexivity|].
  rewrite insert_sorted_perm. now constructor.
Qed.

Lemma sorted_In x l : In x (sorted leb l) <-> In x l.
Proof.
  split; apply Permutation_in; [|symmetry]; apply sorted_perm.
Qed.

Hypothesis leb_total : forall a b, leb a b = true \/ leb b a = true.
Hypothesis leb_trans : forall a b c, leb a b = true -> leb b c = true -> leb a c = true.

Lemma insert_sorted_sorted x l :
  StronglySorted (fun a b => leb a b = true) l ->
  StronglySorted (fun a b => leb a b = true) (insert_sorted leb x l).
Proof.
  induction 1 as [|y l Hl IH Hy]; simpl.
  - repeat constructor.
  - destruct (leb x y) eqn:E.
    + constructor; [now constructor|].
      constructor; [assumption|].
      rewrite Forall_forall in *. eauto.
    + constructor; [assumption|].
      rewrite Forall_forall in *. intros z Hz.
      apply (Permutation_in _ (insert_sorted_perm x l)) in Hz.
      destruct Hz as [<- | Hz]; [|auto].
      destruct (leb_total x y); congruence.
Qed.

Lemma sorted_sorted l : StronglySorted (fun a b => leb a b = true) (sorted leb l).
Proof.
  induction l as [|x l IH]; simpl; [constructor|].
  now apply insert_sorted_sorted.
Qed.

End SortedFacts.

(** ** Facts about cells, rows and frames *)

Lemma dget_reindex cols r col :
  dget col (reindex cols r)
  = if contains col cols then Some (cell r col) else None.
Proof.
  unfold reindex, contains. induction cols as [|c cols IH]; simpl; [reflexivity|].
  destruct (key_eqb col c) eqn:E; simpl; [|assumption].
  apply key_eqb_eq in E. now subst.
Qed.

Lemma cell_reindex cols r col :
  cell (reindex cols r) col = if contains col cols then cell r col else VNone.
Proof.
  unfold cell at 1. rewrite dget_reindex. now destruct (contains col cols).
Qed.

Lemma cell_dset col v r col' :
  cell (dset col v r) col' = if key_eqb col col' then v else cell r col'.
Proof.
  unfold cell. destruct (key_eqb col col') eqn:E.
  - apply key_eqb_eq in E. subst. now rewrite dget_dset_same.
  - rewrite dget_dset_other; [reflexivity|].
    intros ->. rewrite key_eqb_refl in E. discriminate.
Qed.

Lemma cell_absent r col : ~ In col (dkeys r) -> cell r col = VNone.
Proof.
  intros Hn. unfold cell. apply dget_None in Hn. now rewrite Hn.
Qed.

Lemma cell_blank r col :
  cell (blank r) col = if contains col blank_cols then VStr "" else cell r col.
Proof.
  unfold blank, blank_cols, contains. simpl fold_left.
  rewrite !cell_dset. simpl existsb.
  rewrite !(String.eqb_sym col).
  unfold key_eqb, string_hashable.
  repeat match goal with
         | |- context [String.eqb ?a col] => destruct (String.eqb a col)
         end; reflexivity.
Qed.

Lemma reindex_ext cols r1 r2 :
  (forall col, In col cols -> cell r1 col = cell r2 col) ->
  reindex cols r1 = reindex cols r2.
Proof.
  intros Hext. unfold reindex. apply map_ext_in.
  intros col Hin. now rewrite Hext.
Qed.

Lemma add_keys_In seen r col :
  In col (add_keys seen r) <-> In col seen \/ In col (dkeys r).
Proof.
  unfold add_keys. generalize (dkeys r) as keys. intros keys. revert seen.
  induction keys as [|key keys IH]; intros seen; simpl; [tauto|].
  rewrite IH. destruct (contains key seen) eqn:E.
  - apply contains_In in E. intuition (subst; auto).
  - rewrite in_app_iff. simpl. intuition (subst; auto).
Qed.

Lemma pd_DataFrame_columns data col :
  In col (columns (pd_DataFrame data)) <-> exists r, In r data /\ In col (dkeys r).
Proof.
  unfold pd_DataFrame. simpl.
  assert (Hgen : forall seen,
             In col (fold_left add_keys data seen)
             <-> In col seen \/ exists r, In r data /\ In col (dkeys r)).
  { induction data as [|r data IH]; intros seen; simpl.
    - split; [tauto|]. intros [? | (r & [] & _)]. assumption.
    - rewrite IH, add_keys_In. split.
      + intros [[? | ?] | (r' & ? & ?)]; eauto 6.
      + intros [? | (r' & [<- | ?] & ?)]; eauto 6. }
  rewrite Hgen. simpl. split; [intros [[] | ?]; assumption | auto].
Qed.

Lemma mask_rows_filter (f : value -> bool) col rs :
  mask_rows (map f (map (fun r => cell r col) rs)) rs
  = filter (fun r => f (cell r col)) rs.
Proof.
  induction rs as [|r rs IH]; simpl; [reflexivity|].
  rewrite IH. reflexivity.
Qed.

Lemma filter_map_comm {A B} (f : B -> bool) (g : A -> B) l :
  filter f (map g l) = map g (filter (fun x => f (g x)) l).
Proof.
  induction l as [|x l IH]; simpl; [reflexivity|].
  rewrite IH. now destruct (f (g x)).
Qed.

(** ** [main], step by step *)

Lemma main_unfold {fs : FileSystem} data_dir :
  main (Some data_dir)
  = (made <- mkdir_exist_ok "csv" data_dir ;;
     match collect data_dir with
     | [] => Ok []
     | all_data => df_all <- prepare all_data ;; per_category df_all
     end).
Proof.
  unfold main, main_with.
  destruct (mkdir_exist_ok "csv" data_dir); [cbn [bind]|reflexivity].
  destruct (collect data_dir) as [|r rs]; [reflexivity|].
  unfold prepare. destruct (getitem (pd_DataFrame (r :: rs)) "religion"); reflexivity.
Qed.

Lemma mkdir_exist_ok_spec data_dir :
  (csv_is_file data_dir /\
   mkdir_exist_ok "csv" data_dir = Raise (FileExistsError "csv")) \/
  (~ csv_is_file data_dir /\ mkdir_exist_ok "csv" data_dir = Ok tt).
Proof.
  unfold mkdir_exist_ok, csv_is_file.
  destruct (existsb _ data_dir) eqn:E.
  - left. split; [|reflexivity]. apply existsb_exists in E.
    destruct E as ([name | name files] & Hin & Hname); [|discriminate].
    apply String.eqb_eq in Hname. now subst.
  - right. split; [|reflexivity]. intros Hin.
    assert (Hex : existsb (fun e => match e with
                                    | File file => file =? "csv"
                                    | Dir _ _ => false
                                    end) data_dir = true).
    { apply existsb_exists. exists (File "csv"). split; [assumption|].
      reflexivity. }
    congruence.
Qed.

(** A run that completes made its output directory and went through the
    data. *)
Lemma main_completed {fs : FileSystem} data_dir tables :
  main (Some data_dir) = Ok tables ->
  ~ csv_is_file data_dir /\
  match collect data_dir with
  | [] => Ok []
  | all_data => df_all <- prepare all_data ;; per_category df_all
  end = Ok tables.
Proof.
  rewrite main_unfold.
  destruct (mkdir_exist_ok_spec data_dir) as [[_ ->] | [Hfree ->]];
    [discriminate|].
  cbn [bind]. auto.
Qed.

(** With the output directory in place, [main] is the run through the
    data. *)
Lemma main_started {fs : FileSystem} data_dir :
  ~ csv_is_file data_dir ->
  main (Some data_dir)
  = match collect data_dir with
    | [] => Ok []
    | all_data => df_all <- prepare all_data ;; per_category df_all
    end.
Proof.
  intros Hfree. rewrite main_unfold.
  destruct (mkdir_exist_ok_spec data_dir) as [[Hfile _] | [_ ->]];
    [contradiction | reflexivity].
Qed.

Lemma religion_ok_reindex cols r :
  In "religion" cols -> religion_ok (reindex cols r) = religion_ok r.
Proof.
  intros Hin. unfold religion_ok. rewrite cell_reindex.
  apply contains_In in Hin. now rewrite Hin.
Qed.

Lemma religion_mask_rows rs :
  mask_rows (invert (isin (map (fun r => cell r "religion") rs) ["no"; "none"])) rs
  = filter religion_ok rs.
Proof.
  induction rs as [|r rs IH]; simpl; [reflexivity|].
  rewrite IH. reflexivity.
Qed.

Lemma prepare_inv all_data df :
  prepare all_data = Ok df ->
  In "religion" (columns (pd_DataFrame all_data)) /\
  columns df = blank_columns (columns (pd_DataFrame all_data)) /\
  rows df = map (fun r => blank (reindex (columns (pd_DataFrame all_data)) r))
                (filter religion_ok all_data).
Proof.
  unfold prepare, getitem. intros Hrun.
  set (cols0 := columns (pd_DataFrame all_data)) in *.
  destruct (contains "religion" cols0) eqn:Hrel; [|discriminate].
  apply contains_In in Hrel. split; [assumption|].
  simpl in Hrun. injection Hrun as <-. split; [reflexivity|].
  cbn [rows setitem getitem_mask pd_DataFrame]. fold cols0.
  rewrite religion_mask_rows, filter_map_comm, !map_map.
  rewrite (filter_ext _ religion_ok)
    by (intros r; now apply religion_ok_reindex).
  reflexivity.
Qed.

Lemma prepared_cell all_data r col :
  In r all_data ->
  cell (blank (reindex (columns (pd_DataFrame all_data)) r)) col = final_cell r col.
Proof.
  intros Hin. rewrite cell_blank. unfold final_cell.
  destruct (contains col blank_cols); [reflexivity|].
  rewrite cell_reindex.
  destruct (contains col (columns (pd_DataFrame all_data))) eqn:E; [reflexivity|].
  symmetry. apply cell_absent. intros Hk.
  apply contains_false in E. apply E, pd_DataFrame_columns. eauto.
Qed.

Lemma blank_columns_In cols col :
  In col (blank_columns cols) <-> In col cols \/ In col blank_cols.
Proof.
  unfold blank_columns. generalize blank_cols as bs. intros bs. revert cols.
  induction bs as [|b bs IH]; intros cols; simpl; [tauto|].
  rewrite IH. destruct (contains b cols) eqn:E.
  - apply contains_In in E. intuition (subst; auto).
  - rewrite in_app_iff. simpl. intuition (subst; auto).
Qed.

Lemma blank_columns_others cols :
  filter (fun col => negb (contains col fixed_cols)) (blank_columns cols)
  = filter (fun col => negb (contains col fixed_cols)) cols.
Proof.
  unfold blank_columns. generalize (incl_refl blank_cols).
  generalize blank_cols at 1 3 as bs. intros bs. revert cols.
  induction bs as [|b bs IH]; intros cols Hincl; simpl; [reflexivity|].
  rewrite IH by (intros x Hx; apply Hincl; now right).
  destruct (contains b cols) eqn:E; [reflexivity|].
  assert (Hfix : contains b fixed_cols = true).
  { apply contains_In, blank_cols_fixed, Hincl. now left. }
  rewrite filter_app. cbn [filter]. rewrite Hfix. apply app_nil_r.
Qed.

Lemma for_each_In {A B} (f : A -> result B) xs ys y :
  for_each f xs = Ok ys -> In y ys -> exists x, In x xs /\ f x = Ok y.
Proof.
  revert ys. induction xs as [|x xs IH]; intros ys Hrun Hin; simpl in Hrun.
  - injection Hrun as <-. destruct Hin.
  - destruct (f x) as [y0|] eqn:Hx; [|discriminate]. simpl in Hrun.
    destruct (for_each f xs) as [ys0|]; [|discriminate]. simpl in Hrun.
    injection Hrun as <-. destruct Hin as [<- | Hin].
    + exists x. split; [now left | assumption].
    + destruct (IH ys0 eq_refl Hin) as (x' & ? & ?). exists x'. split; [now right | assumption].
Qed.

Lemma for_each_covers {A B} (f : A -> result B) xs ys x :
  for_each f xs = Ok ys -> In x xs -> exists y, In y ys /\ f x = Ok y.
Proof.
  revert ys. induction xs as [|x0 xs IH]; intros ys Hrun Hin; simpl in Hrun.
  - destruct Hin.
  - destruct (f x0) as [y0|] eqn:Hx; [|discriminate]. simpl in Hrun.
    destruct (for_each f xs) as [ys0|]; [|discriminate]. simpl in Hrun.
    injection Hrun as <-. destruct Hin as [<- | Hin].
    + exists y0. split; [now left | assumption].
    + destruct (IH ys0 eq_refl Hin) as (y & ? & ?). exists y. split; [now right | assumption].
Qed.

Lemma forallb_perm {A} (f : A -> bool) l l' :
  Permutation l l' -> forallb f l = forallb f l'.
Proof.
  intros Hp. apply eq_true_iff_eq. rewrite !forallb_forall.
  split; intros Hall x Hx; apply Hall;
    [apply Permutation_sym in Hp|]; eapply Permutation_in; eassumption.
Qed.

Lemma reindex_reindex cols cols' r :
  incl cols cols' -> reindex cols (reindex cols' r) = reindex cols r.
Proof.
  intros Hincl. apply reindex_ext. intros col Hcol.
  rewrite cell_reindex.
  assert (E : contains col cols' = true) by (apply contains_In; auto).
  now rewrite E.
Qed.

Lemma forallb_cell_reindex (f : value -> bool) cols col rs :
  In col cols ->
  forallb (fun r => f (cell r col)) (map (reindex cols) rs)
  = forallb (fun r => f (cell r col)) rs.
Proof.
  intros Hin. apply contains_In in Hin.
  induction rs as [|r rs IH]; [reflexivity|].
  cbn [map forallb]. now rewrite IH, cell_reindex, Hin.
Qed.

Lemma groupby_inv df col groups :
  groupby df col = Ok groups ->
  In col (columns df) /\
  groups = map (fun key =>
                  (key, {| columns := columns df;
                           rows := filter (fun r => value_eqb (cell r col) key)
                                          (rows df) |}))
               (sorted value_leb
                  (unique (filter notna (map (fun r => cell r col) (rows df))))).
Proof.
  unfold groupby, getitem.
  destruct (contains col (columns df)) eqn:E; [|discriminate].
  simpl. intros [= <-]. apply contains_In in E. tauto.
Qed.

(** The per-category loop body: the table has the columns of [col_order]
    minus the tag columns empty throughout the group, and the group's rows
    laid out on them. *)
Lemma group_table_inv col_order tag_columns key group_df key' t :
  group_table col_order tag_columns (key, group_df) = Ok (key', t) ->
  key' = key /\
  columns t
  = filter (fun col =>
              negb (contains col tag_columns
                    && forallb (fun r => is_empty (cell r col)) (rows group_df)))
           col_order /\
  Permutation (rows t) (map (reindex (columns t)) (rows group_df)).
Proof.
  unfold group_table, getitem_cols.
  destruct (filter (fun col => negb (contains col (columns group_df))) col_order);
    [|discriminate].
  cbn [bind]. unfold sort_values. cbn [columns rows].
  destruct (filter (fun col => negb (contains col col_order))
                   ["query_county"; "osm_id"]); [|discriminate].
  cbn [bind].
  set (S := sorted _ (map (reindex col_order) (rows group_df))).
  set (g2 := {| columns := col_order; rows := S |}).
  set (D := filter _ tag_columns).
  assert (HS : Permutation S (map (reindex col_order) (rows group_df)))
    by apply sorted_perm.
  assert (Hdrop : match D with [] => g2 | _ :: _ => drop g2 D end = drop g2 D).
  { destruct D as [|d D']; [|reflexivity].
    unfold drop, g2. cbn [columns rows contains existsb negb].
    assert (Hid : filter (fun _ : string => true) col_order = col_order)
      by (apply forallb_filter_id, forallb_forall; reflexivity).
    rewrite Hid. f_equal.
    rewrite <- (map_id S) at 1. apply map_ext_in. intros r Hr.
    apply (Permutation_in _ HS), in_map_iff in Hr.
    destruct Hr as (r0 & <- & _). symmetry. apply reindex_reindex, incl_refl. }
  rewrite Hdrop. intros [= <- <-]. split; [reflexivity|].
  assert (Hcols : columns (drop g2 D)
                  = filter (fun col =>
                              negb (contains col tag_columns
                                    && forallb (fun r => is_empty (cell r col))
                                               (rows group_df)))
                           col_order).
  { unfold drop. cbn [columns]. apply filter_ext_in. intros col Hcol. f_equal.
    apply eq_true_iff_eq. rewrite contains_In, andb_true_iff, contains_In.
    unfold D. rewrite filter_In, andb_true_iff, contains_In.
    cbn [columns rows g2].
    rewrite (forallb_perm _ _ _ HS).
    assert (Hsame : forallb (fun r => is_empty (cell r col))
                            (map (reindex col_order) (rows group_df))
                    = forallb (fun r => is_empty (cell r col)) (rows group_df)).
    { now apply forallb_cell_reindex. }
    rewrite Hsame. tauto. }
  split; [assumption|].
  unfold drop at 1. cbn [rows]. fold (columns (drop g2 D)). cbn [rows g2].
  rewrite HS, map_map. apply Permutation_refl'. apply map_ext.
  intros r. apply reindex_reindex. rewrite Hcols. intros col Hcol.
  now apply filter_In in Hcol.
Qed.

(** The per-category loop body is the category's table, then its write. *)
Lemma write_group_unfold {fs : FileSystem} col_order tag_columns group :
  write_group col_order tag_columns group
  = (table <- group_table col_order tag_columns group ;;
     written <- to_csv (fst table) (snd table) ;;
     Ok table).
Proof.
  destruct group as [purpose group_df]. unfold write_group, group_table.
  destruct (getitem_cols group_df col_order) as [g1|]; [cbn [bind]|reflexivity].
  destruct (sort_values g1 ["query_county"; "osm_id"]) as [g2|];
    [cbn [bind]|reflexivity].
  reflexivity.
Qed.

Lemma write_group_written {fs : FileSystem} col_order tag_columns group table :
  write_group col_order tag_columns group = Ok table ->
  group_table col_order tag_columns group = Ok table /\
  to_csv (fst table) (snd table) = Ok tt.
Proof.
  rewrite write_group_unfold.
  destruct (group_table col_order tag_columns group) as [table0|];
    [cbn [bind]|discriminate].
  destruct (to_csv (fst table0) (snd table0)) as [[]|] eqn:Hw;
    [cbn [bind]|discriminate].
  intros [= <-]. auto.
Qed.

Lemma write_group_inv {fs : FileSystem} col_order tag_columns key group_df key' t :
  write_group col_order tag_columns (key, group_df) = Ok (key', t) ->
  key' = key /\
  columns t
  = filter (fun col =>
              negb (contains col tag_columns
                    && forallb (fun r => is_empty (cell r col)) (rows group_df)))
           col_order /\
  Permutation (rows t) (map (reindex (columns t)) (rows group_df)).
Proof.
  intros Hw. apply write_group_written in Hw. destruct Hw as [Hw _].
  now apply group_table_inv.
Qed.

Lemma value_eqb_str_l s v : value_eqb (VStr s) v = true <-> v = VStr s.
Proof.
  destruct v as [|z|q|t]; simpl; try (split; discriminate).
  rewrite andb_true_iff. split.
  - intros [H1 H2]. f_equal. now apply String.leb_antisym.
  - intros [= ->]. split; destruct (String.leb_total s s); assumption.
Qed.

Lemma value_eqb_str_r s v : value_eqb v (VStr s) = true <-> v = VStr s.
Proof.
  destruct v as [|z|q|t]; simpl; try (split; discriminate).
  rewrite andb_true_iff. split.
  - intros [H1 H2]. f_equal. now apply String.leb_antisym.
  - intros [= ->]. split; destruct (String.leb_total s s); assumption.
Qed.

Lemma unique_In_str s vs : In (VStr s) vs -> In (VStr s) (unique vs).
Proof.
  induction vs as [|v vs IH]; simpl; [tauto|].
  intros [-> | Hin]; [now left|].
  destruct (value_eqb v (VStr s)) eqn:E.
  - apply value_eqb_str_r in E. now left.
  - right. apply filter_In. split; [auto | now rewrite E].
Qed.

Lemma filter_filter_ext {A} (f f' g : A -> bool) l :
  (forall x, In x l -> f x = f' x) ->
  filter f (filter g l) = filter (fun x => g x && f' x) l.
Proof.
  intros Hext. induction l as [|x l IH]; simpl; [reflexivity|].
  rewrite <- IH by (intros; apply Hext; now right).
  destruct (g x); simpl; [|reflexivity].
  rewrite (Hext x) by now left. reflexivity.
Qed.

Lemma forallb_false_exists {A} (f : A -> bool) l :
  forallb f l = false -> exists x, In x l /\ f x = false.
Proof.
  induction l as [|x l IH]; simpl; [discriminate|].
  destruct (f x) eqn:E; simpl.
  - intros Hl. destruct (IH Hl) as (y & ? & ?). eauto.
  - eauto.
Qed.

Lemma final_cell_tag r col :
  ~ In col fixed_cols -> final_cell r col = cell r col.
Proof.
  intros Hn. unfold final_cell.
  destruct (contains col blank_cols) eqn:E; [|reflexivity].
  exfalso. apply Hn. apply contains_In in E. now apply blank_cols_fixed.
Qed.

Lemma tag_cols_In all_data col :
  In col (tag_cols all_data) <->
  ~ In col fixed_cols /\ exists r, In r all_data /\ In col (dkeys r).
Proof.
  unfold tag_cols. rewrite filter_In, pd_DataFrame_columns, negb_true_iff.
  rewrite contains_false. tauto.
Qed.

(** The rows a group of the prepared frame holds. *)
Lemma group_rows all_data key :
  filter (fun r => value_eqb (cell r "query_purpose") key)
         (map (fun r => blank (reindex (columns (pd_DataFrame all_data)) r))
              (filter religion_ok all_data))
  = map (fun r => blank (reindex (columns (pd_DataFrame all_data)) r))
        (members key all_data).
Proof.
  rewrite filter_map_comm. f_equal. unfold members.
  apply filter_filter_ext. intros r Hr.
  rewrite prepared_cell by assumption. reflexivity.
Qed.

Lemma forallb_prepared all_data col rs :
  (forall r, In r rs -> In r all_data) ->
  ~ In col fixed_cols ->
  forallb (fun r => is_empty (cell r col))
          (map (fun r => blank (reindex (columns (pd_DataFrame all_data)) r)) rs)
  = forallb (fun r => is_empty (cell r col)) rs.
Proof.
  intros Hmem Hnf. induction rs as [|r rs IH]; [reflexivity|].
  cbn [map forallb]. rewrite IH by (intros; apply Hmem; now right).
  rewrite prepared_cell by (apply Hmem; now left).
  now rewrite final_cell_tag.
Qed.

(** Every table [main] writes, in terms of the collected rows: its columns
    are the computed column order minus the tag columns empty throughout
    the category, and its rows are the category's rows that pass the
    religion filter. *)
(** The table of a group of the prepared frame, in terms of the corpus. *)
Lemma corpus_group_table data_dir df key key' t :
  prepare (collect data_dir) = Ok df ->
  group_table (col_order_of df) (other_cols_of df)
    (key, {| columns := columns df;
             rows := filter (fun r => value_eqb (cell r "query_purpose") key)
                            (rows df) |})
  = Ok (key', t) ->
  key' = key /\ category_table (collect data_dir) key t.
Proof.
  intros Hprep Hw. unfold category_table.
  set (all_data := collect data_dir) in *.
  apply prepare_inv in Hprep. destruct Hprep as (Hrel & Hcols & Hrows).
  apply group_table_inv in Hw. destruct Hw as (-> & Hct & Hrt).
  split; [reflexivity|].
  cbn [rows columns] in Hct, Hrt.
  rewrite Hrows, group_rows in Hct, Hrt. fold all_data in Hct, Hrt.
  assert (Hother : other_cols_of df = tag_cols all_data).
  { unfold other_cols_of. rewrite Hcols. apply blank_columns_others. }
  assert (Horder : col_order_of df = corpus_col_order all_data).
  { unfold col_order_of, corpus_col_order, fixed_cols.
    rewrite Hother, app_assoc. reflexivity. }
  rewrite Hother, Horder in Hct.
  assert (Hmem : forall r, In r (members key all_data) -> In r all_data).
  { intros r Hr. unfold members in Hr. apply filter_In in Hr. apply Hr. }
  split.
  - rewrite Hct. apply filter_ext. intros col. f_equal.
    destruct (contains col (tag_cols all_data)) eqn:E; [|reflexivity].
    cbn [andb]. apply contains_In, tag_cols_In in E. destruct E as [Hnf _].
    apply forallb_prepared; assumption.
  - rewrite Hrt, map_map. apply Permutation_refl'. apply map_ext_in.
    intros r Hr. unfold table_row. unfold reindex at 1. apply map_ext. intros col.
    rewrite prepared_cell by auto. reflexivity.
Qed.

Lemma main_tables {fs : FileSystem} data_dir tables key t :
  main (Some data_dir) = Ok tables ->
  In (key, t) tables ->
  columns t
  = filter (fun col =>
              negb (contains col (tag_cols (collect data_dir))
                    && forallb (fun r => is_empty (cell r col))
                               (members key (collect data_dir))))
           (corpus_col_order (collect data_dir)) /\
  Permutation (rows t)
              (map (table_row (columns t)) (members key (collect data_dir))).
Proof.
  intros Hrun Hin. apply main_completed in Hrun. destruct Hrun as [_ Hrun].
  assert (Hrun' : df_all <- prepare (collect data_dir) ;; per_category df_all
                  = Ok tables).
  { destruct (collect data_dir); [|exact Hrun]. injection Hrun as <-. destruct Hin. }
  clear Hrun. destruct (prepare (collect data_dir)) as [df|] eqn:Hprep;
    [|discriminate].
  cbn [bind] in Hrun'.
  unfold per_category in Hrun'.
  destruct (groupby df "query_purpose") as [groups|] eqn:Hg; [|discriminate].
  cbn [bind] in Hrun'. apply groupby_inv in Hg. destruct Hg as [_ ->].
  destruct (for_each_In _ _ _ _ Hrun' Hin) as ([key0 gdf] & Hgin & Hw).
  apply in_map_iff in Hgin. destruct Hgin as (k & [= -> <-] & _).
  apply write_group_written in Hw. destruct Hw as [Hw _].
  destruct (corpus_group_table _ _ _ _ _ Hprep Hw) as [-> Htable].
  exact Htable.
Qed.

Lemma write_tags_str key (tags : dict string string) : forall (data_row : row) p,
  dget key data_row = Some (VStr p) ->
  exists p', dget key (fold_left write_tag tags data_row) = Some (VStr p').
Proof.
  induction tags as [|[k v] tags IH]; intros data_row p Hget; simpl.
  - eauto.
  - unfold write_tag at 2. simpl.
    destruct (String.eqb_spec k key) as [-> | Hne].
    + apply (IH _ v). apply dget_dset_same.
    + apply (IH _ p). rewrite dget_dset_other; assumption.
Qed.

Lemma collect_rows data_dir r :
  In r (collect data_dir) ->
  exists query_county query_purpose elements node_lookup e,
    In (query_county, query_purpose, Some elements) (known_documents data_dir) /\
    create_node_lookup elements = Ok node_lookup /\
    In e elements /\
    should_include_element e node_lookup = true /\
    r = extract_element_data e node_lookup query_purpose query_county.
Proof.
  unfold collect. rewrite in_flat_map.
  intros ([[query_county query_purpose] document] & Hdoc & Hr).
  apply process_json_file_rows in Hr.
  destruct Hr as (elements & node_lookup & e & -> & Hrun & Hin & Hinc & ->).
  exists query_county, query_purpose, elements, node_lookup, e. auto.
Qed.

Lemma collect_purpose data_dir r :
  In r (collect data_dir) -> exists p, cell r "query_purpose" = VStr p.
Proof.
  intros Hr. apply collect_rows in Hr.
  destruct Hr as (county & purpose & elements & lookup & e & _ & _ & _ & _ & ->).
  rewrite extract_element_data_unfold.
  match goal with
  | |- context [fold_left write_tag _ ?row0] =>
      destruct (write_tags_str "query_purpose" (tags_of e) row0 purpose eq_refl)
        as (p' & Hp')
  end.
  exists p'. unfold cell. rewrite Hp'. reflexivity.
Qed.

Lemma main_inv {fs : FileSystem} data_dir tables :
  main (Some data_dir) = Ok tables ->
  (collect data_dir = [] /\ tables = []) \/
  exists df_all,
    prepare (collect data_dir) = Ok df_all /\ per_category df_all = Ok tables.
Proof.
  intros Hrun. apply main_completed in Hrun. destruct Hrun as [_ Hrun].
  revert Hrun. destruct (collect data_dir) as [|r rs].
  - intros [= <-]. left. split; reflexivity.
  - intros Hrun. right.
    destruct (prepare (r :: rs)) as [df_all|]; [|discriminate].
    exists df_all. split; [reflexivity | exact Hrun].
Qed.

(** Every collected row that passes the religion filter has a table: the
    one of its [query_purpose] cell. *)
Lemma main_covers {fs : FileSystem} data_dir tables r :
  main (Some data_dir) = Ok tables ->
  In r (collect data_dir) ->
  religion_ok r = true ->
  exists p t, cell r "query_purpose" = VStr p /\ In (VStr p, t) tables.
Proof.
  intros Hrun Hr Hok.
  destruct (collect_purpose _ _ Hr) as (p & Hp).
  destruct (main_inv _ _ Hrun) as [[Hnil _] | (df & Hprep & Hper)].
  - rewrite Hnil in Hr. destruct Hr.
  - apply prepare_inv in Hprep. destruct Hprep as (_ & _ & Hrows).
    unfold per_category in Hper.
    destruct (groupby df "query_purpose") as [groups|] eqn:Hg; [|discriminate].
    cbn [bind] in Hper. apply groupby_inv in Hg. destruct Hg as [_ Hgroups].
    set (prep := fun r => blank (reindex (columns (pd_DataFrame (collect data_dir))) r))
      in *.
    assert (Hrow : In (prep r) (rows df)).
    { rewrite Hrows. apply in_map. apply filter_In. split; assumption. }
    assert (Hcell : cell (prep r) "query_purpose" = VStr p).
    { unfold prep. rewrite prepared_cell by assumption. exact Hp. }
    assert (Hkey : In (VStr p)
                      (sorted value_leb
                         (unique (filter notna
                            (map (fun r => cell r "query_purpose") (rows df)))))).
    { apply sorted_In, unique_In_str, filter_In. split; [|reflexivity].
      rewrite <- Hcell. apply (in_map (fun r => cell r "query_purpose")).
      exact Hrow. }
    pose proof (in_map (fun key =>
                  (key, {| columns := columns df;
                           rows := filter (fun r => value_eqb (cell r "query_purpose") key)
                                          (rows df) |})) _ _ Hkey) as Hgroup.
    cbv beta in Hgroup. rewrite <- Hgroups in Hgroup.
    destruct (for_each_covers _ _ _ _ Hper Hgroup) as ([key' t] & Hin & Hw).
    apply write_group_inv in Hw. destruct Hw as (-> & _).
    exists p, t. split; assumption.
Qed.

(** ** When [main] writes its tables *)

Lemma filter_none {A} (f : A -> bool) l :
  (forall x, In x l -> f x = false) -> filter f l = [].
Proof.
  intros Hall. induction l as [|x l IH]; simpl; [reflexivity|].
  rewrite (Hall x) by now left. apply IH. intros; apply Hall; now right.
Qed.

Lemma for_each_total {A B} (f : A -> result B) xs :
  (forall x, In x xs -> exists y, f x = Ok y) ->
  exists ys, for_each f xs = Ok ys.
Proof.
  induction xs as [|x xs IH]; intros Hall; simpl.
  - eauto.
  - destruct (Hall x) as (y & Hy); [now left|].
    destruct IH as (ys & Hys); [intros; apply Hall; now right|].
    rewrite Hy, Hys. simpl. eauto.
Qed.

Lemma write_tags_keeps key (tags : dict string string) : forall data_row : row,
  In key (dkeys data_row) -> In key (dkeys (fold_left write_tag tags data_row)).
Proof.
  induction tags as [|[k v] tags IH]; intros data_row Hin; simpl; [assumption|].
  apply IH. unfold write_tag. simpl. rewrite dkeys_dset.
  destruct (contains k (dkeys data_row)); [assumption|].
  apply in_or_app. now left.
Qed.

Lemma collect_row_fields data_dir r key :
  In r (collect data_dir) -> In key row_fields -> In key (dkeys r).
Proof.
  intros Hr Hkey. apply collect_rows in Hr.
  destruct Hr as (county & purpose & elements & lookup & e & _ & _ & _ & _ & ->).
  rewrite extract_element_data_unfold. apply write_tags_keeps. exact Hkey.
Qed.

Lemma group_table_total col_order tag_columns key group_df :
  incl col_order (columns group_df) ->
  In "query_county" col_order -> In "osm_id" col_order ->
  exists t, group_table col_order tag_columns (key, group_df) = Ok (key, t).
Proof.
  intros Hincl Hcounty Hid. unfold group_table, getitem_cols.
  rewrite filter_none.
  2:{ intros col Hcol. apply negb_false_iff, contains_In. now apply Hincl. }
  cbn [bind]. unfold sort_values. cbn [columns].
  rewrite filter_none.
  2:{ intros col [<- | [<- | []]]; apply negb_false_iff, contains_In; assumption. }
  cbn [bind]. eauto.
Qed.

Lemma write_group_total {fs : FileSystem} col_order tag_columns key group_df :
  incl col_order (columns group_df) ->
  In "query_county" col_order -> In "osm_id" col_order ->
  (forall t, to_csv key t = Ok tt) ->
  exists t, write_group col_order tag_columns (key, group_df) = Ok (key, t).
Proof.
  intros Hincl Hcounty Hid Hfs. rewrite write_group_unfold.
  destruct (group_table_total col_order tag_columns key group_df Hincl Hcounty Hid)
    as (t & ->).
  cbn [bind fst snd]. rewrite Hfs. cbn [bind]. eauto.
Qed.

(** ** Per-category pruning *)

(** The scenario: [denomination] is filled in the religion category only,
    [shop] in the bookstores category only; each table keeps its own. *)
Lemma two_categories_tables :
  main (fs := writable) (Some two_categories)
  = Ok [ (VStr "bookstores", bookstores_table);
         (VStr "religion", religion_table) ].
Proof. vm_compute. reflexivity. Qed.

Lemma members_In key all_data r :
  In r (members key all_data) ->
  In r all_data /\ religion_ok r = true /\ in_category key r = true.
Proof.
  unfold members. rewrite filter_In, andb_true_iff. tauto.
Qed.

Lemma table_has_fixed {fs : FileSystem} data_dir tables key t col :
  main (Some data_dir) = Ok tables -> In (key, t) tables ->
  In col fixed_cols -> In col (columns t).
Proof.
  intros Hrun Hin Hfix.
  destruct (main_tables _ _ _ _ Hrun Hin) as [Hcols _].
  rewrite Hcols. apply filter_In. split.
  - unfold corpus_col_order. apply in_or_app. left. exact Hfix.
  - destruct (contains col (tag_cols (collect data_dir))) eqn:E; [|reflexivity].
    apply contains_In, tag_cols_In in E. tauto.
Qed.

Lemma table_has_filled {fs : FileSystem} data_dir tables key t col r :
  main (Some data_dir) = Ok tables -> In (key, t) tables ->
  In r (members key (collect data_dir)) ->
  is_empty (cell r col) = false ->
  In col (columns t).
Proof.
  intros Hrun Hin Hr Hcell.
  destruct (in_dec string_dec col fixed_cols) as [Hfix | Hnf].
  - eapply table_has_fixed; eassumption.
  - destruct (main_tables _ _ _ _ Hrun Hin) as [Hcols _].
    rewrite Hcols. apply filter_In.
    assert (Htag : In col (tag_cols (collect data_dir))).
    { apply tag_cols_In. split; [assumption|]. exists r. split.
      - apply members_In in Hr. apply Hr.
      - destruct (in_dec string_dec col (dkeys r)) as [Hk | Hk]; [assumption|].
        rewrite (cell_absent _ _ Hk) in Hcell. discriminate. }
    split.
    + unfold corpus_col_order. apply in_or_app. right.
      apply sorted_In. exact Htag.
    + apply negb_true_iff, andb_false_iff. right.
      apply not_true_iff_false. intros Hall.
      rewrite forallb_forall in Hall. rewrite (Hall r Hr) in Hcell.
      discriminate.
Qed.

Lemma table_lacks_empty {fs : FileSystem} data_dir tables key t col :
  main (Some data_dir) = Ok tables -> In (key, t) tables ->
  ~ In col fixed_cols ->
  (forall r, In r (members key (collect data_dir)) ->
             is_empty (cell r col) = true) ->
  ~ In col (columns t).
Proof.
  intros Hrun Hin Hnf Hall Hcol.
  destruct (main_tables _ _ _ _ Hrun Hin) as [Hcols _].
  rewrite Hcols in Hcol. apply filter_In in Hcol.
  destruct Hcol as [Horder Hkeep].
  unfold corpus_col_order in Horder. apply in_app_or in Horder.
  destruct Horder as [Hfix | Htag]; [contradiction|].
  apply sorted_In in Htag.
  apply negb_true_iff, andb_false_iff in Hkeep.
  destruct Hkeep as [Hc | Hf].
  - apply contains_false in Hc. contradiction.
  - apply not_true_iff_false in Hf. apply Hf, forallb_forall. exact Hall.
Qed.

(** C6. In per-category mode, in each table taken on its own: every
    fixed column (priority, provenance, geometry, id) is present; a
    non-fixed column is absent exactly when its value is null or the empty
    string in every row of that category; and the rows are the category's
    rows.  The test is per table, so a column dropped from one table stays
    in any other where some row fills it. *)
Theorem per_category_pruning {fs : FileSystem} data_dir tables key t :
  main (Some data_dir) = Ok tables ->
  In (key, t) tables ->
  (forall col, In col fixed_cols -> In col (columns t)) /\
  (forall col, ~ In col fixed_cols ->
     (~ In col (columns t) <->
      forall r, In r (members key (collect data_dir)) ->
                is_empty (cell r col) = true)) /\
  Permutation (rows t)
              (map (table_row (columns t)) (members key (collect data_dir))).
Proof.
  intros Hrun Hin. split; [|split].
  - intros col. now apply (table_has_fixed data_dir tables key).
  - intros col Hnf. split.
    + intros Hdropped r Hr.
      destruct (is_empty (cell r col)) eqn:Hcell; [reflexivity|].
      exfalso. apply Hdropped.
      exact (table_has_filled _ _ _ _ _ _ Hrun Hin Hr Hcell).
    + now apply (table_lacks_empty data_dir tables key).
  - apply (main_tables _ _ _ _ Hrun Hin).
Qed.

Lemma per_category_pruning_witness :
  (~ In "denomination" (columns bookstores_table) <->
   forall r, In r (members (VStr "bookstores") (collect two_categories)) ->
             is_empty (cell r "denomination") = true) /\
  (~ In "denomination" (columns religion_table) <->
   forall r, In r (members (VStr "religion") (collect two_categories)) ->
             is_empty (cell r "denomination") = true).
Proof.
  assert (Hrun : main (fs := writable) (Some two_categories)
                 = Ok [ (VStr "bookstores", bookstores_table);
                        (VStr "religion", religion_table) ])
    by (vm_compute; reflexivity).
  split.
  - apply (proj1 (proj2 (per_category_pruning two_categories _
                           (VStr "bookstores") bookstores_table
                           Hrun (or_introl eq_refl)))).
    simpl. intuition discriminate.
  - apply (proj1 (proj2 (per_category_pruning two_categories _
                           (VStr "religion") religion_table
                           Hrun (or_intror (or_introl eq_refl))))).
    simpl. intuition discriminate.
Defined.

(** ** Tags from record to table *)

Lemma city_corpus_tables :
  main (fs := writable) (Some city_corpus) = Ok [ (VStr "religion", city_table) ].
Proof. vm_compute. reflexivity. Qed.

(** C3, as stated, fails: the [city] tag of the record is overwritten by
    the blank [city] column, so its value "Oakland" is in no table. *)
Lemma tags_round_trip_counterexample : ~ tags_round_trip city_corpus.
Proof.
  intros Hclaim.
  destruct (Hclaim writable _ city_corpus_tables "alameda" "religion" [city_temple]
              [(10%Z, ((37#1)%Q, (-122#1)%Q))] city_temple "city" "Oakland")
    as (p & t & r' & Hin & _ & Hr' & Hget).
  - vm_compute. tauto.
  - reflexivity.
  - now left.
  - reflexivity.
  - reflexivity.
  - simpl. tauto.
  - destruct Hin as [[= <- <-] | []].
    destruct Hr' as [<- | []].
    vm_compute in Hget. discriminate.
Qed.

Lemma dget_table_row cols r col :
  dget col (table_row cols r)
  = if contains col cols then Some (final_cell r col) else None.
Proof.
  unfold table_row, contains. induction cols as [|c cols IH]; simpl; [reflexivity|].
  destruct (key_eqb col c) eqn:E; simpl; [|assumption].
  apply key_eqb_eq in E. now subst.
Qed.

Lemma known_document_rows data_dir query_county query_purpose elements node_lookup e :
  In (query_county, query_purpose, Some elements) (known_documents data_dir) ->
  create_node_lookup elements = Ok node_lookup ->
  In e elements ->
  should_include_element e node_lookup = true ->
  In (extract_element_data e node_lookup query_purpose query_county)
     (collect data_dir).
Proof.
  intros Hdoc Hrun Hin Hinc. unfold collect. apply in_flat_map.
  exists (query_county, query_purpose, Some elements). split; [assumption|].
  apply process_json_file_rows.
  exists elements, node_lookup, e. auto.
Qed.

(** C3, amended.  When [main] writes its tables, the row of an included
    record that passes the religion filter is in the table of its
    category; there every tag whose key is not one of the five blank
    columns and whose value is not empty has its column, holding the
    original value; a tag named like a blank column reads as the empty
    string; and a column whose key the record lacks holds null. *)
Theorem tags_reach_table {fs : FileSystem}
  data_dir tables query_county query_purpose elements node_lookup e :
  main (Some data_dir) = Ok tables ->
  In (query_county, query_purpose, Some elements) (known_documents data_dir) ->
  create_node_lookup elements = Ok node_lookup ->
  In e elements ->
  should_include_element e node_lookup = true ->
  NoDup (dkeys (tags_of e)) ->
  religion_ok (extract_element_data e node_lookup query_purpose query_county)
  = true ->
  let r := extract_element_data e node_lookup query_purpose query_county in
  exists p t,
    cell r "query_purpose" = VStr p /\
    In (VStr p, t) tables /\
    In (table_row (columns t) r) (rows t) /\
    (forall key v, In (key, v) (tags_of e) ->
       ~ In key blank_cols -> v <> "" ->
       In key (columns t) /\
       dget key (table_row (columns t) r) = Some (VStr v)) /\
    (forall key, In key blank_cols ->
       In key (columns t) /\
       dget key (table_row (columns t) r) = Some (VStr "")) /\
    (forall col, In col (columns t) ->
       ~ In col blank_cols -> ~ In col (dkeys r) ->
       dget col (table_row (columns t) r) = Some VNone).
Proof.
  intros Hrun Hdoc Hlookup Hin Hinc Hnd Hok r.
  assert (Hr : In r (collect data_dir))
    by (apply known_document_rows with (elements := elements); assumption).
  destruct (main_covers _ _ _ Hrun Hr Hok) as (p & t & Hp & Ht).
  exists p, t. split; [assumption|]. split; [assumption|].
  assert (Hmem : In r (members (VStr p) (collect data_dir))).
  { unfold members. apply filter_In. split; [assumption|].
    apply andb_true_iff. split; [assumption|].
    unfold in_category. rewrite Hp. now apply value_eqb_str_l. }
  destruct (main_tables _ _ _ _ Hrun Ht) as [_ Hrows].
  split; [|split; [|split]].
  - apply (Permutation_in _ (Permutation_sym Hrows)).
    apply in_map. exact Hmem.
  - intros key v Htag Hnb Hv.
    assert (Hget : dget key r = Some (VStr v)).
    { unfold r. rewrite extract_element_data_unfold.
      now apply write_tags_tag. }
    assert (Hcell : cell r key = VStr v) by (unfold cell; now rewrite Hget).
    assert (Hcol : In key (columns t)).
    { apply (table_has_filled _ _ _ _ _ _ Hrun Ht Hmem).
      rewrite Hcell. simpl. now apply String.eqb_neq. }
    split; [assumption|].
    rewrite dget_table_row.
    apply contains_In in Hcol. rewrite Hcol. unfold final_cell.
    apply contains_false in Hnb. rewrite Hnb. now rewrite Hcell.
  - intros key Hb.
    assert (Hcol : In key (columns t)).
    { apply (table_has_fixed _ _ _ _ _ Hrun Ht). now apply blank_cols_fixed. }
    split; [assumption|].
    rewrite dget_table_row.
    apply contains_In in Hcol. rewrite Hcol. unfold final_cell.
    apply contains_In in Hb. now rewrite Hb.
  - intros col Hcol Hnb Hk.
    rewrite dget_table_row.
    apply contains_In in Hcol. rewrite Hcol. unfold final_cell.
    apply contains_false in Hnb. rewrite Hnb.
    now rewrite (cell_absent _ _ Hk).
Qed.

Lemma tags_reach_table_witness :
  exists p t,
    cell (extract_element_data city_temple [(10%Z, ((37#1)%Q, (-122#1)%Q))]
                               "religion" "alameda")
         "query_purpose" = VStr p /\
    In (VStr p, t) [ (VStr "religion", city_table) ] /\
    In (table_row (columns t)
          (extract_element_data city_temple [(10%Z, ((37#1)%Q, (-122#1)%Q))]
                                "religion" "alameda"))
       (rows t).
Proof.
  destruct (tags_reach_table (fs := writable) city_corpus [ (VStr "religion", city_table) ]
              "alameda" "religion" [city_temple]
              [(10%Z, ((37#1)%Q, (-122#1)%Q))] city_temple)
    as (p & t & Hp & Ht & Hrow & _).
  - vm_compute. reflexivity.
  - vm_compute. tauto.
  - reflexivity.
  - in_literal.
  - reflexivity.
  - nodup_literal.
  - reflexivity.
  - exists p, t. repeat split; assumption.
Defined.

(** ** The religion filter *)

(** X19. When [main] writes its tables, they hold exactly the collected
    rows whose religion is neither "no" nor "none": every table row comes
    from such a row, and every such row is in a table. *)
Lemma religion_filter_when_present {fs : FileSystem} data_dir tables :
  main (Some data_dir) = Ok tables ->
  (forall key t r', In (key, t) tables -> In r' (rows t) ->
     exists r, In r (collect data_dir) /\ r' = table_row (columns t) r /\
               cell r "religion" <> VStr "no" /\
               cell r "religion" <> VStr "none") /\
  (forall r, In r (collect data_dir) ->
     cell r "religion" <> VStr "no" -> cell r "religion" <> VStr "none" ->
     exists key t, In (key, t) tables /\ In (table_row (columns t) r) (rows t)).
Proof.
  intros Hrun. split.
  - intros key t r' Hin Hr'.
    destruct (main_tables _ _ _ _ Hrun Hin) as [_ Hrows].
    apply (Permutation_in _ Hrows), in_map_iff in Hr'.
    destruct Hr' as (r & <- & Hr). apply members_In in Hr.
    destruct Hr as (Hr & Hok & _). exists r.
    split; [assumption|]. split; [reflexivity|].
    unfold religion_ok in Hok.
    split; intros E; rewrite E in Hok; discriminate.
  - intros r Hr Hno Hnone.
    assert (Hok : religion_ok r = true).
    { unfold religion_ok. destruct (cell r "religion") as [| | |s]; try reflexivity.
      simpl. unfold key_eqb, string_hashable.
      destruct (String.eqb_spec s "no") as [-> | _]; [congruence|].
      destruct (String.eqb_spec s "none") as [-> | _]; [congruence|].
      reflexivity. }
    destruct (main_covers _ _ _ Hrun Hr Hok) as (p & t & Hp & Ht).
    exists (VStr p), t. split; [assumption|].
    destruct (main_tables _ _ _ _ Hrun Ht) as [_ Hrows].
    apply (Permutation_in _ (Permutation_sym Hrows)). apply in_map.
    unfold members. apply filter_In. split; [assumption|].
    apply andb_true_iff. split; [assumption|].
    unfold in_category. rewrite Hp. now apply value_eqb_str_l.
Qed.

(** C4, failing input.  On a corpus in which no record carries a
    [religion] tag, [df_all['religion']] raises a KeyError: nothing is
    retained and no table is written. *)
Theorem religion_filter_without_column {fs : FileSystem} :
  collect events_corpus
  = [ [ ("latitude", VFloat (1#1)); ("longitude", VFloat (2#1));
        ("query_purpose", VStr "events"); ("query_county", VStr "alameda");
        ("osm_id", VInt 1); ("osm_type", VStr "node");
        ("amenity", VStr "theatre") ] ] /\
  main (Some events_corpus) = Raise (KeyError ["religion"]).
Proof. split; vm_compute; reflexivity. Qed.

(** ** The column order *)

Lemma string_leb_iff a b : (a <=? b) = true <-> a = b \/ (a ?= b) = Lt.
Proof.
  unfold String.leb. destruct (a ?= b) eqn:E.
  - apply String.compare_eq_iff in E. tauto.
  - tauto.
  - split; [discriminate|]. intros [-> | ?]; [|discriminate].
    assert (Hrefl : (b ?= b) = Eq).
    { clear E. induction b as [|c b IH]; simpl; [reflexivity|].
      unfold Ascii.compare. now rewrite N.compare_refl. }
    congruence.
Qed.

Lemma string_leb_trans a b c :
  (a <=? b) = true -> (b <=? c) = true -> (a <=? c) = true.
Proof.
  rewrite !string_leb_iff.
  intros [-> | Hab] [-> | Hbc]; auto.
  right. apply OrderedTypeEx.String_as_OT.cmp_lt.
  apply OrderedTypeEx.String_as_OT.lt_trans with b;
    now apply OrderedTypeEx.String_as_OT.cmp_lt.
Qed.

Lemma col_key_leb_spec x y :
  col_key_leb x y = true <->
  (String.prefix "addr:" x = false /\ String.prefix "addr:" y = true) \/
  (String.prefix "addr:" x = String.prefix "addr:" y /\ (x <=? y) = true).
Proof.
  unfold col_key_leb.
  destruct (String.prefix "addr:" x), (String.prefix "addr:" y);
    intuition congruence.
Qed.

Lemma col_key_leb_total x y : col_key_leb x y = true \/ col_key_leb y x = true.
Proof.
  unfold col_key_leb.
  destruct (String.prefix "addr:" x), (String.prefix "addr:" y);
    auto using String.leb_total.
Qed.

Lemma col_key_leb_trans x y z :
  col_key_leb x y = true -> col_key_leb y z = true -> col_key_leb x z = true.
Proof.
  unfold col_key_leb.
  destruct (String.prefix "addr:" x), (String.prefix "addr:" y),
    (String.prefix "addr:" z); try congruence; apply string_leb_trans.
Qed.

(** The order [main] computes: the priority columns, the geometry and id
    columns, then the tag columns sorted by [(startswith('addr:'), name)];
    every table carries a sub-sequence of it. *)
Lemma col_order_sorted all_data :
  corpus_col_order all_data
  = priority_cols ++ remaining_base_cols ++ sorted col_key_leb (tag_cols all_data)
  /\ Permutation (sorted col_key_leb (tag_cols all_data)) (tag_cols all_data)
  /\ StronglySorted (fun x y => col_key_leb x y = true)
                    (sorted col_key_leb (tag_cols all_data)).
Proof.
  split; [|split].
  - unfold corpus_col_order, fixed_cols. now rewrite app_assoc.
  - apply sorted_perm.
  - apply sorted_sorted; [apply col_key_leb_total | apply col_key_leb_trans].
Qed.

(** C5, failing input.  On a corpus in which no record carries a
    [contact:email] tag, the column order still lists that column and
    selecting it raises a KeyError: no table is written. *)
Theorem col_order_without_priority_tag {fs : FileSystem} :
  col_order_of (pd_DataFrame (collect plain_corpus))
  = priority_cols ++ remaining_base_cols ++ ["religion"] /\
  main (Some plain_corpus) = Raise (KeyError ["contact:email"]).
Proof. split; vm_compute; reflexivity. Qed.

(** * Further properties *)

(** ** The retriever on transport failures *)

Section RetrieverFailures.
Context {J : Type} (server : nat -> outcome J) (max_retries : nat).

Lemma attempts_failed attempt rest t :
  failed server attempt -> (attempt < max_retries - 1)%nat ->
  attempts server max_retries (attempt :: rest) t
  = attempts server max_retries rest
      (sleep (2 ^ Z.of_nat attempt) (request t)).
Proof.
  intros Hfail Hlt. simpl.
  apply Nat.ltb_lt in Hlt. rewrite Hlt.
  assert (Hpos : (0 <? 2 ^ Z.of_nat attempt)%Z = true)
    by (apply Z.ltb_lt, Z.pow_pos_nonneg; lia).
  rewrite Hpos.
  destruct Hfail as [-> | (r & -> & Hs & Hj)]; [reflexivity|].
  rewrite Hs, Hj. reflexivity.
Qed.

Lemma attempts_failed_last attempt rest t :
  failed server attempt -> ~ (attempt < max_retries - 1)%nat ->
  attempts server max_retries (attempt :: rest) t = (None, request t).
Proof.
  intros Hfail Hge. simpl.
  apply Nat.ltb_nlt in Hge. rewrite Hge.
  destruct Hfail as [-> | (r & -> & Hs & Hj)]; [reflexivity|].
  rewrite Hs, Hj. reflexivity.
Qed.

Lemma attempts_retried attempt rest t :
  retried server attempt -> (attempt < max_retries - 1)%nat ->
  attempts server max_retries (attempt :: rest) t
  = attempts server max_retries rest
      (sleep (2 ^ Z.of_nat attempt) (request t)).
Proof.
  intros [Hfail | (status & Hans & Hretry)] Hlt.
  - now apply attempts_failed.
  - now apply attempts_retry with status.
Qed.

Lemma attempts_retried_prefix k : forall first n t,
  (first + k <= max_retries - 1)%nat ->
  (forall i, (first <= i < first + k)%nat -> retried server i) ->
  attempts server max_retries (seq first (k + n)) t
  = attempts server max_retries (seq (first + k) n)
      {| requests := requests t + k;
         sleeps := sleeps t
                   ++ map (fun attempt => (2 ^ Z.of_nat attempt)%Z) (seq first k) |}.
Proof.
  induction k as [|k IH]; intros first n t Hmax Hpre.
  - simpl. rewrite !Nat.add_0_r, app_nil_r. now destruct t.
  - change (seq first (S k + n)) with (first :: seq (S first) (k + n)).
    rewrite attempts_retried by (try apply Hpre; lia).
    rewrite IH by (try (intros i Hi; apply Hpre); lia).
    f_equal; [f_equal; lia|].
    unfold sleep, request. simpl. f_equal; [lia|].
    now rewrite <- app_assoc.
Qed.

(** Whatever the service does, the delays slept so far are
    2^first, 2^(first+1), ... without a gap, each request is followed by at
    most one sleep, and a body is only ever returned from a 200 answer. *)
Lemma attempts_shape n : forall first t res t',
  attempts server max_retries (seq first n) t = (res, t') ->
  exists k j,
    (j <= k <= S j)%nat /\ (k <= n)%nat /\
    requests t' = (requests t + k)%nat /\
    sleeps t' = sleeps t
                ++ map (fun attempt => (2 ^ Z.of_nat attempt)%Z) (seq first j) /\
    (forall body, res = Some body ->
       k = S j /\
       server (first + j)%nat
       = Responds {| status_code := 200; json := Some body |}).
Proof.
  induction n as [|n IH]; intros first t res t' Hrun.
  - simpl in Hrun. injection Hrun as <- <-. exists 0%nat, 0%nat.
    simpl. rewrite app_nil_r.
    repeat split; try lia; try reflexivity; try discriminate.
  - assert (Hstop : forall r0, (r0, request t) = (res, t') -> r0 = None ->
              exists k j,
                (j <= k <= S j)%nat /\ (k <= S n)%nat /\
                requests t' = (requests t + k)%nat /\
                sleeps t' = sleeps t
                  ++ map (fun attempt => (2 ^ Z.of_nat attempt)%Z) (seq first j) /\
                (forall body, res = Some body ->
                   k = S j /\
                   server (first + j)%nat
                   = Responds {| status_code := 200; json := Some body |})).
    { intros r0 [= <- <-] ->. exists 1%nat, 0%nat. simpl.
      rewrite app_nil_r.
      repeat split; try lia; try reflexivity; try discriminate. }
    assert (Hgo : attempts server max_retries (seq (S first) n)
                    (sleep (2 ^ Z.of_nat first) (request t)) = (res, t') ->
              exists k j,
                (j <= k <= S j)%nat /\ (k <= S n)%nat /\
                requests t' = (requests t + k)%nat /\
                sleeps t' = sleeps t
                  ++ map (fun attempt => (2 ^ Z.of_nat attempt)%Z) (seq first j) /\
                (forall body, res = Some body ->
                   k = S j /\
                   server (first + j)%nat
                   = Responds {| status_code := 200; json := Some body |})).
    { intros Hrest. apply IH in Hrest.
      destruct Hrest as (k & j & Hkj & Hk & Hreq & Hsl & Hbody).
      exists (S k), (S j). simpl in Hreq, Hsl.
      split; [lia|]. split; [lia|]. split; [lia|]. split.
      - rewrite Hsl, <- app_assoc. reflexivity.
      - intros body Hres. destruct (Hbody body Hres) as [-> Hsrv].
        split; [reflexivity|].
        replace (first + S j)%nat with (S first + j)%nat by lia. exact Hsrv. }
    change (seq first (S n)) with (first :: seq (S first) n) in Hrun.
    simpl in Hrun.
    destruct (server first) as [r|] eqn:Hsrv.
    + destruct (Z.eqb_spec (status_code r) 200) as [E200 | _].
      * destruct (json r) as [body|] eqn:Hjson.
        -- injection Hrun as <- <-. exists 1%nat, 0%nat. simpl.
           rewrite app_nil_r.
           split; [lia|]. split; [lia|]. split; [lia|]. split; [reflexivity|].
           intros body' [= <-]. split; [reflexivity|].
           rewrite Nat.add_0_r, Hsrv.
           destruct r as [sc js]. simpl in *. now subst.
        -- destruct (first <? max_retries - 1)%nat;
             [destruct (0 <? _)%Z|];
             (apply Hgo; exact Hrun) || (apply (Hstop None); [exact Hrun | reflexivity]).
      * destruct (_ || _);
          (apply Hgo; exact Hrun) || (apply (Hstop None); [exact Hrun | reflexivity]).
    + destruct (first <? max_retries - 1)%nat;
        [destruct (0 <? _)%Z|];
        (apply Hgo; exact Hrun) || (apply (Hstop None); [exact Hrun | reflexivity]).
Qed.

End RetrieverFailures.

Lemma backoff_total j : fold_right Z.add 0%Z (backoff j) = (2 ^ Z.of_nat j - 1)%Z.
Proof.
  assert (Hshift : forall (l : list Z) a,
             fold_right Z.add a l = (fold_right Z.add 0 l + a)%Z).
  { induction l as [|x l IHl]; intros a; simpl; [lia|]. rewrite IHl. lia. }
  unfold backoff. induction j as [|j IH]; [reflexivity|].
  rewrite seq_S, map_app, fold_right_app. cbn [map fold_right].
  change (0 + j)%nat with j.
  rewrite Hshift, IH, Nat2Z.inj_succ, Z.pow_succ_r by lia. lia.
Qed.

(** X1. A transport failure (an exception of the post, or a 200 whose body
    does not parse) is retried like a 5xx: after [k < 5] failures or
    retryable answers in any mix, a 200 returns its body with the sleeps
    1, 2, 4, ...  When the fifth attempt also fails in transit, the call
    gives up without a fifth sleep; when it is a retryable status, the call
    still sleeps 16 seconds before giving up. *)
Theorem query_overpass_transport_failures {J} (server : nat -> outcome J) :
  (forall k body,
      (k < 5)%nat ->
      (forall i, (i < k)%nat -> retried server i) ->
      server k = Responds {| status_code := 200; json := Some body |} ->
      query_overpass server
      = (Some body, {| requests := S k; sleeps := backoff k |})) /\
  ((forall i, (i < 4)%nat -> retried server i) ->
   failed server 4 ->
   query_overpass server
   = (None, {| requests := 5; sleeps := [1; 2; 4; 8]%Z |})) /\
  ((forall i, (i < 4)%nat -> retried server i) ->
   (exists status, answered server 4 status /\ retry_status status) ->
   query_overpass server
   = (None, {| requests := 5; sleeps := [1; 2; 4; 8; 16]%Z |})).
Proof.
  split; [|split].
  - intros k body Hk Hpre H200. unfold query_overpass, query_overpass_with.
    replace 5%nat with (k + (5 - k))%nat at 2 by lia.
    rewrite attempts_retried_prefix by (try (intros i Hi; apply Hpre); lia).
    replace (5 - k)%nat with (S (4 - k)) by lia.
    simpl. rewrite H200. reflexivity.
  - intros Hpre Hfail. unfold query_overpass, query_overpass_with.
    rewrite (attempts_retried_prefix server 5 4 0 1)
      by (try (intros i Hi; apply Hpre); simpl; lia).
    apply attempts_failed_last; [assumption | simpl; lia].
  - intros Hpre (status & Hans & Hretry).
    unfold query_overpass, query_overpass_with.
    rewrite (attempts_retried_prefix server 5 4 0 1)
      by (try (intros i Hi; apply Hpre); simpl; lia).
    simpl seq. rewrite (attempts_retry _ _ _ _ _ _ Hans Hretry). reflexivity.
Qed.

Lemma query_overpass_transport_failures_witness :
  query_overpass (shaky_server "ok")
  = (Some "ok", {| requests := 5; sleeps := [1; 2; 4; 8]%Z |}).
Proof.
  apply (proj1 (query_overpass_transport_failures (shaky_server "ok")) 4%nat "ok").
  - lia.
  - intros [|[|[|[|i]]]] Hi; try lia.
    + left. left. reflexivity.
    + left. left. reflexivity.
    + right. exists 502%Z. split.
      * exists {| status_code := 502; json := None |}. split; reflexivity.
      * unfold retry_status. lia.
    + left. right. exists {| status_code := 200; json := None |}.
      repeat split; reflexivity.
  - reflexivity.
Defined.

(** X2. [query_overpass] returns a body only from a 200 answer: if it
    returns [body], some attempt [j < 5] was answered 200 with that body,
    it was the last request made, and the sleeps before it were exactly
    1, 2, 4, ..., 2^(j-1). *)
Theorem query_overpass_body_from_200 {J} (server : nat -> outcome J) body t :
  query_overpass server = (Some body, t) ->
  exists j,
    (j < 5)%nat /\
    server j = Responds {| status_code := 200; json := Some body |} /\
    requests t = S j /\
    sleeps t = backoff j.
Proof.
  unfold query_overpass, query_overpass_with. intros Hrun.
  apply attempts_shape in Hrun.
  destruct Hrun as (k & j & Hkj & Hk & Hreq & Hsl & Hbody).
  destruct (Hbody body eq_refl) as [-> Hsrv].
  exists j. simpl in *. repeat split; try assumption; lia.
Qed.

Lemma query_overpass_body_from_200_witness :
  exists j,
    (j < 5)%nat /\
    shaky_server "ok" j = Responds {| status_code := 200; json := Some "ok" |} /\
    requests {| requests := 5; sleeps := [1; 2; 4; 8]%Z |} = S j /\
    sleeps {| requests := 5; sleeps := [1; 2; 4; 8]%Z |} = backoff j.
Proof.
  apply (query_overpass_body_from_200 (shaky_server "ok") "ok").
  vm_compute. reflexivity.
Defined.

(** X3. Whatever the service does, one call of [query_overpass] makes at
    most 5 requests, sleeps after a request at most once, sleeps the
    delays 1, 2, 4, ... in this order without a gap, and so sleeps at most
    31 seconds in total. *)
Theorem query_overpass_effort {J} (server : nat -> outcome J) :
  let t := snd (query_overpass server) in
  exists j,
    sleeps t = backoff j /\
    (j <= requests t <= S j)%nat /\
    (requests t <= 5)%nat /\
    (total_sleep t <= 31)%Z.
Proof.
  unfold query_overpass, query_overpass_with.
  destruct (attempts server 5 (seq 0 5) {| requests := 0; sleeps := [] |})
    as [res t] eqn:Hrun.
  apply attempts_shape in Hrun.
  destruct Hrun as (k & j & Hkj & Hk & Hreq & Hsl & _).
  simpl in *. exists j. subst k. repeat split; try lia; try assumption.
  unfold total_sleep. rewrite Hsl. fold (backoff j). rewrite backoff_total.
  assert (Hj : (j <= 5)%nat) by lia.
  assert (Hpow : (2 ^ Z.of_nat j <= 2 ^ 5)%Z)
    by (apply Z.pow_le_mono_r; lia).
  lia.
Qed.

(** ** The query string *)

Lemma string_app_assoc (a b c : string) : ((a ++ b) ++ c = a ++ (b ++ c))%string.
Proof. induction a as [|x a IH]; simpl; [reflexivity | now rewrite IH]. Qed.

Lemma string_app_length (a b : string) :
  String.length (a ++ b) = (String.length a + String.length b)%nat.
Proof. induction a as [|x a IH]; simpl; [reflexivity | now rewrite IH]. Qed.

Lemma string_app_inv_head (p a b : string) : (p ++ a = p ++ b)%string -> a = b.
Proof. induction p as [|x p IH]; simpl; [auto | intros [= H]; auto]. Qed.

Lemma string_app_inv_tail (r : string) : forall a b : string,
  (a ++ r = b ++ r)%string -> a = b.
Proof.
  induction a as [|x a IH]; intros [|y b] H; simpl in H.
  - reflexivity.
  - apply (f_equal String.length) in H. simpl in H.
    rewrite string_app_length in H. lia.
  - apply (f_equal String.length) in H. simpl in H.
    rewrite string_app_length in H. lia.
  - injection H as -> H. f_equal. now apply IH.
Qed.

Lemma concat_occurs sep (x : string) l :
  In x l -> exists pre post, (String.concat sep l = pre ++ x ++ post)%string.
Proof.
  induction l as [|y l IH]; [intros []|].
  intros [-> | Hin].
  - exists ""%string. destruct l as [|z l].
    + exists ""%string. simpl. clear. induction x; simpl; congruence.
    + exists (sep ++ String.concat sep (z :: l))%string. reflexivity.
  - destruct l as [|z l]; [destruct Hin|].
    destruct (IH Hin) as (pre & post & E).
    exists (y ++ sep ++ pre)%string, post.
    change (String.concat sep (y :: z :: l))
      with (y ++ sep ++ String.concat sep (z :: l))%string.
    rewrite E, !string_app_assoc. reflexivity.
Qed.

(** X4. The query of [build_overpass_query] holds one [nwr] clause per tag
    expression, each scoped to the search area, and it determines the
    relation id: for the same tags, different areas give different
    queries. *)
Theorem build_overpass_query_clauses :
  (forall relation_id tags tag,
      In tag tags ->
      exists pre post,
        (build_overpass_query relation_id tags = pre ++ clause tag ++ post)%string) /\
  (forall relation_id relation_id' tags,
      build_overpass_query relation_id tags
      = build_overpass_query relation_id' tags ->
      relation_id = relation_id').
Proof.
  split.
  - intros relation_id tags tag Hin.
    destruct (concat_occurs (LF ++ "  ")%string (clause tag) (map clause tags))
      as (pre & post & E); [now apply in_map|].
    unfold build_overpass_query. fold clause. rewrite E.
    exists ("[out:json];" ++ LF ++ ("area(" ++ relation_id ++ ")->.searchArea;")
            ++ LF ++ "(" ++ LF ++ "  " ++ pre)%string,
           (post ++ LF ++ ");" ++ LF ++ "out meta;")%string.
    rewrite !string_app_assoc. reflexivity.
  - intros relation_id relation_id' tags H. unfold build_overpass_query in H.
    apply (string_app_inv_head "[out:json];") in H.
    apply (string_app_inv_head LF) in H.
    rewrite !string_app_assoc in H.
    apply (string_app_inv_head "area(") in H.
    now apply string_app_inv_tail in H.
Qed.

Lemma build_overpass_query_clauses_witness :
  exists pre post,
    (build_overpass_query "3600396499" ["shop=bicycle"; "shop=books"]
     = pre ++ clause "shop=books" ++ post)%string.
Proof.
  apply (proj1 build_overpass_query_clauses
           "3600396499" ["shop=bicycle"; "shop=books"] "shop=books").
  in_literal.
Defined.

(** ** The retriever's [main] *)

#[export] Instance pair_hashable_spec {A B : Type}
  `{HashableSpec A} `{HashableSpec B} : HashableSpec (A * B).
Proof.
  intros [a b] [a' b']. unfold key_eqb, pair_hashable. simpl.
  rewrite andb_true_iff, !key_eqb_eq. split.
  - intros [-> ->]. reflexivity.
  - intros [= -> ->]. split; reflexivity.
Qed.

Lemma sum_app (l l' : list Z) :
  fold_right Z.add 0%Z (l ++ l')
  = (fold_right Z.add 0 l + fold_right Z.add 0 l')%Z.
Proof. induction l as [|x l IH]; simpl; [reflexivity | rewrite IH; lia]. Qed.

Lemma query_overpass_bounds {J} (server : nat -> outcome J) :
  (requests (snd (query_overpass server)) <= 5)%nat /\
  (0 <= total_sleep (snd (query_overpass server)) <= 31)%Z.
Proof.
  unfold query_overpass, query_overpass_with.
  destruct (attempts server 5 (seq 0 5) {| requests := 0; sleeps := [] |})
    as [res t] eqn:Hrun.
  apply attempts_shape in Hrun.
  destruct Hrun as (k & j & Hkj & Hk & Hreq & Hsl & _).
  simpl in *. split; [lia|].
  unfold total_sleep. rewrite Hsl. fold (backoff j). rewrite backoff_total.
  assert (Hpow : (2 ^ Z.of_nat j <= 2 ^ 5)%Z) by (apply Z.pow_le_mono_r; lia).
  assert (Hpos : (0 < 2 ^ Z.of_nat j)%Z) by (apply Z.pow_pos_nonneg; lia).
  lia.
Qed.

Lemma query_overpass_origin {J} (server : nat -> outcome J) body :
  fst (query_overpass server) = Some body ->
  exists j, server j = Responds {| status_code := 200; json := Some body |}.
Proof.
  unfold query_overpass, query_overpass_with.
  destruct (attempts server 5 (seq 0 5) {| requests := 0; sleeps := [] |})
    as [res t] eqn:Hrun.
  simpl. intros ->. apply attempts_shape in Hrun.
  destruct Hrun as (k & j & _ & _ & _ & _ & Hbody).
  destruct (Hbody body eq_refl) as [_ Hsrv]. eauto.
Qed.

Lemma for_state_app {S A} (body : S -> A -> S * result unit) xs ys : forall s,
  for_state body (xs ++ ys) s
  = match for_state body xs s with
    | (s', Ok _) => for_state body ys s'
    | (s', Raise e) => (s', Raise e)
    end.
Proof.
  induction xs as [|x xs IH]; intros s; cbn [app for_state]; [reflexivity|].
  destruct (body s x) as [s' [u|e]]; [apply IH | reflexivity].
Qed.

Lemma for_state_map {S A B} (body : S -> B -> S * result unit) (f : A -> B) xs :
  forall s,
    for_state body (map f xs) s = for_state (fun s x => body s (f x)) xs s.
Proof.
  induction xs as [|x xs IH]; intros s; cbn [map for_state]; [reflexivity|].
  destruct (body s (f x)) as [s' [u|e]]; [apply IH | reflexivity].
Qed.

(** After the first iteration the loop has stopped or goes on from the
    state the iteration left. *)
Lemma for_state_cons {S A} (body : S -> A -> S * result unit) x rest s :
  (exists e, body s x = (fst (body s x), Raise e) /\
             for_state body (x :: rest) s = (fst (body s x), Raise e)) \/
  (body s x = (fst (body s x), Ok tt) /\
   for_state body (x :: rest) s = for_state body rest (fst (body s x))).
Proof.
  cbn [for_state]. destruct (body s x) as [s' [[]|e]]; cbn [fst]; eauto.
Qed.

Section MainFacts.
Context {J : Type} (truthy : J -> bool) (elements_count : J -> result nat)
        (server : nat -> string -> outcome J).

Abbreviation run := (run_task truthy elements_count server).

Lemma main_as_tasks (w : world) :
  query_osm.main truthy elements_count server w = for_state run tasks w.
Proof.
  unfold query_osm.main, query_all_categories, tasks.
  generalize COUNTIES as counties. generalize QUERIES as queries.
  intros queries counties. revert w.
  induction counties as [|county counties IH]; intros w; [reflexivity|].
  cbn [flat_map for_state]. rewrite for_state_app, for_state_map.
  change (fun (s : world) (x : string * list string) => run s (county, x))
    with (query_category truthy elements_count server (fst county) (snd county)).
  destruct (for_state _ queries w) as [w' [u|e]]; [apply IH | reflexivity].
Qed.

Lemma run_task_skip (w : world) t :
  has_key (task_file t) (files w) = true -> run w t = (w, Ok tt).
Proof.
  intros Hk. unfold run_task, query_category.
  change (fst (fst t), fst (snd t)) with (task_file t). now rewrite Hk.
Qed.

(** What one iteration can do to the state, whether or not it raises. *)
Lemma run_task_cases (w : world) t :
  fst (run w t) = w \/
  (has_key (task_file t) (files w) = false /\
   effort (fst (run w t))
   = {| requests := requests (effort w)
                    + requests (snd (query_overpass
                        (fun attempt =>
                           server (requests (effort w) + attempt) (task_query t))));
        sleeps := sleeps (effort w)
                  ++ sleeps (snd (query_overpass
                        (fun attempt =>
                           server (requests (effort w) + attempt) (task_query t)))) |} /\
   (files (fst (run w t)) = files w \/
    exists body,
      fst (query_overpass
             (fun attempt => server (requests (effort w) + attempt) (task_query t)))
      = Some body /\
      truthy body = true /\
      files (fst (run w t)) = dset (task_file t) body (files w))).
Proof.
  unfold run_task, query_category.
  change (fst (fst t), fst (snd t)) with (task_file t).
  change (build_overpass_query (snd (fst t)) (snd (snd t))) with (task_query t).
  destruct (has_key (task_file t) (files w)) eqn:Hk; [now left|].
  right. split; [reflexivity|].
  destruct (query_overpass _) as [[body|] tr]; cbn [fst snd].
  - destruct (truthy body) eqn:Htruthy; cbn [fst files effort].
    + split; [reflexivity|]. right. exists body. auto.
    + split; [reflexivity|]. now left.
  - split; [reflexivity|]. now left.
Qed.

(** An iteration raises only after it has saved a body that cannot be
    counted. *)
Lemma run_task_raises (w : world) t e :
  snd (run w t) = Raise e ->
  exists body,
    elements_count body = Raise e /\ truthy body = true /\
    has_key (task_file t) (files w) = false /\
    dget (task_file t) (files (fst (run w t))) = Some body.
Proof.
  unfold run_task, query_category.
  change (fst (fst t), fst (snd t)) with (task_file t).
  destruct (has_key (task_file t) (files w)) eqn:Hk; [discriminate|].
  destruct (query_overpass _) as [[body|] tr]; cbn [fst snd]; [|discriminate].
  destruct (truthy body) eqn:Htruthy; cbn [fst snd files]; [|discriminate].
  destruct (elements_count body) as [count|e'] eqn:Hcount; cbn [bind];
    [discriminate|].
  intros [= <-]. exists body. repeat split; try assumption; try reflexivity.
  apply dget_dset_same.
Qed.

Lemma run_task_keeps (w : world) t key v :
  dget key (files w) = Some v -> dget key (files (fst (run w t))) = Some v.
Proof.
  intros Hget.
  destruct (run_task_cases w t)
    as [-> | (Hk & _ & [-> | (body & _ & _ & ->)])]; try assumption.
  rewrite dget_dset_other; [assumption|].
  intros <-. apply dget_Some_key, contains_In in Hget.
  unfold has_key in Hk. congruence.
Qed.

Lemma run_task_origin (w : world) t key v :
  dget key (files (fst (run w t))) = Some v ->
  dget key (files w) = Some v \/
  (key = task_file t /\ truthy v = true /\
   exists n, server n (task_query t)
             = Responds {| status_code := 200; json := Some v |}).
Proof.
  destruct (run_task_cases w t)
    as [-> | (Hk & _ & [-> | (body & Hres & Htruthy & ->)])]; auto.
  intros Hget.
  destruct (key_eq_dec (task_file t) key) as [<- | Hne].
  - rewrite dget_dset_same in Hget. injection Hget as <-.
    right. split; [reflexivity|]. split; [assumption|].
    apply query_overpass_origin in Hres. destruct Hres as (j & Hj). eauto.
  - rewrite dget_dset_other in Hget by assumption. now left.
Qed.

Lemma tasks_keep ts : forall (w : world) key v,
  dget key (files w) = Some v ->
  dget key (files (fst (for_state run ts w))) = Some v.
Proof.
  induction ts as [|t ts IH]; intros w key v Hget; [assumption|].
  destruct (for_state_cons run t ts w) as [(e & _ & ->) | [_ ->]].
  - now apply run_task_keeps.
  - apply IH. now apply run_task_keeps.
Qed.

Lemma tasks_origin ts : forall (w : world) key v,
  dget key (files (fst (for_state run ts w))) = Some v ->
  dget key (files w) = Some v \/
  exists t n,
    In t ts /\ key = task_file t /\ truthy v = true /\
    server n (task_query t) = Responds {| status_code := 200; json := Some v |}.
Proof.
  induction ts as [|t ts IH]; intros w key v Hget; [now left|].
  assert (Hhere : dget key (files (fst (run w t))) = Some v ->
                  dget key (files w) = Some v \/
                  exists t' n,
                    In t' (t :: ts) /\ key = task_file t' /\ truthy v = true /\
                    server n (task_query t')
                    = Responds {| status_code := 200; json := Some v |}).
  { intros Hmid.
    destruct (run_task_origin _ _ _ _ Hmid) as [? | (? & ? & n & ?)];
      [now left|].
    right. exists t, n. simpl. auto. }
  destruct (for_state_cons run t ts w) as [(e & _ & E) | [_ E]];
    rewrite E in Hget.
  - now apply Hhere.
  - destruct (IH _ _ _ Hget) as [Hmid | (t' & n & Hin & ? & ? & ?)].
    + now apply Hhere.
    + right. exists t', n. simpl. auto.
Qed.

Lemma tasks_skip ts : forall w : world,
  (forall t, In t ts -> has_key (task_file t) (files w) = true) ->
  for_state run ts w = (w, Ok tt).
Proof.
  induction ts as [|t ts IH]; intros w Hall; [reflexivity|].
  cbn [for_state]. rewrite run_task_skip by (apply Hall; now left).
  apply IH. intros; apply Hall; now right.
Qed.

Lemma has_key_keeps (w : world) t key :
  has_key key (files w) = true -> has_key key (files (fst (run w t))) = true.
Proof.
  unfold has_key. rewrite !contains_In. intros Hin.
  destruct (dget key (files w)) as [v|] eqn:Hget.
  - eapply dget_Some_key, run_task_keeps, Hget.
  - apply dget_None in Hget. contradiction.
Qed.

Lemma missing_shrinks (w : world) t ts :
  (List.length (missing (fst (run w t)) ts) <= List.length (missing w ts))%nat.
Proof.
  unfold missing. induction ts as [|t' ts IH]; simpl; [lia|].
  destruct (has_key (task_file t') (files w)) eqn:Hk; simpl.
  - rewrite (has_key_keeps _ t _ Hk). simpl. exact IH.
  - destruct (has_key (task_file t') (files (fst (run w t)))); simpl; lia.
Qed.

Lemma missing_cons (w : @world J) t ts :
  List.length (missing w (t :: ts))
  = ((if has_key (task_file t) (files w) then 0 else 1)
     + List.length (missing w ts))%nat.
Proof.
  unfold missing. cbn [filter].
  destruct (has_key (task_file t) (files w)); reflexivity.
Qed.

(** What one iteration costs. *)
Lemma run_task_effort (w : world) t :
  (requests (effort (fst (run w t)))
   <= requests (effort w)
      + 5 * (if has_key (task_file t) (files w) then 0 else 1))%nat /\
  (total_sleep (effort (fst (run w t)))
   <= total_sleep (effort w)
      + 31 * Z.of_nat (if has_key (task_file t) (files w) then 0 else 1))%Z /\
  exists more, sleeps (effort (fst (run w t))) = sleeps (effort w) ++ more.
Proof.
  destruct (run_task_cases w t) as [Hsame | (Hk & Heff & _)].
  - rewrite Hsame. split; [lia|].
    split; [destruct (has_key (task_file t) (files w)); lia|].
    exists []. now rewrite app_nil_r.
  - rewrite Hk.
    pose proof (query_overpass_bounds
                  (fun attempt =>
                     server (requests (effort w) + attempt) (task_query t)))
      as [Hb1 Hb2].
    assert (Ereq : requests (effort (fst (run w t)))
                   = (requests (effort w)
                      + requests (snd (query_overpass
                          (fun attempt =>
                             server (requests (effort w) + attempt)
                                    (task_query t)))))%nat)
      by (rewrite Heff; reflexivity).
    assert (Esl : sleeps (effort (fst (run w t)))
                  = sleeps (effort w)
                    ++ sleeps (snd (query_overpass
                          (fun attempt =>
                             server (requests (effort w) + attempt)
                                    (task_query t)))))
      by (rewrite Heff; reflexivity).
    assert (Etot : total_sleep (effort (fst (run w t)))
                   = (total_sleep (effort w)
                      + total_sleep (snd (query_overpass
                          (fun attempt =>
                             server (requests (effort w) + attempt)
                                    (task_query t)))))%Z)
      by (unfold total_sleep; rewrite Esl; apply sum_app).
    split; [lia|]. split; [lia|]. rewrite Esl. eauto.
Qed.

Lemma tasks_effort ts : forall w : world,
  (requests (effort (fst (for_state run ts w)))
   <= requests (effort w) + 5 * List.length (missing w ts))%nat /\
  (total_sleep (effort (fst (for_state run ts w)))
   <= total_sleep (effort w) + 31 * Z.of_nat (List.length (missing w ts)))%Z /\
  exists more, sleeps (effort (fst (for_state run ts w))) = sleeps (effort w) ++ more.
Proof.
  induction ts as [|t ts IH]; intros w.
  - cbn [for_state fst]. split; [lia|]. split; [unfold missing; simpl; lia|].
    exists []. now rewrite app_nil_r.
  - rewrite missing_cons.
    destruct (run_task_effort w t) as (Hreq1 & Hsl1 & more1 & Hmore1).
    destruct (for_state_cons run t ts w) as [(e & _ & ->) | [_ ->]].
    + cbn [fst].
      split; [destruct (has_key (task_file t) (files w)); lia|].
      split; [destruct (has_key (task_file t) (files w)); lia|]. eauto.
    + destruct (IH (fst (run w t))) as (Hreq & Hsl & more & Hmore).
      pose proof (missing_shrinks w t ts) as Hshrink.
      split; [destruct (has_key (task_file t) (files w)); lia|].
      split; [destruct (has_key (task_file t) (files w)); lia|].
      rewrite Hmore, Hmore1, <- app_assoc. eauto.
Qed.

(** A run raises only after it has saved a body that cannot be counted. *)
Lemma tasks_raise ts : forall (w : world) e,
  snd (for_state run ts w) = Raise e ->
  exists t body,
    In t ts /\ elements_count body = Raise e /\ truthy body = true /\
    dget (task_file t) (files (fst (for_state run ts w))) = Some body.
Proof.
  induction ts as [|t ts IH]; intros w e Hraise; [discriminate|].
  destruct (for_state_cons run t ts w) as [(e' & Hrun & E) | [_ E]];
    rewrite E in *.
  - cbn [snd] in Hraise. injection Hraise as ->.
    destruct (run_task_raises w t e) as (body & Hcount & Htruthy & _ & Hget).
    { rewrite Hrun. reflexivity. }
    exists t, body. cbn [fst]. repeat split; try assumption. now left.
  - destruct (IH _ _ Hraise) as (t' & body & Hin & ? & ? & ?).
    exists t', body. repeat split; try assumption. now right.
Qed.

End MainFacts.

Lemma distinctb_NoDup l : distinctb l = true -> NoDup l.
Proof.
  induction l as [|x l IH]; simpl; [constructor|].
  rewrite andb_true_iff, negb_true_iff. intros [Hx Hl].
  constructor; [now apply contains_false | auto].
Qed.

Lemma task_files_distinct : NoDup (map task_file tasks).
Proof. apply distinctb_NoDup. vm_compute. reflexivity. Qed.

Lemma query_overpass_first {J} (server : nat -> outcome J) body :
  server 0%nat = Responds {| status_code := 200; json := Some body |} ->
  query_overpass server = (Some body, {| requests := 1; sleeps := [] |}).
Proof.
  intros H0. unfold query_overpass, query_overpass_with.
  cbn [seq attempts]. rewrite H0. reflexivity.
Qed.

(** One iteration for a missing file whose first answer is a 200 with a
    truthy body: the body is saved after one request, and the iteration
    ends as the count of its elements does. *)
Lemma run_task_first {J} (truthy : J -> bool) (elements_count : J -> result nat)
  (server : nat -> string -> outcome J) (w : world) t body :
  has_key (task_file t) (files w) = false ->
  server (requests (effort w) + 0)%nat (task_query t)
  = Responds {| status_code := 200; json := Some body |} ->
  truthy body = true ->
  run_task truthy elements_count server w t
  = ({| files := dset (task_file t) body (files w);
        effort := {| requests := requests (effort w) + 1;
                     sleeps := sleeps (effort w) |} |},
     count <- elements_count body ;; Ok tt).
Proof.
  intros Hk Hsrv Htruthy. unfold run_task, query_category.
  change (fst (fst t), fst (snd t)) with (task_file t).
  change (build_overpass_query (snd (fst t)) (snd (snd t))) with (task_query t).
  rewrite Hk.
  rewrite (query_overpass_first
             (fun attempt => server (requests (effort w) + attempt) (task_query t))
             body Hsrv).
  cbn [fst snd requests sleeps]. rewrite Htruthy, app_nil_r. reflexivity.
Qed.

Lemma missing_after_save {J} (w : @world J) t body ts eff :
  ~ In (task_file t) (map task_file ts) ->
  missing {| files := dset (task_file t) body (files w); effort := eff |} ts
  = missing w ts.
Proof.
  intros Hfresh. unfold missing. apply filter_ext_in. intros t' Hin. f_equal.
  cbn [files]. unfold has_key.
  apply eq_true_iff_eq. rewrite !contains_In.
  assert (Hne : task_file t <> task_file t').
  { intros E. apply Hfresh. rewrite E. now apply in_map. }
  split; intros Hkey.
  - destruct (dget (task_file t') (files w)) as [v|] eqn:Hget.
    + now apply dget_Some_key in Hget.
    + exfalso. assert (Hd : dget (task_file t')
                              (dset (task_file t) body (files w)) = None)
        by (rewrite dget_dset_other; assumption).
      apply dget_None in Hd. contradiction.
  - destruct (dget (task_file t') (files w)) as [v|] eqn:Hget.
    + eapply dget_Some_key. rewrite dget_dset_other; eassumption.
    + apply dget_None in Hget. contradiction.
Qed.

Section MainHealthy.
Context {J : Type} (truthy : J -> bool) (elements_count : J -> result nat)
        (server : nat -> string -> outcome J).
Hypothesis Hhealthy : healthy truthy elements_count server.

Abbreviation run_h := (run_task truthy elements_count server).

Lemma run_task_healthy (w : world) t :
  has_key (task_file t) (files w) = false ->
  exists body,
    truthy body = true /\
    run_h w t
    = ({| files := dset (task_file t) body (files w);
          effort := {| requests := requests (effort w) + 1;
                       sleeps := sleeps (effort w) |} |},
       Ok tt).
Proof.
  intros Hk.
  destruct (Hhealthy (requests (effort w) + 0) (task_query t))
    as (body & count & Hsrv & Htruthy & Hcount).
  exists body. split; [assumption|].
  rewrite (run_task_first truthy elements_count server w t body Hk Hsrv Htruthy).
  rewrite Hcount. reflexivity.
Qed.

Lemma tasks_healthy ts : forall w : world,
  NoDup (map task_file ts) ->
  snd (for_state run_h ts w) = Ok tt /\
  (forall t, In t ts ->
     has_key (task_file t) (files (fst (for_state run_h ts w))) = true) /\
  sleeps (effort (fst (for_state run_h ts w))) = sleeps (effort w) /\
  requests (effort (fst (for_state run_h ts w)))
  = (requests (effort w) + List.length (missing w ts))%nat.
Proof.
  induction ts as [|t ts IH]; intros w Hnd.
  - cbn [for_state fst snd]. split; [reflexivity|]. split; [intros t []|].
    split; [reflexivity|]. unfold missing. simpl. lia.
  - inversion Hnd as [|? ? Hfresh Hnd']; subst.
    rewrite missing_cons.
    assert (Hstays : forall (w1 : world) key,
               has_key key (files w1) = true ->
               has_key key (files (fst (for_state run_h ts w1))) = true).
    { intros w1 key. unfold has_key. rewrite !contains_In. intros Hin.
      destruct (dget key (files w1)) as [v|] eqn:Hget.
      - eapply dget_Some_key, tasks_keep, Hget.
      - apply dget_None in Hget. contradiction. }
    destruct (has_key (task_file t) (files w)) eqn:Hk.
    + cbn [for_state]. rewrite (run_task_skip truthy elements_count server w t Hk).
      destruct (IH w Hnd') as (Hok & Hall & Hsl & Hreq).
      split; [assumption|]. split; [|split; [assumption | lia]].
      intros t' [<- | Hin]; [now apply Hstays | now apply Hall].
    + destruct (run_task_healthy w t Hk) as (body & _ & Hrun).
      cbn [for_state]. rewrite Hrun.
      set (w1 := {| files := dset (task_file t) body (files w);
                    effort := {| requests := requests (effort w) + 1;
                                 sleeps := sleeps (effort w) |} |}).
      destruct (IH w1 Hnd') as (Hok & Hall & Hsl & Hreq).
      assert (Hnow : has_key (task_file t) (files w1) = true).
      { unfold w1. cbn [files]. unfold has_key.
        apply contains_In, (dget_Some_key _ body), dget_dset_same. }
      assert (Hmiss : missing w1 ts = missing w ts)
        by (apply missing_after_save; assumption).
      rewrite Hmiss in Hreq. cbn [w1 effort requests sleeps] in Hreq, Hsl.
      split; [assumption|]. split; [|split; [assumption | lia]].
      intros t' [<- | Hin]; [now apply Hstays | now apply Hall].
Qed.

End MainHealthy.

(** X5. The retriever's [main] is resumable: a file that exists before the
    run is neither queried again nor changed, whether the run completes or
    is cut short; and when every county and category already has its file
    the run makes no request at all and completes. *)
Theorem retriever_main_resumable {J} (truthy : J -> bool)
  (elements_count : J -> result nat)
  (server : nat -> string -> outcome J) (w : world) :
  (forall key v,
      dget key (files w) = Some v ->
      dget key (files (fst (query_osm.main truthy elements_count server w)))
      = Some v) /\
  ((forall t, In t tasks -> has_key (task_file t) (files w) = true) ->
   query_osm.main truthy elements_count server w = (w, Ok tt)).
Proof.
  rewrite main_as_tasks. split.
  - intros key v. apply tasks_keep.
  - apply tasks_skip.
Qed.

Lemma retriever_main_resumable_witness :
  dget ("alameda", "bookstores")
       (files (fst (query_osm.main truth count_elements (steady_server new_body)
                                   resumed_world)))
  = Some kept_body.
Proof.
  apply (proj1 (retriever_main_resumable truth count_elements
                  (steady_server new_body) resumed_world)).
  reflexivity.
Defined.

(** X6. The retriever's [main] writes a file only for one of its county
    and category pairs, and only with a truthy body that the service
    returned in a 200 answer to that pair's query; a failed or empty
    result is never saved.  This holds of the files left by a run that is
    cut short as well. *)
Theorem retriever_main_saves_truthy_200 {J} (truthy : J -> bool)
  (elements_count : J -> result nat)
  (server : nat -> string -> outcome J) (w : world) key v :
  dget key (files (fst (query_osm.main truthy elements_count server w))) = Some v ->
  dget key (files w) = Some v \/
  exists t n,
    In t tasks /\ key = task_file t /\ truthy v = true /\
    server n (task_query t) = Responds {| status_code := 200; json := Some v |}.
Proof. rewrite main_as_tasks. apply tasks_origin. Qed.

Lemma retriever_main_saves_truthy_200_witness :
  dget ("alameda", "religion") (files resumed_world) = Some new_body \/
  exists t n,
    In t tasks /\ ("alameda", "religion") = task_file t /\
    truth new_body = true /\
    steady_server new_body n (task_query t)
    = Responds {| status_code := 200; json := Some new_body |}.
Proof.
  apply (retriever_main_saves_truthy_200 truth count_elements
           (steady_server new_body) resumed_world).
  vm_compute. reflexivity.
Defined.

(** X7. Whatever the service does, and whether the run completes or is
    cut short, a run of the retriever's [main] makes at most 5 requests
    and sleeps at most 31 seconds for each of the at most 25 files that
    are missing, and only appends to the sleeps made before. *)
Theorem retriever_main_effort {J} (truthy : J -> bool)
  (elements_count : J -> result nat)
  (server : nat -> string -> outcome J) (w : world) :
  let w' := fst (query_osm.main truthy elements_count server w) in
  (List.length (missing w tasks) <= 25)%nat /\
  (requests (effort w')
   <= requests (effort w) + 5 * List.length (missing w tasks))%nat /\
  (total_sleep (effort w')
   <= total_sleep (effort w) + 31 * Z.of_nat (List.length (missing w tasks)))%Z /\
  exists more, sleeps (effort w') = sleeps (effort w) ++ more.
Proof.
  cbv zeta. rewrite main_as_tasks. split.
  - unfold missing. etransitivity; [apply filter_length_le|].
    vm_compute. lia.
  - apply tasks_effort.
Qed.





(** ** More on the node index *)

Lemma create_node_lookup_from_raises elements : forall lookup,
  (exists e, In e elements /\ coordinate_node e /\ e_id e = None) <->
  create_node_lookup_from lookup elements = Raise (KeyError ["id"]).
Proof.
  unfold coordinate_node.
  induction elements as [|e0 rest IH]; intros lookup; simpl.
  - split; [intros (e & [] & _) | discriminate].
  - destruct (type_is e0 "node") eqn:Hty;
      [destruct (e_lat e0) as [lat|] eqn:Hlat;
       [destruct (e_lon e0) as [lon|] eqn:Hlon;
        [destruct (e_id e0) as [i|] eqn:Hid|]|]|].
    2:{ split; [reflexivity|]. intros _. exists e0.
        rewrite Hty, Hlat, Hlon. repeat split; auto; discriminate. }
    all: rewrite <- IH; split;
      [ intros (e & [<- | Hin] & (H1 & H2 & H3) & H4);
        [congruence | exists e; auto]
      | intros (e & Hin & Hc & Hn); exists e; auto ].
Qed.

Lemma create_node_lookup_from_app before : forall lookup after result,
  create_node_lookup_from lookup (before ++ after) = Ok result ->
  exists middle,
    create_node_lookup_from lookup before = Ok middle /\
    create_node_lookup_from middle after = Ok result.
Proof.
  induction before as [|e before IH]; intros lookup after result Hrun; simpl in *.
  - eauto.
  - destruct (type_is e "node"), (e_lat e), (e_lon e); eauto.
    destruct (e_id e); [eauto | discriminate].
Qed.

(** X9. The one way [create_node_lookup] fails is a node that carries
    coordinates but no id: exactly then it raises KeyError('id'), and
    [process_json_file] then returns no row at all for the document,
    whatever its other elements. *)
Theorem create_node_lookup_needs_ids :
  (forall elements,
      (exists e, In e elements /\ coordinate_node e /\ e_id e = None) <->
      create_node_lookup elements = Raise (KeyError ["id"])) /\
  (forall elements query_purpose query_county e,
      In e elements -> coordinate_node e -> e_id e = None ->
      process_json_file (Some elements) query_purpose query_county = []).
Proof.
  split.
  - intros elements. apply create_node_lookup_from_raises.
  - intros elements query_purpose query_county e Hin Hc Hid.
    unfold process_json_file.
    assert (Hraise : create_node_lookup elements = Raise (KeyError ["id"]))
      by (apply create_node_lookup_from_raises; eauto).
    rewrite Hraise. reflexivity.
Qed.

Lemma create_node_lookup_needs_ids_witness :
  process_json_file (Some [theatre; nameless_node]) "events" "alameda" = [].
Proof.
  apply (proj2 create_node_lookup_needs_ids
           [theatre; nameless_node] "events" "alameda" nameless_node).
  - in_literal.
  - unfold coordinate_node. simpl. repeat split; discriminate.
  - reflexivity.
Defined.

(** X10. In the node index the last node wins: an id is mapped to the
    coordinates of the last coordinate-carrying node of the document with
    that id, and every entry of the index comes from such a node. *)
Theorem create_node_lookup_last_wins elements node_lookup :
  create_node_lookup elements = Ok node_lookup ->
  (forall before e after id lat lon,
      elements = before ++ e :: after ->
      type_is e "node" = true -> e_id e = Some id ->
      e_lat e = Some lat -> e_lon e = Some lon ->
      (forall e', In e' after -> coordinate_node e' -> e_id e' <> Some id) ->
      dget id node_lookup = Some (lat, lon)) /\
  (forall id lat lon,
      dget id node_lookup = Some (lat, lon) ->
      exists e, In e elements /\ type_is e "node" = true /\ e_id e = Some id /\
                e_lat e = Some lat /\ e_lon e = Some lon).
Proof.
  intros Hrun. split.
  - intros before e after id lat lon -> Hty Hid Hlat Hlon Hlast.
    unfold create_node_lookup in Hrun.
    apply create_node_lookup_from_app in Hrun.
    destruct Hrun as (middle & _ & Hrest).
    simpl in Hrest. rewrite Hty, Hlat, Hlon, Hid in Hrest.
    assert (Hbound : dget id node_lookup <> None).
    { apply (create_node_lookup_from_keeps _ _ _ Hrest).
      now rewrite dget_dset_same. }
    destruct (dget id node_lookup) as [c|] eqn:Hget; [|congruence].
    destruct (create_node_lookup_from_sound _ _ _ Hrest _ _ Hget)
      as [Hold | (e' & Hin & Hty' & Hid' & Hlat' & Hlon')].
    + rewrite dget_dset_same in Hold. congruence.
    + exfalso. apply (Hlast e' Hin); [|assumption].
      unfold coordinate_node. repeat split; congruence.
  - intros id lat lon Hget.
    destruct (create_node_lookup_from_sound _ _ _ Hrun _ _ Hget)
      as [Hnil | (e & ? & ? & ? & ? & ?)]; [discriminate|].
    exists e. auto.
Qed.

Lemma create_node_lookup_last_wins_witness :
  dget 102%Z [ (101%Z, ((37#1)%Q, (-122#1)%Q)); (102%Z, ((39#1)%Q, (-120#1)%Q)) ]
  = Some ((39#1)%Q, (-120#1)%Q).
Proof.
  apply (proj1 (create_node_lookup_last_wins
                  [corner_a; corner_b; church_way; corner_b_moved] _ eq_refl)
           [corner_a; corner_b; church_way] corner_b_moved []);
    try reflexivity.
  intros e' [].
Defined.

(** ** More on the inclusion filter *)

(** X11. Inclusion is monotone in the tag keys: a record whose tag keys
    include those of an included record is included too, whatever the two
    node indexes. *)
Theorem should_include_element_monotone element1 element2 lookup1 lookup2 :
  (forall key, In key (dkeys (tags_of element1)) ->
               In key (dkeys (tags_of element2))) ->
  should_include_element element1 lookup1 = true ->
  should_include_element element2 lookup2 = true.
Proof.
  intros Hkeys. rewrite !should_include_element_existsb, !existsb_exists.
  intros (key & Hin & Ht). exists key. auto.
Qed.

Lemma should_include_element_monotone_witness :
  should_include_element surveyed_cafe [(2%Z, ((3#1)%Q, (4#1)%Q))] = true.
Proof.
  apply (should_include_element_monotone theatre surveyed_cafe []).
  - intros key Hin. simpl in Hin. destruct Hin as [<- | []]. in_literal.
  - reflexivity.
Defined.

(** ** More on row extraction *)

(** X12. The row of [extract_element_data] is a dict whose keys are the
    six fixed fields, in their order, followed by the record's tag keys
    that are not field names, in tag order; and a field that no tag
    shadows holds the value the function computed for it. *)
Theorem extract_element_data_keys
  element node_lookup query_purpose query_county :
  NoDup (dkeys (tags_of element)) ->
  dkeys (extract_element_data element node_lookup query_purpose query_county)
  = row_fields
    ++ filter (fun key => negb (contains key row_fields)) (dkeys (tags_of element))
  /\
  forall key,
    ~ In key (dkeys (tags_of element)) ->
    dget key (extract_element_data element node_lookup query_purpose query_county)
    = dget key (base_row element node_lookup query_purpose query_county).
Proof.
  intros Hnd. rewrite extract_element_data_unfold. split.
  - now rewrite write_tags_keys.
  - intros key Hkey. now apply write_tags_other.
Qed.

Lemma extract_element_data_keys_witness :
  dkeys (extract_element_data shadowing_point [] "events" "alameda")
  = row_fields ++ ["name"].
Proof.
  destruct (extract_element_data_keys shadowing_point [] "events" "alameda")
    as [Hkeys _]; [nodup_literal | exact Hkeys].
Defined.

(** ** Ways in their document *)

Lemma type_way_not_node e : type_is e "way" = true -> type_is e "node" = false.
Proof.
  unfold type_is. destruct (e_type e) as [ty|]; [|discriminate].
  intros E. apply String.eqb_eq in E. now subst.
Qed.

(** X13. Within one document whose elements all have ids, an included way
    gets a row, and that row carries the coordinates of the way's first
    node when that node is in the same document with coordinates, and
    null coordinates when no coordinate-carrying node of the document has
    that id (tags named latitude or longitude apart). *)
Theorem way_row_coordinates
  elements way first others query_purpose query_county :
  (forall e, In e elements -> e_id e <> None) ->
  In way elements ->
  type_is way "way" = true ->
  e_nodes way = Some (first :: others) ->
  should_include_element way [] = true ->
  ~ In "latitude" (dkeys (tags_of way)) ->
  ~ In "longitude" (dkeys (tags_of way)) ->
  exists node_lookup,
    create_node_lookup elements = Ok node_lookup /\
    let r := extract_element_data way node_lookup query_purpose query_county in
    In r (process_json_file (Some elements) query_purpose query_county) /\
    (forall node lat lon,
        In node elements -> type_is node "node" = true ->
        e_id node = Some first -> e_lat node = Some lat -> e_lon node = Some lon ->
        (forall e', In e' elements -> e_id e' = Some first -> e' = node) ->
        dget "latitude" r = Some (VFloat lat) /\
        dget "longitude" r = Some (VFloat lon)) /\
    ((forall e', In e' elements -> coordinate_node e' -> e_id e' <> Some first) ->
     dget "latitude" r = Some VNone /\ dget "longitude" r = Some VNone).
Proof.
  intros Hids Hin Hway Hnodes Hinc Hlat Hlon.
  destruct (create_node_lookup_from_total elements [] Hids) as (node_lookup & Hrun).
  exists node_lookup. split; [exact Hrun|]. cbv zeta.
  assert (Hcoord : get_element_coordinates way node_lookup
                   = match dget first node_lookup with
                     | Some lat_lon => (Some (fst lat_lon), Some (snd lat_lon))
                     | None => (None, None)
                     end).
  { unfold get_element_coordinates.
    now rewrite (type_way_not_node _ Hway), Hway, Hnodes. }
  assert (Hfields :
            dget "latitude"
                 (extract_element_data way node_lookup query_purpose query_county)
            = Some (of_float (fst (get_element_coordinates way node_lookup))) /\
            dget "longitude"
                 (extract_element_data way node_lookup query_purpose query_county)
            = Some (of_float (snd (get_element_coordinates way node_lookup)))).
  { rewrite extract_element_data_unfold.
    split; rewrite write_tags_other by assumption; reflexivity. }
  destruct Hfields as [Hflat Hflon]. split; [|split].
  - apply process_json_file_rows. exists elements, node_lookup, way.
    repeat split; assumption.
  - intros node lat lon Hnode Hty Hid Hnlat Hnlon Huniq.
    assert (Hget : dget first node_lookup = Some (lat, lon)).
    { destruct (create_node_lookup_from_complete _ _ _ Hrun node Hnode Hty)
        as (id & Hid' & Hbound); [congruence | congruence |].
      assert (id = first) by congruence. subst id.
      destruct (dget first node_lookup) as [c|] eqn:Hget; [|congruence].
      destruct (create_node_lookup_from_sound _ _ _ Hrun _ _ Hget)
        as [Hnil | (e' & Hin' & _ & Hid'' & Hlat' & Hlon')]; [discriminate|].
      apply Huniq in Hid''; [|assumption]. subst e'.
      destruct c as [clat clon]. simpl in *. congruence. }
    rewrite Hflat, Hflon, Hcoord, Hget. split; reflexivity.
  - intros Hnone.
    assert (Hget : dget first node_lookup = None).
    { destruct (dget first node_lookup) as [c|] eqn:Hget; [|reflexivity].
      destruct (create_node_lookup_from_sound _ _ _ Hrun _ _ Hget)
        as [Hnil | (e' & Hin' & Hty' & Hid' & Hlat' & Hlon')]; [discriminate|].
      exfalso. apply (Hnone e' Hin'); [|assumption].
      unfold coordinate_node. repeat split; congruence. }
    rewrite Hflat, Hflon, Hcoord, Hget. split; reflexivity.
Qed.

Lemma way_row_coordinates_witness :
  exists node_lookup,
    create_node_lookup [corner_a; corner_b; church_way] = Ok node_lookup /\
    In (extract_element_data church_way node_lookup "religion" "alameda")
       (process_json_file (Some [corner_a; corner_b; church_way])
                          "religion" "alameda").
Proof.
  destruct (way_row_coordinates [corner_a; corner_b; church_way] church_way
              101%Z [102%Z] "religion" "alameda")
    as (node_lookup & Hrun & Hrow & _).
  - intros e [<- | [<- | [<- | []]]]; discriminate.
  - in_literal.
  - reflexivity.
  - reflexivity.
  - reflexivity.
  - simpl. intuition discriminate.
  - simpl. intuition discriminate.
  - exists node_lookup. split; assumption.
Defined.

(** ** Which documents [main] reads *)

(** X14. [main] reads a document exactly when it is a JSON file of a
    directory named after a known county and is itself named after a
    known category: plain files, other directories (such as the output
    directory [csv]) and other file names contribute nothing. *)
Theorem known_documents_spec data_dir county purpose document :
  In (county, purpose, document) (known_documents data_dir) <->
  exists json_files,
    In (Dir county json_files) data_dir /\
    In (purpose, document) json_files /\
    In county (dkeys COUNTIES) /\
    In purpose (dkeys QUERIES).
Proof.
  unfold known_documents. rewrite in_flat_map. split.
  - intros ([name | name json_files] & Hentry & Hdoc); [destruct Hdoc|].
    apply sorted_In in Hentry.
    destruct (has_key name COUNTIES) eqn:Hcounty; [|destruct Hdoc].
    apply in_flat_map in Hdoc. destruct Hdoc as ([stem content] & Hfile & Hdoc).
    apply sorted_In in Hfile. cbn [fst snd] in Hdoc.
    destruct (has_key stem QUERIES) eqn:Hquery; [|destruct Hdoc].
    destruct Hdoc as [[= <- <- <-] | []].
    exists json_files. unfold has_key in *.
    apply contains_In in Hcounty, Hquery. auto.
  - intros (json_files & Hentry & Hfile & Hcounty & Hquery).
    exists (Dir county json_files). split; [now apply sorted_In|].
    apply contains_In in Hcounty, Hquery.
    unfold has_key. rewrite Hcounty. apply in_flat_map.
    exists (purpose, document). split; [now apply sorted_In|].
    cbn [fst snd]. rewrite Hquery. now left.
Qed.

(** ** When [main] writes nothing, and when it fails *)

Lemma for_each_raises {A B} (f : A -> result B) xs e :
  for_each f xs = Raise e -> exists x, In x xs /\ f x = Raise e.
Proof.
  induction xs as [|x xs IH]; simpl; [discriminate|].
  destruct (f x) as [y|e'] eqn:Hx; simpl.
  - destruct (for_each f xs) as [ys|e'']; simpl; [discriminate|].
    intros [= <-]. destruct (IH eq_refl) as (x' & ? & ?). eauto.
  - intros [= <-]. eauto.
Qed.

Lemma prepare_total all_data :
  In "religion" (columns (pd_DataFrame all_data)) ->
  exists df_all, prepare all_data = Ok df_all.
Proof.
  intros Hrel. unfold prepare, getitem.
  apply contains_In in Hrel. rewrite Hrel. cbn [bind]. eauto.
Qed.

Lemma prepare_raises all_data :
  ~ In "religion" (columns (pd_DataFrame all_data)) ->
  prepare all_data = Raise (KeyError ["religion"]).
Proof.
  intros Hrel. unfold prepare, getitem.
  apply contains_false in Hrel. rewrite Hrel. reflexivity.
Qed.

Lemma prepared_columns data_dir df_all col :
  collect data_dir <> [] ->
  columns df_all = blank_columns (columns (pd_DataFrame (collect data_dir))) ->
  In col row_fields \/ In col blank_cols ->
  In col (columns df_all).
Proof.
  intros Hne -> Hcol. apply blank_columns_In.
  destruct Hcol as [Hfield | Hblank]; [left | now right].
  destruct (collect data_dir) as [|r0 rs] eqn:Hcollect; [contradiction|].
  apply pd_DataFrame_columns. exists r0. split; [now left|].
  apply (collect_row_fields data_dir); [rewrite Hcollect; now left | assumption].
Qed.

(** X15. [main] writes no table and raises nothing when the data
    directory is missing; and, the output directory made, when no row is
    collected and when rows are collected but every one of them has
    religion "no" or "none".  The output directory is made first: when
    [data/csv] is a plain file, [main] raises FileExistsError before it
    reads anything. *)
Theorem main_writes_nothing {fs : FileSystem} :
  main None = Ok [] /\
  (forall data_dir,
      ~ csv_is_file data_dir -> collect data_dir = [] ->
      main (Some data_dir) = Ok []) /\
  (forall data_dir,
      ~ csv_is_file data_dir ->
      (forall r, In r (collect data_dir) -> religion_ok r = false) ->
      main (Some data_dir) = Ok []) /\
  (forall data_dir,
      csv_is_file data_dir ->
      main (Some data_dir) = Raise (FileExistsError "csv")).
Proof.
  split; [reflexivity|]. split; [|split].
  3:{ intros data_dir Hfile. rewrite main_unfold.
      destruct (mkdir_exist_ok_spec data_dir) as [[_ ->] | [Hfree _]];
        [reflexivity | contradiction]. }
  - intros data_dir Hfree Hnil. rewrite main_started, Hnil by assumption.
    reflexivity.
  - intros data_dir Hfree Hall. rewrite main_started by assumption.
    destruct (collect data_dir) as [|r0 rs] eqn:Hcollect; [reflexivity|].
    rewrite <- Hcollect in *.
    assert (Hne : collect data_dir <> []) by (rewrite Hcollect; discriminate).
    assert (Hrel : In "religion" (columns (pd_DataFrame (collect data_dir)))).
    { apply pd_DataFrame_columns. exists r0.
      split; [rewrite Hcollect; now left|].
      assert (Hr0 : religion_ok r0 = false)
        by (apply Hall; rewrite Hcollect; now left).
      unfold religion_ok, cell in Hr0.
      destruct (dget "religion" r0) as [v|] eqn:Hget; [|discriminate].
      now apply dget_Some_key in Hget. }
    destruct (prepare_total _ Hrel) as (df & Hprep). rewrite Hprep. cbn [bind].
    apply prepare_inv in Hprep. destruct Hprep as (_ & Hcols & Hrows).
    rewrite filter_none in Hrows by assumption. cbn [map] in Hrows.
    unfold per_category, groupby, getitem. rewrite Hrows.
    assert (E : contains "query_purpose" (columns df) = true).
    { apply contains_In, (prepared_columns data_dir); auto. left. in_literal. }
    rewrite E. reflexivity.
Qed.

Lemma main_writes_nothing_witness : main (fs := writable) (Some irreligious_corpus) = Ok [].
Proof.
  apply (proj1 (proj2 (proj2 main_writes_nothing)) irreligious_corpus).
  - intros [Hfile | []]. discriminate.
  - intros r [<- | []]. reflexivity.
Defined.

Lemma group_table_raises col_order tag_columns key group_df e :
  group_table col_order tag_columns (key, group_df) = Raise e ->
  (e = KeyError (filter (fun col => negb (contains col (columns group_df)))
                        col_order) /\
   filter (fun col => negb (contains col (columns group_df))) col_order <> []) \/
  (exists col, e = KeyError [col] /\ ~ In col col_order /\
               In col ["query_county"; "osm_id"]).
Proof.
  unfold group_table, getitem_cols.
  destruct (filter (fun col => negb (contains col (columns group_df))) col_order)
    as [|c cs] eqn:Hmiss.
  - cbn [bind]. unfold sort_values. cbn [columns].
    destruct (filter (fun col => negb (contains col col_order))
                     ["query_county"; "osm_id"]) as [|c cs] eqn:Hby;
      [cbn [bind]; discriminate|].
    cbn [bind]. intros [= <-]. right. exists c. split; [reflexivity|].
    assert (Hc : In c (c :: cs)) by now left.
    rewrite <- Hby in Hc. apply filter_In in Hc. destruct Hc as [Hin Hc].
    apply negb_true_iff, contains_false in Hc. auto.
  - cbn [bind]. intros [= <-]. left. split; [reflexivity | discriminate].
Qed.

Lemma write_group_raises {fs : FileSystem} col_order tag_columns key group_df e :
  write_group col_order tag_columns (key, group_df) = Raise e ->
  group_table col_order tag_columns (key, group_df) = Raise e \/
  exists t reason,
    group_table col_order tag_columns (key, group_df) = Ok (key, t) /\
    refuses key t = Some reason /\ e = OSError reason.
Proof.
  rewrite write_group_unfold.
  destruct (group_table col_order tag_columns (key, group_df)) as [[key' t]|e']
    eqn:Htable; cbn [bind fst snd].
  - pose proof (group_table_inv _ _ _ _ _ _ Htable) as (-> & _).
    unfold to_csv. destruct (refuses key t) as [reason|] eqn:Hfs; cbn [bind];
      [|discriminate].
    intros [= <-]. right. exists t, reason. auto.
  - intros [= <-]. now left.
Qed.

Lemma filter_priority (f : string -> bool) :
  f "Collaborated" = false -> f "query_county" = false -> f "city" = false ->
  f "query_purpose" = false -> f "person_with_relationship" = false ->
  f "org_contact" = false -> f "org_contact_title" = false ->
  filter f priority_cols = filter f tag_priority.
Proof.
  intros H1 H2 H3 H4 H5 H6 H7. unfold priority_cols, tag_priority.
  cbn [filter]. rewrite H1, H2, H3, H4, H5, H6, H7. reflexivity.
Qed.

(** The labels [group_df[col_order]] misses are the tag-derived priority
    columns that no row carries. *)
Lemma main_missing_columns data_dir df_all :
  prepare (collect data_dir) = Ok df_all ->
  collect data_dir <> [] ->
  filter (fun col => negb (contains col (columns df_all))) (col_order_of df_all)
  = absent_tags (collect data_dir).
Proof.
  intros Hprep Hne. apply prepare_inv in Hprep.
  destruct Hprep as (_ & Hcols & _).
  assert (Hhas : forall col, In col row_fields \/ In col blank_cols ->
                             negb (contains col (columns df_all)) = false).
  { intros col Hcol. apply negb_false_iff, contains_In.
    now apply (prepared_columns data_dir). }
  unfold col_order_of. rewrite !filter_app.
  rewrite (filter_none _ remaining_base_cols)
    by (intros col Hcol; apply Hhas; left; simpl in Hcol; simpl; tauto).
  rewrite (filter_none _ (sorted _ _)).
  2:{ intros col Hcol. apply sorted_In in Hcol. unfold other_cols_of in Hcol.
      apply filter_In in Hcol. apply negb_false_iff, contains_In, Hcol. }
  rewrite !app_nil_r.
  rewrite filter_priority; try (apply Hhas; simpl; tauto).
  unfold absent_tags. apply filter_ext_in. intros col Hcol. f_equal.
  apply eq_true_iff_eq. rewrite !contains_In, Hcols, blank_columns_In.
  split; [|tauto]. intros [? | Hblank]; [assumption|].
  exfalso. simpl in Hcol, Hblank.
  destruct Hcol as [<- | [<- | [<- | [<- | [<- | []]]]]];
    intuition discriminate.
Qed.

Lemma unique_In v vs : In v (unique vs) -> In v vs.
Proof.
  revert v. induction vs as [|w vs IH]; intros v; simpl; [tauto|].
  intros [-> | Hin]; [now left|].
  apply filter_In in Hin. right. apply IH, Hin.
Qed.

(** The group keys of the prepared frame are the [query_purpose] cells of
    the rows that pass the religion filter. *)
Lemma prepared_group_key all_data df key :
  rows df = map (fun r => blank (reindex (columns (pd_DataFrame all_data)) r))
                (filter religion_ok all_data) ->
  In key (sorted value_leb
            (unique (filter notna
               (map (fun r => cell r "query_purpose") (rows df))))) ->
  exists r, In r all_data /\ religion_ok r = true /\
            cell r "query_purpose" = key.
Proof.
  intros Hrows Hkey.
  apply sorted_In, unique_In, filter_In in Hkey. destruct Hkey as [Hkey _].
  apply in_map_iff in Hkey. destruct Hkey as (r' & Hcell & Hr').
  rewrite Hrows in Hr'. apply in_map_iff in Hr'.
  destruct Hr' as (r & <- & Hr). apply filter_In in Hr. destruct Hr as [Hr Hok].
  exists r. split; [assumption|]. split; [assumption|].
  rewrite prepared_cell in Hcell by assumption. exact Hcell.
Qed.

(** On the prepared frame of a corpus with rows, the per-category loop
    runs over the groups of [query_purpose]. *)
Lemma per_category_groups {fs : FileSystem} data_dir df :
  prepare (collect data_dir) = Ok df ->
  collect data_dir <> [] ->
  per_category df
  = for_each (write_group (col_order_of df) (other_cols_of df))
      (map (fun key =>
              (key, {| columns := columns df;
                       rows := filter (fun r => value_eqb (cell r "query_purpose") key)
                                      (rows df) |}))
           (sorted value_leb
              (unique (filter notna
                 (map (fun r => cell r "query_purpose") (rows df)))))).
Proof.
  intros Hprep Hne. apply prepare_inv in Hprep. destruct Hprep as (_ & Hcols & _).
  unfold per_category, groupby, getitem.
  assert (E : contains "query_purpose" (columns df) = true).
  { apply contains_In, (prepared_columns data_dir); auto. left. in_literal. }
  rewrite E. reflexivity.
Qed.

(** The table of a group of the prepared frame: the selection of the
    column order fails on the tag-derived priority columns that no row
    carries, and on nothing else. *)
Lemma group_table_prepared data_dir df key group_rows :
  prepare (collect data_dir) = Ok df ->
  collect data_dir <> [] ->
  (absent_tags (collect data_dir) <> [] /\
   group_table (col_order_of df) (other_cols_of df)
               (key, {| columns := columns df; rows := group_rows |})
   = Raise (KeyError (absent_tags (collect data_dir)))) \/
  (absent_tags (collect data_dir) = [] /\
   exists t,
     group_table (col_order_of df) (other_cols_of df)
                 (key, {| columns := columns df; rows := group_rows |})
     = Ok (key, t)).
Proof.
  intros Hprep Hne.
  pose proof (main_missing_columns _ _ Hprep Hne) as Hmissing.
  destruct (absent_tags (collect data_dir)) as [|c cs] eqn:Habsent.
  - right. split; [reflexivity|]. apply group_table_total.
    + cbn [columns]. intros col Hcol.
      destruct (contains col (columns df)) eqn:E; [now apply contains_In|].
      exfalso.
      assert (Hin : In col (filter (fun col => negb (contains col (columns df)))
                                   (col_order_of df)))
        by (apply filter_In; split; [assumption | now rewrite E]).
      rewrite Hmissing in Hin. destruct Hin.
    + unfold col_order_of. in_literal.
    + unfold col_order_of. in_literal.
  - left. split; [discriminate|].
    unfold group_table, getitem_cols. cbn [columns]. rewrite Hmissing.
    reflexivity.
Qed.

(** Why [main] raises, when it does. *)
Lemma main_raises {fs : FileSystem} data_dir e :
  main (Some data_dir) = Raise e ->
  (csv_is_file data_dir /\ e = FileExistsError "csv") \/
  (~ csv_is_file data_dir /\ collect data_dir <> [] /\
   ((~ corpus_has (collect data_dir) "religion" /\ e = KeyError ["religion"]) \/
    (corpus_has (collect data_dir) "religion" /\
     absent_tags (collect data_dir) <> [] /\
     e = KeyError (absent_tags (collect data_dir))) \/
    (corpus_has (collect data_dir) "religion" /\
     absent_tags (collect data_dir) = [] /\
     exists r t reason,
       In r (collect data_dir) /\ religion_ok r = true /\
       category_table (collect data_dir) (cell r "query_purpose") t /\
       refuses (cell r "query_purpose") t = Some reason /\
       e = OSError reason))).
Proof.
  rewrite main_unfold.
  destruct (mkdir_exist_ok_spec data_dir) as [[Hfile ->] | [Hfree ->]]; cbn [bind].
  { intros [= <-]. left. auto. }
  intros Hrun. right. split; [assumption|].
  destruct (collect data_dir) as [|r0 rs] eqn:Hcollect; [discriminate|].
  rewrite <- Hcollect in *.
  assert (Hne : collect data_dir <> []) by (rewrite Hcollect; discriminate).
  split; [assumption|].
  unfold corpus_has. rewrite <- pd_DataFrame_columns.
  destruct (in_dec string_dec "religion"
              (columns (pd_DataFrame (collect data_dir)))) as [Hrel | Hrel].
  2:{ left. rewrite (prepare_raises _ Hrel) in Hrun. injection Hrun as <-. auto. }
  right. destruct (prepare_total _ Hrel) as (df & Hprep).
  rewrite Hprep in Hrun. cbn [bind] in Hrun.
  rewrite (per_category_groups data_dir df Hprep Hne) in Hrun.
  apply for_each_raises in Hrun. destruct Hrun as ([key gdf] & Hg & Hraise).
  apply in_map_iff in Hg. destruct Hg as (k & [= -> <-] & Hk).
  apply write_group_raises in Hraise.
  destruct (group_table_prepared data_dir df key
              (filter (fun r => value_eqb (cell r "query_purpose") key) (rows df))
              Hprep Hne) as [[Habsent Htable] | [Habsent (t & Htable)]];
    rewrite Htable in Hraise.
  - left. destruct Hraise as [[= <-] | (t & reason & Ht & _)]; [auto | discriminate].
  - right. destruct Hraise as [Hraise | (t' & reason & [= <-] & Hfs & ->)];
      [discriminate|].
    split; [assumption|]. split; [assumption|].
    destruct (corpus_group_table _ _ _ _ _ Hprep Htable) as [_ Hlaid].
    apply prepare_inv in Hprep. destruct Hprep as (_ & _ & Hrows).
    destruct (prepared_group_key _ _ _ Hrows Hk) as (r & Hr & Hok & Hcell).
    exists r, t, reason. rewrite Hcell. auto.
Qed.

(** X16. [main] raises KeyError('religion') exactly when the output
    directory can be made, rows are collected and none of them has a
    [religion] key. *)
Theorem main_religion_KeyError {fs : FileSystem} data_dir :
  main (Some data_dir) = Raise (KeyError ["religion"]) <->
  ~ csv_is_file data_dir /\
  collect data_dir <> [] /\ ~ corpus_has (collect data_dir) "religion".
Proof.
  split.
  - intros Hrun. apply main_raises in Hrun.
    destruct Hrun as [[_ Herr] | (Hfree & Hne & Hwhy)]; [discriminate|].
    split; [assumption|]. split; [assumption|].
    destruct Hwhy as [[Hrel _] | [(_ & _ & Herr) | (_ & _ & r & t & reason & Herr)]].
    + assumption.
    + exfalso. injection Herr as Herr.
      assert (Hin : In "religion" (absent_tags (collect data_dir)))
        by (rewrite <- Herr; now left).
      unfold absent_tags in Hin. apply filter_In in Hin.
      destruct Hin as [Hin _]. simpl in Hin. intuition discriminate.
    + destruct Herr as (_ & _ & _ & _ & Herr). discriminate.
  - intros (Hfree & Hne & Hrel). rewrite main_started by assumption.
    unfold corpus_has in Hrel. rewrite <- pd_DataFrame_columns in Hrel.
    destruct (collect data_dir) as [|r0 rs] eqn:Hcollect; [contradiction|].
    rewrite <- Hcollect in *. now rewrite prepare_raises.
Qed.

Lemma main_religion_KeyError_witness :
  ~ csv_is_file events_corpus /\
  collect events_corpus <> [] /\ ~ corpus_has (collect events_corpus) "religion".
Proof.
  apply (proj1 (main_religion_KeyError (fs := writable) events_corpus)).
  vm_compute. reflexivity.
Defined.



(** X18. [main] completes, and writes its tables, on every corpus in
    which each of the tags it reads or selects by name (religion, name,
    phone, email, contact:email, website) occurs at least once, provided
    the output directory can be made and the file system takes the table
    of every category that has a row past the religion filter. *)
Theorem main_writes_tables {fs : FileSystem} data_dir :
  ~ csv_is_file data_dir ->
  (forall col, In col required_tags -> corpus_has (collect data_dir) col) ->
  (forall r t,
      In r (collect data_dir) -> religion_ok r = true ->
      category_table (collect data_dir) (cell r "query_purpose") t ->
      refuses (cell r "query_purpose") t = None) ->
  exists tables, main (Some data_dir) = Ok tables.
Proof.
  intros Hfree Hreq Hfs.
  destruct (main (Some data_dir)) as [tables|e] eqn:Hrun; [eauto|].
  exfalso. apply main_raises in Hrun.
  destruct Hrun as [[Hfile _] | (_ & _ & Hwhy)]; [contradiction|].
  destruct Hwhy as [[Hrel _] | [(_ & Habsent & _) | (_ & _ & r & t & reason & Hwhy)]].
  - apply Hrel, Hreq. in_literal.
  - assert (Hnone : absent_tags (collect data_dir) = []).
    { unfold absent_tags. apply filter_none. intros col Hcol.
      apply negb_false_iff, contains_In, pd_DataFrame_columns, Hreq.
      simpl in Hcol. simpl. tauto. }
    contradiction.
  - destruct Hwhy as (Hr & Hok & Hlaid & Hrefused & _).
    rewrite (Hfs r t Hr Hok Hlaid) in Hrefused. discriminate.
Qed.

Lemma main_writes_tables_witness :
  exists tables, main (fs := writable) (Some two_categories) = Ok tables.
Proof.
  apply (main_writes_tables (fs := writable) two_categories).
  - intros [Hfile | []]. discriminate.
  - intros col Hcol.
    exists (extract_element_data temple [] "religion" "alameda").
    split; [vm_compute; tauto|].
    simpl in Hcol. simpl. intuition (subst; auto 20).
  - reflexivity.
Defined.

(** X26. A table [main] returns is a file it has written: the file system
    took it, under the name of its category. *)
Theorem main_tables_written {fs : FileSystem} data_dir tables key t :
  main (Some data_dir) = Ok tables ->
  In (key, t) tables ->
  refuses key t = None /\ category_table (collect data_dir) key t.
Proof.
  intros Hrun Hin. split; [|exact (main_tables _ _ _ _ Hrun Hin)].
  destruct (main_inv _ _ Hrun) as [[_ ->] | (df & _ & Hper)]; [destruct Hin|].
  unfold per_category in Hper.
  destruct (groupby df "query_purpose") as [groups|]; [|discriminate].
  cbn [bind] in Hper.
  destruct (for_each_In _ _ _ _ Hper Hin) as (group & _ & Hw).
  apply write_group_written in Hw. destruct Hw as [_ Hw].
  cbn [fst snd] in Hw. unfold to_csv in Hw.
  destruct (refuses key t); [discriminate | reflexivity].
Qed.

Lemma main_tables_written_witness :
  refuses (FileSystem := flat_csv_dir) (VStr "religion") religion_table = None /\
  category_table (collect two_categories) (VStr "religion") religion_table.
Proof.
  apply (main_tables_written (fs := flat_csv_dir) two_categories
           [ (VStr "bookstores", bookstores_table);
             (VStr "religion", religion_table) ]).
  - vm_compute. reflexivity.
  - in_literal.
Defined.

Lemma religion_filter_when_present_witness :
  exists key t,
    In (key, t) [ (VStr "bookstores", bookstores_table);
                  (VStr "religion", religion_table) ] /\
    In (table_row (columns t)
                  (extract_element_data temple [] "religion" "alameda"))
       (rows t).
Proof.
  assert (Hrun : main (fs := writable) (Some two_categories)
                 = Ok [ (VStr "bookstores", bookstores_table);
                        (VStr "religion", religion_table) ])
    by (vm_compute; reflexivity).
  apply (proj2 (religion_filter_when_present two_categories _ Hrun)).
  - vm_compute. tauto.
  - vm_compute. discriminate.
  - vm_compute. discriminate.
Defined.

(** ** The shape of a table *)

Lemma StronglySorted_filter {A} (R : A -> A -> Prop) (f : A -> bool) l :
  StronglySorted R l -> StronglySorted R (filter f l).
Proof.
  induction 1 as [|x l Hl IH Hx]; simpl; [constructor|].
  destruct (f x); [|assumption].
  constructor; [assumption|].
  rewrite Forall_forall in *. intros y Hy. apply filter_In in Hy. apply Hx, Hy.
Qed.

Lemma add_keys_NoDup seen r : NoDup seen -> NoDup (add_keys seen r).
Proof.
  unfold add_keys. generalize (dkeys r) as keys. intros keys. revert seen.
  induction keys as [|key keys IH]; intros seen Hnd; simpl; [assumption|].
  apply IH. destruct (contains key seen) eqn:E; [assumption|].
  apply contains_false in E.
  apply NoDup_app; [assumption | repeat constructor; simpl; tauto |].
  intros x Hx [<- | []]. contradiction.
Qed.

Lemma pd_DataFrame_NoDup data : NoDup (columns (pd_DataFrame data)).
Proof.
  unfold pd_DataFrame. cbn [columns].
  assert (Hgen : forall seen, NoDup seen -> NoDup (fold_left add_keys data seen)).
  { induction data as [|r data IH]; intros seen Hnd; simpl; [assumption|].
    apply IH. now apply add_keys_NoDup. }
  apply Hgen. constructor.
Qed.

Lemma fixed_cols_NoDup : NoDup fixed_cols.
Proof. unfold fixed_cols. nodup_literal. Qed.

Lemma corpus_col_order_NoDup all_data : NoDup (corpus_col_order all_data).
Proof.
  unfold corpus_col_order. apply NoDup_app.
  - apply fixed_cols_NoDup.
  - apply (Permutation_NoDup (Permutation_sym (sorted_perm _ _))).
    unfold tag_cols. apply NoDup_filter, pd_DataFrame_NoDup.
  - intros col Hfix Htag. apply sorted_In, tag_cols_In in Htag. tauto.
Qed.

(** X20. Every table [main] writes starts with the sixteen fixed columns
    in their fixed order (priority columns, then latitude, longitude,
    osm_id, osm_type), followed by tag columns of the corpus in ascending
    order of [(name.startswith('addr:'), name)]; no column name occurs
    twice. *)
Theorem table_column_order {fs : FileSystem} data_dir tables key t :
  main (Some data_dir) = Ok tables ->
  In (key, t) tables ->
  exists tags,
    columns t = priority_cols ++ remaining_base_cols ++ tags /\
    StronglySorted (fun x y => col_key_leb x y = true) tags /\
    (forall col, In col tags -> In col (tag_cols (collect data_dir))) /\
    NoDup (columns t).
Proof.
  intros Hrun Hin.
  destruct (main_tables _ _ _ _ Hrun Hin) as [Hcols _].
  set (keep := fun col =>
                 negb (contains col (tag_cols (collect data_dir))
                       && forallb (fun r => is_empty (cell r col))
                                  (members key (collect data_dir)))) in *.
  exists (filter keep (sorted col_key_leb (tag_cols (collect data_dir)))).
  split; [|split; [|split]].
  - rewrite Hcols. unfold corpus_col_order. rewrite filter_app.
    rewrite forallb_filter_id; [unfold fixed_cols; now rewrite app_assoc|].
    apply forallb_forall. intros col Hfix. unfold keep.
    destruct (contains col (tag_cols (collect data_dir))) eqn:E; [|reflexivity].
    apply contains_In, tag_cols_In in E. tauto.
  - apply StronglySorted_filter, sorted_sorted;
      [apply col_key_leb_total | apply col_key_leb_trans].
  - intros col Hcol. apply filter_In in Hcol. destruct Hcol as [Hcol _].
    apply sorted_In in Hcol. exact Hcol.
  - rewrite Hcols. apply NoDup_filter, corpus_col_order_NoDup.
Qed.

Lemma table_column_order_witness :
  exists tags,
    columns religion_table = priority_cols ++ remaining_base_cols ++ tags /\
    StronglySorted (fun x y => col_key_leb x y = true) tags.
Proof.
  assert (Hrun : main (fs := writable) (Some two_categories)
                 = Ok [ (VStr "bookstores", bookstores_table);
                        (VStr "religion", religion_table) ])
    by (vm_compute; reflexivity).
  destruct (table_column_order two_categories _ (VStr "religion") religion_table
              Hrun (or_intror (or_introl eq_refl)))
    as (tags & Hcols & Hsorted & _).
  exists tags. split; assumption.
Defined.

(** ** Tables and their rows *)

Lemma value_eqb_refl v : notna v = true -> value_eqb v v = true.
Proof.
  destruct v as [|z|q|s]; simpl; try discriminate; intros _.
  - rewrite andb_diag. apply Qle_bool_iff, Qle_refl.
  - rewrite andb_diag. apply Qle_bool_iff, Qle_refl.
  - rewrite andb_diag. destruct (String.leb_total s s); assumption.
Qed.

Lemma unique_NoDup vs :
  (forall v, In v vs -> notna v = true) -> NoDup (unique vs).
Proof.
  induction vs as [|v vs IH]; intros Hna; simpl; [constructor|].
  constructor.
  - intros Hin. apply filter_In in Hin. destruct Hin as [_ Hne].
    rewrite value_eqb_refl in Hne by (apply Hna; now left). discriminate.
  - apply NoDup_filter, IH. intros; apply Hna; now right.
Qed.

Lemma for_each_keys {fs : FileSystem} col_order tag_columns groups : forall tables,
  for_each (write_group col_order tag_columns) groups = Ok tables ->
  map fst tables = map fst groups.
Proof.
  induction groups as [|[key gdf] groups IH]; intros tables Hrun;
    cbn [for_each] in Hrun.
  - now injection Hrun as <-.
  - destruct (write_group col_order tag_columns (key, gdf)) as [[key' t]|] eqn:Hw;
      [|discriminate].
    cbn [bind] in Hrun.
    destruct (for_each (write_group col_order tag_columns) groups) as [ts|];
      [|discriminate].
    cbn [bind] in Hrun. injection Hrun as <-.
    apply write_group_inv in Hw. destruct Hw as (-> & _).
    simpl. f_equal. now apply IH.
Qed.

(** The keys of the tables are the distinct [query_purpose] cells of the
    rows that pass the religion filter. *)
Lemma main_table_keys {fs : FileSystem} data_dir tables :
  main (Some data_dir) = Ok tables ->
  NoDup (map fst tables) /\
  forall key t,
    In (key, t) tables ->
    exists r, In r (collect data_dir) /\ religion_ok r = true /\
              cell r "query_purpose" = key.
Proof.
  intros Hrun.
  destruct (main_inv _ _ Hrun) as [[_ ->] | (df & Hprep & Hper)].
  { split; [constructor | intros key t []]. }
  apply prepare_inv in Hprep. destruct Hprep as (_ & _ & Hrows).
  unfold per_category in Hper.
  destruct (groupby df "query_purpose") as [groups|] eqn:Hg; [|discriminate].
  cbn [bind] in Hper. apply groupby_inv in Hg. destruct Hg as [_ Hgroups].
  pose proof (for_each_keys _ _ _ _ Hper) as Hkeys.
  rewrite Hgroups, map_map in Hkeys. cbn [fst] in Hkeys. rewrite map_id in Hkeys.
  split.
  - rewrite Hkeys.
    apply (Permutation_NoDup (Permutation_sym (sorted_perm _ _))).
    apply unique_NoDup. intros v Hv. apply filter_In in Hv. apply Hv.
  - intros key t Hin.
    assert (Hkey : In key (map fst tables))
      by (apply (in_map fst) in Hin; exact Hin).
    rewrite Hkeys in Hkey.
    apply sorted_In, unique_In, filter_In in Hkey. destruct Hkey as [Hkey _].
    apply in_map_iff in Hkey. destruct Hkey as (r' & Hcell & Hr').
    rewrite Hrows in Hr'. apply in_map_iff in Hr'.
    destruct Hr' as (r & <- & Hr). apply filter_In in Hr. destruct Hr as [Hr Hok].
    exists r. split; [assumption|]. split; [assumption|].
    rewrite prepared_cell in Hcell by assumption. exact Hcell.
Qed.

Lemma dkeys_table_row cols r : dkeys (table_row cols r) = cols.
Proof.
  unfold dkeys, table_row. rewrite map_map. cbn [fst]. apply map_id.
Qed.

(** X21. Every table [main] writes is named by a [query_purpose] string,
    has at least one row, and each of its rows has exactly one cell per
    column of the table, in column order. *)
Theorem table_rows_well_formed {fs : FileSystem} data_dir tables key t :
  main (Some data_dir) = Ok tables ->
  In (key, t) tables ->
  (exists p, key = VStr p) /\
  rows t <> [] /\
  forall r', In r' (rows t) -> dkeys r' = columns t.
Proof.
  intros Hrun Hin.
  destruct (main_tables _ _ _ _ Hrun Hin) as [_ Hrows].
  destruct (proj2 (main_table_keys _ _ Hrun) key t Hin) as (r & Hr & Hok & Hcell).
  destruct (collect_purpose _ _ Hr) as (p & Hp).
  assert (Hkey : key = VStr p) by congruence.
  split; [eauto|]. split.
  - intros Hnil. rewrite Hnil in Hrows.
    apply Permutation_nil in Hrows.
    assert (Hmem : In r (members key (collect data_dir))).
    { unfold members. apply filter_In. split; [assumption|].
      apply andb_true_iff. split; [assumption|].
      unfold in_category. rewrite Hp, Hkey. now apply value_eqb_str_l. }
    apply (in_map (table_row (columns t))) in Hmem.
    rewrite Hrows in Hmem. destruct Hmem.
  - intros r' Hr'. apply (Permutation_in _ Hrows), in_map_iff in Hr'.
    destruct Hr' as (r0 & <- & _). apply dkeys_table_row.
Qed.

Lemma table_rows_well_formed_witness :
  (exists p, VStr "bookstores" = VStr p) /\
  rows bookstores_table <> [] /\
  forall r', In r' (rows bookstores_table) -> dkeys r' = columns bookstores_table.
Proof.
  assert (Hrun : main (fs := writable) (Some two_categories)
                 = Ok [ (VStr "bookstores", bookstores_table);
                        (VStr "religion", religion_table) ])
    by (vm_compute; reflexivity).
  exact (table_rows_well_formed two_categories _ (VStr "bookstores")
           bookstores_table Hrun (or_introl eq_refl)).
Defined.

Lemma NoDup_fst_functional {A B} (l : list (A * B)) a b b' :
  NoDup (map fst l) -> In (a, b) l -> In (a, b') l -> b = b'.
Proof.
  induction l as [|[x y] l IH]; simpl; [tauto|].
  intros Hnd. inversion Hnd as [|? ? Hx Hl]; subst.
  intros [[= -> ->] | Hin] [[= ->] | Hin'].
  - reflexivity.
  - exfalso. apply Hx. apply (in_map fst) in Hin'. exact Hin'.
  - exfalso. apply Hx. apply (in_map fst) in Hin. exact Hin.
  - now apply IH.
Qed.

(** X22. The tables partition the rows that pass the religion filter by
    their [query_purpose] cell: table names are distinct, and each such
    row belongs to exactly one table. *)
Theorem tables_partition_rows {fs : FileSystem} data_dir tables :
  main (Some data_dir) = Ok tables ->
  NoDup (map fst tables) /\
  forall r,
    In r (collect data_dir) -> religion_ok r = true ->
    exists key t,
      In (key, t) tables /\
      cell r "query_purpose" = key /\
      In r (members key (collect data_dir)) /\
      In (table_row (columns t) r) (rows t) /\
      forall key' t',
        In (key', t') tables -> In r (members key' (collect data_dir)) ->
        key' = key /\ t' = t.
Proof.
  intros Hrun.
  destruct (main_table_keys _ _ Hrun) as [Hnd _].
  split; [assumption|]. intros r Hr Hok.
  destruct (main_covers _ _ _ Hrun Hr Hok) as (p & t & Hp & Ht).
  exists (VStr p), t. split; [assumption|]. split; [assumption|].
  assert (Hmem : In r (members (VStr p) (collect data_dir))).
  { unfold members. apply filter_In. split; [assumption|].
    apply andb_true_iff. split; [assumption|].
    unfold in_category. rewrite Hp. now apply value_eqb_str_l. }
  split; [assumption|]. split.
  - destruct (main_tables _ _ _ _ Hrun Ht) as [_ Hrows].
    apply (Permutation_in _ (Permutation_sym Hrows)). now apply in_map.
  - intros key' t' Ht' Hmem'.
    apply members_In in Hmem'. destruct Hmem' as (_ & _ & Hcat).
    unfold in_category in Hcat. rewrite Hp in Hcat.
    apply value_eqb_str_l in Hcat. subst key'.
    split; [reflexivity|].
    exact (NoDup_fst_functional _ _ _ _ Hnd Ht' Ht).
Qed.

Lemma tables_partition_rows_witness :
  NoDup (map fst [ (VStr "bookstores", bookstores_table);
                   (VStr "religion", religion_table) ]).
Proof.
  assert (Hrun : main (fs := writable) (Some two_categories)
                 = Ok [ (VStr "bookstores", bookstores_table);
                        (VStr "religion", religion_table) ])
    by (vm_compute; reflexivity).
  exact (proj1 (tables_partition_rows two_categories _ Hrun)).
Defined.

(** ** Row order *)

Lemma Qle_bool_total a b : Qle_bool a b = true \/ Qle_bool b a = true.
Proof.
  rewrite !Qle_bool_iff. destruct (Qlt_le_dec a b) as [H | H]; [left | now right].
  now apply Qlt_le_weak.
Qed.

Lemma Qle_bool_trans a b c :
  Qle_bool a b = true -> Qle_bool b c = true -> Qle_bool a c = true.
Proof. rewrite !Qle_bool_iff. apply Qle_trans. Qed.

Lemma value_leb_total a b : value_leb a b = true \/ value_leb b a = true.
Proof.
  destruct a, b; unfold value_leb, number, rank; cbn [Nat.leb];
    auto using Qle_bool_total, String.leb_total.
Qed.

Lemma value_leb_trans a b c :
  value_leb a b = true -> value_leb b c = true -> value_leb a c = true.
Proof.
  destruct a, b, c; unfold value_leb, number, rank; cbn [Nat.leb];
    try discriminate; try reflexivity;
    try apply Qle_bool_trans; try apply string_leb_trans.
Qed.

Lemma keys_leb_total ka : forall kb,
  keys_leb ka kb = true \/ keys_leb kb ka = true.
Proof.
  induction ka as [|a ka IH]; intros [|b kb]; cbn [keys_leb]; auto.
  destruct (value_leb_total a b) as [Hab | Hba].
  - rewrite Hab. destruct (value_leb b a); auto.
  - rewrite Hba. destruct (value_leb a b); auto.
Qed.

Lemma keys_leb_trans ka : forall kb kc,
  List.length ka = List.length kb -> List.length kb = List.length kc ->
  keys_leb ka kb = true -> keys_leb kb kc = true -> keys_leb ka kc = true.
Proof.
  induction ka as [|a ka IH]; intros [|b kb] [|c kc] Hab Hbc;
    try discriminate; cbn [keys_leb]; [reflexivity|].
  simpl in Hab, Hbc.
  destruct (value_leb a b) eqn:Eab; [|discriminate].
  destruct (value_leb b c) eqn:Ebc; [|intros _; discriminate].
  rewrite (value_leb_trans _ _ _ Eab Ebc).
  destruct (value_leb c a) eqn:Eca; [|reflexivity].
  rewrite (value_leb_trans _ _ _ Ebc Eca), (value_leb_trans _ _ _ Eca Eab).
  apply IH; lia.
Qed.

Lemma row_leb_total by_ r1 r2 :
  row_leb by_ r1 r2 = true \/ row_leb by_ r2 r1 = true.
Proof. apply keys_leb_total. Qed.

Lemma row_leb_trans by_ r1 r2 r3 :
  row_leb by_ r1 r2 = true -> row_leb by_ r2 r3 = true ->
  row_leb by_ r1 r3 = true.
Proof. apply keys_leb_trans; now rewrite !length_map. Qed.

Lemma row_leb_reindex by_ cols r1 r2 :
  incl by_ cols ->
  row_leb by_ (reindex cols r1) (reindex cols r2) = row_leb by_ r1 r2.
Proof.
  intros Hincl. unfold row_leb.
  assert (Hcells : forall r, map (cell (reindex cols r)) by_ = map (cell r) by_).
  { intros r. apply map_ext_in. intros col Hcol. rewrite cell_reindex.
    assert (E : contains col cols = true) by (apply contains_In; auto).
    now rewrite E. }
  now rewrite !Hcells.
Qed.

Lemma StronglySorted_map {A B} (R : A -> A -> Prop) (R' : B -> B -> Prop)
  (f : A -> B) l :
  (forall a b, R a b -> R' (f a) (f b)) ->
  StronglySorted R l -> StronglySorted R' (map f l).
Proof.
  intros Hf. induction 1 as [|x l Hl IH Hx]; simpl; constructor; [assumption|].
  rewrite Forall_forall in *. intros y Hy. apply in_map_iff in Hy.
  destruct Hy as (a & <- & Ha). auto.
Qed.

(** The rows of a table are the group's rows, sorted, laid out on the
    table's columns. *)
Lemma write_group_rows {fs : FileSystem} col_order tag_columns key group_df key' t :
  write_group col_order tag_columns (key, group_df) = Ok (key', t) ->
  rows t
  = map (reindex (columns t))
        (sorted (row_leb ["query_county"; "osm_id"])
                (map (reindex col_order) (rows group_df))).
Proof.
  intros Hw. apply write_group_written in Hw. destruct Hw as [Hw _].
  revert Hw. unfold group_table, getitem_cols.
  destruct (filter (fun col => negb (contains col (columns group_df))) col_order);
    [|discriminate].
  cbn [bind]. unfold sort_values. cbn [columns rows].
  destruct (filter (fun col => negb (contains col col_order))
                   ["query_county"; "osm_id"]); [|discriminate].
  cbn [bind].
  change (fun r1 r2 : row =>
            keys_leb (map (cell r1) ["query_county"; "osm_id"])
                     (map (cell r2) ["query_county"; "osm_id"]))
    with (row_leb ["query_county"; "osm_id"]).
  set (S := sorted _ (map (reindex col_order) (rows group_df))).
  set (D := filter _ tag_columns).
  destruct D as [|d D'].
  - intros [= <- <-]. cbn [columns rows].
    rewrite <- (map_id S) at 1. apply map_ext_in. intros r Hr.
    apply (Permutation_in _ (sorted_perm _ _)), in_map_iff in Hr.
    destruct Hr as (r0 & <- & _). symmetry. apply reindex_reindex, incl_refl.
  - intros [= <- <-]. reflexivity.
Qed.

Lemma main_table_group {fs : FileSystem} data_dir tables key t :
  main (Some data_dir) = Ok tables ->
  In (key, t) tables ->
  exists col_order tag_columns group_df,
    write_group col_order tag_columns (key, group_df) = Ok (key, t).
Proof.
  intros Hrun Hin.
  destruct (main_inv _ _ Hrun) as [[_ ->] | (df & _ & Hper)]; [destruct Hin|].
  unfold per_category in Hper.
  destruct (groupby df "query_purpose") as [groups|]; [|discriminate].
  cbn [bind] in Hper.
  destruct (for_each_In _ _ _ _ Hper Hin) as ([key0 gdf] & _ & Hw).
  pose proof (write_group_inv _ _ _ _ _ _ Hw) as (-> & _).
  eauto.
Qed.

(** X23. The rows of every table [main] writes are in ascending order of
    [(query_county, osm_id)], numbers before strings and missing values
    last. *)
Theorem table_rows_sorted {fs : FileSystem} data_dir tables key t :
  main (Some data_dir) = Ok tables ->
  In (key, t) tables ->
  StronglySorted
    (fun r1 r2 => row_leb ["query_county"; "osm_id"] r1 r2 = true) (rows t).
Proof.
  intros Hrun Hin.
  destruct (main_table_group _ _ _ _ Hrun Hin) as (co & tc & gdf & Hw).
  rewrite (write_group_rows _ _ _ _ _ _ Hw).
  apply StronglySorted_map
    with (R := fun r1 r2 => row_leb ["query_county"; "osm_id"] r1 r2 = true).
  - intros r1 r2 Hle. rewrite row_leb_reindex; [assumption|].
    intros col [<- | [<- | []]];
      apply (table_has_fixed _ _ _ _ _ Hrun Hin); unfold fixed_cols; in_literal.
  - apply sorted_sorted; [apply row_leb_total | apply row_leb_trans].
Qed.

Lemma table_rows_sorted_witness :
  StronglySorted
    (fun r1 r2 => row_leb ["query_county"; "osm_id"] r1 r2 = true)
    (rows religion_table).
Proof.
  assert (Hrun : main (fs := writable) (Some two_categories)
                 = Ok [ (VStr "bookstores", bookstores_table);
                        (VStr "religion", religion_table) ])
    by (vm_compute; reflexivity).
  exact (table_rows_sorted two_categories _ (VStr "religion") religion_table
           Hrun (or_intror (or_introl eq_refl))).
Defined.

(** ** The combined file *)

Lemma main_combined_unfold {fs : FileSystem} data_dir :
  main_with false (Some data_dir)
  = (made <- mkdir_exist_ok "csv" data_dir ;;
     match collect data_dir with
     | [] => Ok []
     | all_data => df_all <- prepare all_data ;; combined df_all
     end).
Proof.
  unfold main_with.
  destruct (mkdir_exist_ok "csv" data_dir); [cbn [bind]|reflexivity].
  destruct (collect data_dir) as [|r rs]; [reflexivity|].
  unfold prepare.
  destruct (getitem (pd_DataFrame (r :: rs)) "religion") as [religion|e];
    [|reflexivity].
  cbn [bind]. cbv zeta. unfold combined. reflexivity.
Qed.

Lemma prepared_col_order all_data df_all :
  prepare all_data = Ok df_all ->
  col_order_of df_all = corpus_col_order all_data.
Proof.
  intros Hprep. apply prepare_inv in Hprep. destruct Hprep as (_ & Hcols & _).
  unfold col_order_of, corpus_col_order, fixed_cols, other_cols_of, tag_cols.
  rewrite Hcols.
  change (priority_cols ++ remaining_base_cols) with fixed_cols.
  rewrite blank_columns_others. unfold fixed_cols. now rewrite app_assoc.
Qed.

(** X24. With [CREATE_SEPARATE_CSV_FILES = False], [main] writes one
    table, [combined_data], even when no row passes the religion filter;
    its columns are the whole computed column order (nothing is pruned),
    its rows are all the collected rows that pass the religion filter, in
    ascending order of [(query_county, query_purpose, osm_id)]. *)
Theorem main_combined_table {fs : FileSystem} data_dir tables :
  main_with false (Some data_dir) = Ok tables ->
  (collect data_dir = [] /\ tables = []) \/
  exists t,
    tables = [ (VStr "combined_data", t) ] /\
    columns t = corpus_col_order (collect data_dir) /\
    Permutation (rows t)
                (map (table_row (columns t))
                     (filter religion_ok (collect data_dir))) /\
    StronglySorted
      (fun r1 r2 =>
         row_leb ["query_county"; "query_purpose"; "osm_id"] r1 r2 = true)
      (rows t).
Proof.
  rewrite main_combined_unfold.
  destruct (mkdir_exist_ok "csv" data_dir); [cbn [bind]|discriminate].
  destruct (collect data_dir) as [|r0 rs] eqn:Hcollect.
  { intros [= <-]. left. split; reflexivity. }
  rewrite <- Hcollect. intros Hrun. right.
  destruct (prepare (collect data_dir)) as [df|] eqn:Hprep; [|discriminate].
  cbn [bind] in Hrun.
  pose proof (prepared_col_order _ _ Hprep) as Horder.
  apply prepare_inv in Hprep. destruct Hprep as (_ & _ & Hrows).
  unfold combined, getitem_cols in Hrun. rewrite Horder in Hrun.
  destruct (filter (fun col => negb (contains col (columns df)))
                   (corpus_col_order (collect data_dir))); [|discriminate].
  cbn [bind] in Hrun. unfold sort_values in Hrun. cbn [columns rows] in Hrun.
  destruct (filter (fun col => negb (contains col (corpus_col_order (collect data_dir))))
                   ["query_county"; "query_purpose"; "osm_id"]); [|discriminate].
  cbn [bind] in Hrun.
  destruct (to_csv (VStr "combined_data") _) as [written|]; [|discriminate].
  cbn [bind] in Hrun. injection Hrun as <-.
  eexists. split; [reflexivity|]. cbn [columns rows].
  split; [reflexivity|]. split.
  - rewrite sorted_perm, Hrows, map_map.
    apply Permutation_refl'. apply map_ext_in. intros r Hr.
    apply filter_In in Hr. destruct Hr as [Hr _].
    unfold table_row. unfold reindex at 1. apply map_ext. intros col.
    rewrite prepared_cell by assumption. reflexivity.
  - change (fun r1 r2 : row =>
              keys_leb (map (cell r1) ["query_county"; "query_purpose"; "osm_id"])
                       (map (cell r2) ["query_county"; "query_purpose"; "osm_id"]))
      with (row_leb ["query_county"; "query_purpose"; "osm_id"]).
    apply (sorted_sorted (row_leb ["query_county"; "query_purpose"; "osm_id"])
             (row_leb_total _) (row_leb_trans _)).
Qed.

Lemma main_combined_table_witness :
  exists t,
    main_with (fs := writable) false (Some two_categories) = Ok [ (VStr "combined_data", t) ] /\
    columns t = corpus_col_order (collect two_categories).
Proof.
  destruct (main_with (fs := writable) false (Some two_categories)) as [tables|e] eqn:Hrun;
    [|vm_compute in Hrun; discriminate].
  destruct (main_combined_table (fs := writable) two_categories tables Hrun)
    as [[Hnil _] | (t & -> & Hcols & _)].
  - vm_compute in Hnil. discriminate.
  - exists t. split; [reflexivity | assumption].
Defined.
